(** * Deep-research orchestration: a shallow embedding of
      [src/utils/deep_research.py] and its properties.

    Python [str] values are modelled by [string]; a character is a code
    point in the range U+0000..U+00FF.  The functions of [urllib.parse]
    that [normalize_url] calls are embedded from CPython 3.11
    ([urlsplit], [urlparse], [_splitnetloc], [_splitparams],
    [urlunsplit], [urlunparse]).  [_checknetloc] only rejects network
    locations whose NFKC form introduces one of [/?#@:], which no code
    point below U+0100 does, so it is the identity check on this
    character range. *)

From Stdlib Require Import ZArith SpecFloat Ascii String List Bool Lia DecimalString.
From stdpp Require Import base decidable option list gmap strings.

Local Open Scope string_scope.
#[local] Arguments String.append !_ _ : simpl nomatch.

(** ** Strings the way Python slices them *)

Module Str.

Definition eqb_ascii (a b : ascii) : bool := Ascii.eqb a b.

(** [c in s] *)
Fixpoint contains (c : ascii) (s : string) : bool :=
  match s with
  | EmptyString => false
  | String a t => if eqb_ascii a c then true else contains c t
  end.

(** [s.partition(c)[0]]: the text before the first [c], all of [s]
    when [c] does not occur. *)
Fixpoint before (c : ascii) (s : string) : string :=
  match s with
  | EmptyString => EmptyString
  | String a t => if eqb_ascii a c then EmptyString else String a (before c t)
  end.

(** [s.partition(c)[2]]: the text after the first [c], empty when [c]
    does not occur. *)
Fixpoint after (c : ascii) (s : string) : string :=
  match s with
  | EmptyString => EmptyString
  | String a t => if eqb_ascii a c then t else after c t
  end.

Fixpoint forallb (p : ascii -> bool) (s : string) : bool :=
  match s with
  | EmptyString => true
  | String a t => p a && forallb p t
  end.

Fixpoint filter (p : ascii -> bool) (s : string) : string :=
  match s with
  | EmptyString => EmptyString
  | String a t => if p a then String a (filter p t) else filter p t
  end.

Fixpoint map (f : ascii -> ascii) (s : string) : string :=
  match s with
  | EmptyString => EmptyString
  | String a t => String (f a) (map f t)
  end.

(** [s.lstrip(chars)] for the character class [p] *)
Fixpoint lstrip (p : ascii -> bool) (s : string) : string :=
  match s with
  | EmptyString => EmptyString
  | String a t => if p a then lstrip p t else s
  end.

(** the longest prefix free of [p], and the rest starting at the first
    character in [p] *)
Fixpoint span_until (p : ascii -> bool) (s : string) : string * string :=
  match s with
  | EmptyString => (EmptyString, EmptyString)
  | String a t =>
      if p a then (EmptyString, s)
      else let '(h, r) := span_until p t in (String a h, r)
  end.

(** [(s[:j], s[j:])] for [j = s.rfind(c)], [None] when [c] does not
    occur. *)
Fixpoint rsplit (c : ascii) (s : string) : option (string * string) :=
  match s with
  | EmptyString => None
  | String a t =>
      match rsplit c t with
      | Some (h, l) => Some (String a h, l)
      | None => if eqb_ascii a c then Some (EmptyString, s) else None
      end
  end.

(** [s.endswith(c)] *)
Fixpoint endswith (c : ascii) (s : string) : bool :=
  match s with
  | EmptyString => false
  | String a EmptyString => eqb_ascii a c
  | String _ t => endswith c t
  end.

(** [s[:-1]] *)
Fixpoint drop_last (s : string) : string :=
  match s with
  | EmptyString => EmptyString
  | String _ EmptyString => EmptyString
  | String a t => String a (drop_last t)
  end.

(** [s[:n]] *)
Fixpoint take (n : nat) (s : string) : string :=
  match n, s with
  | S n', String a t => String a (take n' t)
  | _, _ => EmptyString
  end.

(** [s[n:]] *)
Fixpoint drop (n : nat) (s : string) : string :=
  match n, s with
  | S n', String _ t => drop n' t
  | _, _ => s
  end.

(** [s[:1] == c] *)
Definition startswith (c : ascii) (s : string) : bool :=
  match s with
  | String a _ => eqb_ascii a c
  | EmptyString => false
  end.

(** [needle in hay] for strings *)
Fixpoint occurs (needle hay : string) : bool :=
String.prefix needle hay
|| match hay with
   | EmptyString => false
   | String _ t => occurs needle t
   end.

(** Python truthiness of a string *)
Definition nonempty (s : string) : bool :=
  match s with EmptyString => false | _ => true end.

End Str.

(** ** [urllib.parse] *)

Module UrlParse.

Definition code (c : ascii) : nat := nat_of_ascii c.

Definition in_range (lo hi : nat) (c : ascii) : bool :=
  (lo <=? code c)%nat && (code c <=? hi)%nat.

Definition is_upper (c : ascii) : bool := in_range 65 90 c.
Definition is_lower (c : ascii) : bool := in_range 97 122 c.
Definition is_digit (c : ascii) : bool := in_range 48 57 c.

(** [c.isascii() and c.isalpha()] *)
Definition is_ascii_alpha (c : ascii) : bool := is_upper c || is_lower c.

(** [scheme_chars]: letters, digits and [+-.] *)
Definition scheme_char (c : ascii) : bool :=
  is_ascii_alpha c || is_digit c
  || Str.eqb_ascii c "+" || Str.eqb_ascii c "-" || Str.eqb_ascii c ".".

(** [_WHATWG_C0_CONTROL_OR_SPACE]: U+0000..U+0020 *)
Definition c0_control_or_space (c : ascii) : bool := (code c <=? 32)%nat.

(** [_UNSAFE_URL_BYTES_TO_REMOVE]: tab, carriage return, line feed *)
Definition unsafe_url_byte (c : ascii) : bool :=
  (code c =? 9)%nat || (code c =? 13)%nat || (code c =? 10)%nat.

(** [str.lower] on one character; [urlsplit] applies it to scheme
    characters only, which are all below U+0080. *)
Definition lower_char (c : ascii) : ascii :=
  if is_upper c then ascii_of_nat (code c + 32) else c.

Definition lower (s : string) : string := Str.map lower_char s.

(** [uses_params] *)
Definition uses_params : list string :=
  [""; "ftp"; "hdl"; "prospero"; "http"; "imap"; "https"; "shttp";
   "rtsp"; "rtspu"; "sip"; "sips"; "mms"; "sftp"; "tel"].

(** [uses_netloc] *)
Definition uses_netloc : list string :=
  [""; "ftp"; "http"; "gopher"; "nntp"; "telnet"; "imap"; "wais";
   "file"; "mms"; "https"; "shttp"; "snews"; "prospero"; "rtsp";
   "rtspu"; "rsync"; "svn"; "svn+ssh"; "sftp"; "nfs"; "git";
   "git+ssh"; "ws"; "wss"].

Definition mem (s : string) (l : list string) : bool :=
  existsb (String.eqb s) l.

Record SplitResult := mkSplit {
  s_scheme : string; s_netloc : string; s_path : string;
  s_query : string; s_fragment : string }.

Record ParseResult := mkParse {
  scheme : string; netloc : string; path : string;
  params : string; query : string; fragment : string }.

Definition netloc_delim (c : ascii) : bool :=
  Str.eqb_ascii c "/" || Str.eqb_ascii c "?" || Str.eqb_ascii c "#".

(** [_splitnetloc(url, start)]: the network location runs from
    [start] to the earliest of [/], [?] and [#]. *)
Definition splitnetloc (url : string) (start : nat) : string * string :=
  Str.span_until netloc_delim (Str.drop start url).

(** the scheme test at the head of [urlsplit]:
    [i = url.find(':')], [i > 0], first character an ASCII letter,
    every character of [url[:i]] in [scheme_chars]. *)
Definition split_scheme (url : string) : string * string :=
  if Str.contains ":" url then
    let pre := Str.before ":" url in
    match pre with
    | String c0 _ =>
        if is_ascii_alpha c0 && Str.forallb scheme_char pre
        then (lower pre, Str.after ":" url)
        else (EmptyString, url)
    | EmptyString => (EmptyString, url)
    end
  else (EmptyString, url).

Section WithBracketCheck.

(** [_check_bracketed_host] validates the text between [[] and []]
    with the [ipaddress] module; [true] stands for "does not raise". *)
Variable check_bracketed_host : string -> bool.

(** the bracket checks of [urlsplit]; [false] stands for
    [ValueError]. *)
Definition netloc_brackets_ok (nl : string) : bool :=
  let lb := Str.contains "[" nl in
  let rb := Str.contains "]" nl in
  if (lb && negb rb) || (rb && negb lb) then false
  else if lb && rb
       then check_bracketed_host (Str.before "]" (Str.after "[" nl))
       else true.

(** [urlsplit(url)]; [None] stands for a raised [ValueError]. *)
Definition urlsplit (url0 : string) : option SplitResult :=
  let url := Str.lstrip c0_control_or_space url0 in
  let url := Str.filter (fun c => negb (unsafe_url_byte c)) url in
  let '(sch, url) := split_scheme url in
  let located :=
    if String.eqb (Str.take 2 url) "//" then
      let '(nl, url) := splitnetloc url 2 in
      if netloc_brackets_ok nl then Some (nl, url) else None
    else Some (EmptyString, url) in
  match located with
  | None => None
  | Some (nl, url) =>
      let '(url, frag) :=
        if Str.contains "#" url
        then (Str.before "#" url, Str.after "#" url)
        else (url, EmptyString) in
      let '(url, qry) :=
        if Str.contains "?" url
        then (Str.before "?" url, Str.after "?" url)
        else (url, EmptyString) in
      Some (mkSplit sch nl url qry frag)
  end.

(** [_splitparams(url)] *)
Definition splitparams (url : string) : string * string :=
  match Str.rsplit "/" url with
  | Some (h, l) =>
      if Str.contains ";" l
      then (h ++ Str.before ";" l, Str.after ";" l)
      else (url, EmptyString)
  | None => (Str.before ";" url, Str.after ";" url)
  end.

(** [urlparse(url)] *)
Definition urlparse (url : string) : option ParseResult :=
  match urlsplit url with
  | None => None
  | Some r =>
      let '(url, prm) :=
        if mem (s_scheme r) uses_params && Str.contains ";" (s_path r)
        then splitparams (s_path r)
        else (s_path r, EmptyString) in
      Some (mkParse (s_scheme r) (s_netloc r) url prm
                    (s_query r) (s_fragment r))
  end.

(** [urlunsplit((scheme, netloc, url, query, fragment))] *)
Definition urlunsplit (sch nl url qry frag : string) : string :=
  let url :=
    if Str.nonempty nl
       || (Str.nonempty sch && mem sch uses_netloc
           && negb (String.eqb (Str.take 2 url) "//"))
    then
      let url :=
        if Str.nonempty url && negb (Str.startswith "/" url)
        then String "/" url else url in
      "//" ++ nl ++ url
    else url in
  let url := if Str.nonempty sch then sch ++ ":" ++ url else url in
  let url := if Str.nonempty qry then url ++ "?" ++ qry else url in
  if Str.nonempty frag then url ++ "#" ++ frag else url.

(** [urlunparse((scheme, netloc, url, params, query, fragment))] *)
Definition urlunparse (sch nl url prm qry frag : string) : string :=
  let url := if Str.nonempty prm then url ++ ";" ++ prm else url in
  urlunsplit sch nl url qry frag.

(** the removal of one trailing [/] that [normalize_url] performs,
    seen on the path alone *)
Definition strip_trailing (pth : string) : string :=
  if Str.endswith "/" pth && negb (String.eqb pth "/")
  then Str.drop_last pth else pth.

(** the text after the last [/] of a path, with that [/] *)
Definition last_segment (pth : string) : string :=
  match Str.rsplit "/" pth with
  | Some (_, l) => l
  | None => pth
  end.

(** a path that a second normalization leaves alone: once its
    trailing [/] is stripped it does not end in another [/] (the
    root apart) and its last segment has no [;] parameter that
    [urlparse] would split off. *)
Definition settled (sch pth : string) : bool :=
  let p1 := strip_trailing pth in
  negb (Str.endswith "/" p1 && negb (String.eqb p1 "/"))
  && negb (mem sch uses_params && Str.contains ";" (last_segment p1)).

(** [normalize_url]; the [try]/[except Exception] turns a raised
    [ValueError] into the input itself. *)
Definition normalize_url (url : string) : string :=
  match urlparse url with
  | None => url
  | Some parsed_url =>
      if negb (Str.nonempty (scheme parsed_url))
         || negb (Str.nonempty (netloc parsed_url))
      then url
      else
        let normalized_url :=
          urlunparse (scheme parsed_url) (netloc parsed_url)
                     (path parsed_url) "" "" "" in
        if Str.endswith "/" normalized_url
           && negb (String.eqb (path parsed_url) "/")
        then Str.drop_last normalized_url
        else normalized_url
  end.

(** [parsed.scheme and parsed.netloc]: the test that decides
    whether [normalize_url] rebuilds its argument *)
Definition url_shaped (url : string) : bool :=
  match urlparse url with
  | Some p => Str.nonempty (scheme p) && Str.nonempty (netloc p)
  | None => false
  end.

(** the strings that one normalization brings to rest: those that
    are not URL-shaped, and the URL-shaped ones with a settled path *)
Definition url_settled (url : string) : bool :=
  match urlparse url with
  | Some p =>
      if Str.nonempty (scheme p) && Str.nonempty (netloc p)
      then settled (scheme p) (path p) else true
  | None => true
  end.

End WithBracketCheck.

(** a bracket check that accepts every host; the examples that use it
    have no bracket in their network location *)
Definition any_host (_ : string) : bool := true.

End UrlParse.

(** ** Python floats

    A Python [float] is an IEEE 754 binary64 value.  [SpecFloat] gives
    the arithmetic of these values, every operation rounded to nearest
    with ties to even, as CPython computes it; the values that a Python
    program can hold are the zeros, the infinities, NaN and the finite
    values in canonical form. *)

Module Float.

Definition float : Set := spec_float.
Definition prec : Z := 53.
Definition emax : Z := 1024.

Definition add : float -> float -> float := SFadd prec emax.
Definition sub : float -> float -> float := SFsub prec emax.
Definition mul : float -> float -> float := SFmul prec emax.
Definition div : float -> float -> float := SFdiv prec emax.

(** the double nearest to [m * 2 ** e] *)
Definition dyadic (m e : Z) : float := binary_normalize prec emax m e false.

(** [float(z)] for an int [z]; Python raises [OverflowError] where the
    nearest double would be infinite. *)
Definition of_Z (z : Z) : float := dyadic z 0.

(** the ints for which [float(z)] does not raise *)
Definition convertible (z : Z) : bool :=
  match of_Z z with S754_infinity _ => false | _ => true end.

(** the int [z] itself, as an unrounded operand of the division *)
Definition exact (z : Z) : float :=
  match z with
  | Z0 => S754_zero false
  | Zpos p => S754_finite false p 0
  | Zneg p => S754_finite true p 0
  end.

(** [a / b] for two ints: the double nearest to the quotient; Python
    raises [ZeroDivisionError] for [b = 0] and [OverflowError] where the
    nearest double would be infinite. *)
Definition div_Z (a b : Z) : float := SFdiv prec emax (exact a) (exact b).

Definition zero : float := S754_zero false.

Definition is_nan (x : float) : bool :=
  match x with S754_nan => true | _ => false end.

(** an int against a double, by value *)
Definition compare_Z (z : Z) (x : float) : option comparison :=
  match x with
  | S754_nan => None
  | S754_infinity s => Some (if s then Gt else Lt)
  | S754_zero _ => Some (z ?= 0)%Z
  | S754_finite s m e =>
      let v := if s then Zneg m else Zpos m in
      Some (match e with
            | Zneg p => (z * 2 ^ Zpos p ?= v)%Z
            | _ => (z ?= v * 2 ^ e)%Z
            end)
  end.

End Float.

(** ** Python numbers

    The waits of the retry function are ints or floats: the keyword
    defaults are the ints 1 and 59, a caller may pass floats.  An
    operation on two ints is exact, but for [/], which gives the
    nearest double; an operation on an int and a float converts the int
    with [float()] first; a comparison is by value.  Where Python raises
    [OverflowError] (an int or a quotient of ints beyond the doubles) or
    [ZeroDivisionError], the operations below have an infinite value or
    NaN instead; [Retry.config] keeps the parameters of the retry
    function away from these cases. *)

Module Num.

Inductive num : Set :=
| Int (z : Z)
| Flt (x : Float.float).

(** [float(a)], for an [a] that [fits] *)
Definition to_float (a : num) : Float.float :=
  match a with
  | Int z => Float.of_Z z
  | Flt x => x
  end.

Definition add (a b : num) : num :=
  match a, b with
  | Int x, Int y => Int (x + y)
  | _, _ => Flt (Float.add (to_float a) (to_float b))
  end.

Definition sub (a b : num) : num :=
  match a, b with
  | Int x, Int y => Int (x - y)
  | _, _ => Flt (Float.sub (to_float a) (to_float b))
  end.

Definition mul (a b : num) : num :=
  match a, b with
  | Int x, Int y => Int (x * y)
  | _, _ => Flt (Float.mul (to_float a) (to_float b))
  end.

(** [a / b], for [b] other than zero *)
Definition truediv (a b : num) : num :=
  match a, b with
  | Int x, Int y => Flt (Float.div_Z x y)
  | _, _ => Flt (Float.div (to_float a) (to_float b))
  end.

Definition is_nan (a : num) : bool :=
  match a with
  | Int _ => false
  | Flt x => Float.is_nan x
  end.

(** the comparison of two numbers; [None] when one is NaN *)
Definition compare (a b : num) : option comparison :=
  match a, b with
  | Int x, Int y => Some (x ?= y)%Z
  | Flt x, Flt y => SFcompare x y
  | Int x, Flt y => Float.compare_Z x y
  | Flt x, Int y => option_map CompOpp (Float.compare_Z y x)
  end.

(** [a < b] and [a <= b]; [False] when an argument is NaN *)
Definition ltb (a b : num) : bool :=
  match compare a b with
  | Some Lt => true
  | _ => false
  end.


(** [float(a)] does not raise *)
Definition fits (a : num) : bool :=
  match a with
  | Int z => Float.convertible z
  | Flt _ => true
  end.

End Num.

(** ** [retry_for_rate_limit_per_minute]

    The waits are computed with the operations of Python and in the
    order of the source.  The random factor [random.uniform(-0.1, 0.1)]
    is supplied by the caller of the model as the sequence of draws,
    and [asyncio.sleep] is taken to return after the wait. *)

Module Retry.

(** what one call of [func] with the given arguments does *)
Inductive outcome (A : Type) : Type :=
| Returns (a : A)
| RaisesResourceExhausted
| RaisesOther (e : string).
Arguments Returns {A} a.
Arguments RaisesResourceExhausted {A}.
Arguments RaisesOther {A} e.

(** how the retry function ends *)
Inductive result (A : Type) : Type :=
| Ok (a : A)
| ResourceExhausted
| OtherError (e : string)
| OutOfFuel.
Arguments Ok {A} a.
Arguments ResourceExhausted {A}.
Arguments OtherError {A} e.
Arguments OutOfFuel {A}.

(** the arithmetic of the wait raises nothing: the ints that it
    converts with [float()] are in the range of the doubles, and so is
    the quotient of the int division *)
Definition in_range (max_retries : Z) (initial_wait target_wait_time : Num.num)
  : bool :=
  Float.convertible (max_retries - 1)
  && Num.fits initial_wait && Num.fits target_wait_time
  && Num.fits (Num.sub target_wait_time initial_wait).

(** the keyword parameters: [max_retries] is an int, the two waits are
    ints or floats.  A wait is computed only when [max_retries] is at
    least 2; [waits_in_range] keeps the parameters to those on which
    that computation raises no [OverflowError]. *)
Record config := mkConfig {
  max_retries : Z;
  initial_wait : Num.num;
  target_wait_time : Num.num;
  waits_in_range :
    (max_retries <=? 1)%Z
    || in_range max_retries initial_wait target_wait_time = true }.

(** the keyword defaults [max_retries=5, initial_wait=1,
    target_wait_time=59] *)
Definition defaults : config :=
  mkConfig 5 (Num.Int 1) (Num.Int 59) eq_refl.

(** [min(a, b)] and [max(a, b)] of Python: the first argument unless
    the second is strictly smaller (larger); a comparison with NaN is
    false, so a NaN first argument is returned. *)
Definition py_min (a b : Num.num) : Num.num :=
  if Num.ltb b a then b else a.
Definition py_max (a b : Num.num) : Num.num :=
  if Num.ltb a b then b else a.

(** [initial_wait + (target_wait_time - initial_wait) * (retries - 1)
    / (max_retries - 1)] *)
Definition ramp (c : config) (retries : Z) : Num.num :=
  Num.add (initial_wait c)
    (Num.truediv
       (Num.mul (Num.sub (target_wait_time c) (initial_wait c))
                (Num.Int (retries - 1)))
       (Num.Int (max_retries c - 1))).

(** the wait computed after the [retries]-th quota failure, before the
    jitter is applied *)
Definition wait_time (c : config) (retries : Z) : Num.num :=
  let wait_time :=
    if (max_retries c <=? 1)%Z then target_wait_time c
    else ramp c retries in
  let wait_time := py_min wait_time (target_wait_time c) in
  py_max wait_time (Num.Int 0).

(** [wait_time * (1 + random.uniform(-0.1, 0.1))]: the draw is a float,
    and so are the sum and the product *)
Definition jittered (w : Num.num) (u : Float.float) : Float.float :=
  Num.to_float (Num.mul w (Num.add (Num.Int 1) (Num.Flt u))).

Record run (A : Type) := mkRun {
  final : result A;
  calls : nat;          (** how often [func] was called *)
  sleeps : list Float.float }.
    (** the arguments of [asyncio.sleep], in order *)
Arguments mkRun {A} final calls sleeps.
Arguments final {A} r.
Arguments calls {A} r.
Arguments sleeps {A} r.

Section Loop.
Context {A : Type}.
(** the [k]-th call of [func] (from 0) *)
Variable func : nat -> outcome A.
(** the [k]-th draw of [random.uniform(-0.1, 0.1)] (from 0) *)
Variable uniform : nat -> Float.float.
Variable c : config.

(** the [while retries < max_retries] loop; [fuel] bounds the number
    of iterations. *)
Fixpoint loop (fuel : nat) (retries : Z) (ncalls : nat)
              (slept : list Float.float)
  : run A :=
  if (retries <? max_retries c)%Z then
    match fuel with
    | O => mkRun OutOfFuel ncalls slept
    | S fuel' =>
        match func ncalls with
        | Returns a => mkRun (Ok a) (S ncalls) slept
        | RaisesResourceExhausted =>
            let retries := (retries + 1)%Z in
            if (retries >=? max_retries c)%Z
            then mkRun ResourceExhausted (S ncalls) slept
            else
              let w := jittered (wait_time c retries)
                                (uniform (List.length slept)) in
              loop fuel' retries (S ncalls) (slept ++ [w])
        | RaisesOther e => mkRun (OtherError e) (S ncalls) slept
        end
    end
  else mkRun ResourceExhausted ncalls slept.

(** the sleeps that follow the quota failures number [retries + 1]
    to [retries + k], when [drawn] draws were made before *)
Fixpoint waits (retries : Z) (drawn k : nat) : list Float.float :=
  match k with
  | O => []
  | S k' =>
      jittered (wait_time c (retries + 1)) (uniform drawn)
      :: waits (retries + 1) (S drawn) k'
  end.

(** [retry_for_rate_limit_per_minute(func, ...)]: every iteration
    that does not leave the loop increments [retries], so
    [max_retries] iterations are enough. *)
Definition retry_for_rate_limit_per_minute : run A :=
  loop (Z.to_nat (max_retries c)) 0 0 [].

End Loop.

End Retry.

(** ** [json.dumps] on strings and lists of strings *)

Module Json.

Definition dquote : ascii := ascii_of_nat 34.
Definition backslash : ascii := ascii_of_nat 92.
Definition newline : string := String (ascii_of_nat 10) EmptyString.

Definition hex_digit (n : nat) : ascii :=
  if (n <? 10)%nat then ascii_of_nat (48 + n) else ascii_of_nat (87 + n).

(** one character under [ensure_ascii=True]: the short escapes, the
    printable ASCII range as it is, [\u00xx] for the rest *)
Definition escape_char (c : ascii) : string :=
  let n := nat_of_ascii c in
  if (n =? 34)%nat then String backslash (String dquote EmptyString)
  else if (n =? 92)%nat then String backslash (String backslash EmptyString)
  else if (n =? 10)%nat then String backslash "n"
  else if (n =? 13)%nat then String backslash "r"
  else if (n =? 9)%nat then String backslash "t"
  else if (n =? 8)%nat then String backslash "b"
  else if (n =? 12)%nat then String backslash "f"
  else if (32 <=? n)%nat && (n <=? 126)%nat then String c EmptyString
  else String backslash
         ("u00" ++ String (hex_digit (n / 16))
                     (String (hex_digit (n mod 16)) EmptyString)).

Fixpoint escape (s : string) : string :=
  match s with
  | EmptyString => EmptyString
  | String c t => escape_char c ++ escape t
  end.

(** [json.dumps(s)] for a [str] *)
Definition dumps_str (s : string) : string :=
  String dquote (escape s ++ String dquote EmptyString).

Fixpoint items (l : list string) : string :=
  match l with
  | [] => EmptyString
  | [x] => "    " ++ dumps_str x
  | x :: t => "    " ++ dumps_str x ++ "," ++ newline ++ items t
  end.

(** [json.dumps(l, indent=4)] for a list of [str] *)
Definition dumps_list (l : list string) : string :=
  match l with
  | [] => "[]"
  | _ => "[" ++ newline ++ items l ++ newline ++ "]"
  end.

End Json.

(** ** [deep_research]

    The collaborators of the function (the model client, the JSON repair
    and parsing of its answers, the browsing agents, the serialisation of
    recorded facts) are the fields of a [world].  The file system takes
    every write, so a write is an event that succeeds once its text is
    encoded.  The texts of the model are strings of the range above,
    which UTF-8 encodes; a record is what [json.loads] makes of such a
    text, where an escape can stand for any code point, a lone surrogate
    included, so the write of the records can fail in its encoding.
    Cookie injection is left at its default ([use_own_cookies=False]). *)

Module Research.

Definition nl : string := Json.newline.

(** [str(n)] *)
Definition str_of_Z (z : Z) : string := NilZero.string_of_int (Z.to_int z).

(** [os.path.join(a, b)] for a relative [b] *)
Definition path_join (a b : string) : string :=
  if negb (Str.nonempty a) || Str.endswith "/" a then a ++ b
  else a ++ "/" ++ b.

(** the planner's answer after the code fences are stripped,
    [repair_json] and [json.loads]: a decode error, a missing ["plan"]
    or ["queries"] key, or a plan with its list of queries *)
Inductive plan_json : Type :=
| PlanDecodeError
| PlanKeyError
| Plan (plan : string) (queries : list string).

(** the recorder's answer after [repair_json] and [json.loads]: a
    [JSONDecodeError], a list of records, or a value that is no list of
    objects, on which the loop over the records raises [TypeError]
    after it has handled the records [seen] *)
Inductive record_json (info : Type) : Type :=
| RecordDecodeError
| Records (new_record_infos : list info)
| RecordTypeError (seen : list info).
Arguments RecordDecodeError {info}.
Arguments Records {info} new_record_infos.
Arguments RecordTypeError {info} seen.

(** what [agent.run(max_steps=...)] gives: an exception, [None], or a
    history whose [final_result()] may be [None] *)
Inductive agent_outcome : Type :=
| AgentRaises (e : string)
| AgentNone
| AgentHistory (final_result : option string).

Record world (info : Type) := mkWorld {
  (** the [k]-th call of [llm.invoke] (from 0) that [deep_research]
      makes through the retry wrapper: the content of the message it
      returns, or [None] *)
  llm_invoke : nat -> Retry.outcome (option string);
  (** the [k]-th draw of [random.uniform(-0.1, 0.1)] *)
  uniform : nat -> Float.float;
  decode_plan : string -> plan_json;
  decode_record : string -> record_json info;
  (** [info["url"]] when the key is present *)
  info_url : info -> option string;
  (** [json.dumps(history_infos, indent=4)] *)
  dumps_infos : list info -> string;
  (** [json.dump(..., ensure_ascii=False)] can write the record to the
      UTF-8 file: its strings hold no lone surrogate; otherwise the write
      raises [UnicodeEncodeError] *)
  encodable : info -> bool;
  (** the agent of iteration [it] at position [i] on its query *)
  agent_run : Z -> nat -> string -> agent_outcome;
  check_bracketed_host : string -> bool }.
Arguments llm_invoke {info} w _.
Arguments uniform {info} w _.
Arguments decode_plan {info} w _.
Arguments decode_record {info} w _.
Arguments info_url {info} w _.
Arguments dumps_infos {info} w _.
Arguments encodable {info} w _.
Arguments agent_run {info} w _ _ _.
Arguments check_bracketed_host {info} w _.

Record options := mkOptions {
  max_search_iterations : Z;
  save_dir : string }.

Inductive event : Type :=
| EvPlanner (query_prompt : string)
| EvRecorder (record_prompt : string)
| EvReport (report_prompt : string)
| EvSleep (seconds : Float.float)
| EvOpen (context : nat)
| EvClose (context : nat)
| EvAgent (context : nat) (query : string)
| EvSaveQuery (path : string) (text : string)
| EvSaveRecords (path : string)
| EvSaveReport (path : string) (text : string)
| EvBrowserClose.

(** the queries given to agents, in the order of their construction *)
Fixpoint dispatched (tr : list event) : list string :=
match tr with
| [] => []
| EvAgent _ q :: rest => q :: dispatched rest
| _ :: rest => dispatched rest
end.

(** the contexts opened, and those closed, in order *)
Fixpoint opened (tr : list event) : list nat :=
match tr with
| [] => []
| EvOpen c :: rest => c :: opened rest
| _ :: rest => opened rest
end.

Fixpoint closed (tr : list event) : list nat :=
match tr with
| [] => []
| EvClose c :: rest => c :: closed rest
| _ :: rest => closed rest
end.

(** the prompts sent to the planner, the recorder and the report
    writer, in order *)
Fixpoint planner_prompts (tr : list event) : list string :=
match tr with
| [] => []
| EvPlanner p :: rest => p :: planner_prompts rest
| _ :: rest => planner_prompts rest
end.

Fixpoint recorder_prompts (tr : list event) : list string :=
match tr with
| [] => []
| EvRecorder p :: rest => p :: recorder_prompts rest
| _ :: rest => recorder_prompts rest
end.

Fixpoint report_prompts (tr : list event) : list string :=
match tr with
| [] => []
| EvReport p :: rest => p :: report_prompts rest
| _ :: rest => report_prompts rest
end.

(** the local variables of [deep_research] and the effects so far *)
Record state (info : Type) := mkState {
  task : string;
  search_iteration : Z;
  history_query : list string;
  history_infos : list info;
  visited_links : gset string;
  (** [query_result]: unbound, or bound to a text or to [None] *)
  query_result : option (option string);
  (** the calls of [llm.invoke] made through the retry wrapper so far;
      the agents call the model on their own *)
  llm_calls : nat;
  (** the draws of [random.uniform] so far *)
  draws : nat;
  contexts_opened : nat;
  trace : list event }.
Arguments mkState {info}.
Arguments task {info} s.
Arguments search_iteration {info} s.
Arguments history_query {info} s.
Arguments history_infos {info} s.
Arguments visited_links {info} s.
Arguments query_result {info} s.
Arguments llm_calls {info} s.
Arguments draws {info} s.
Arguments contexts_opened {info} s.
Arguments trace {info} s.

Inductive flow (info : Type) : Type :=
| Next (s : state info)
| Break (s : state info)
| Raise (e : string) (s : state info)
| Stuck (s : state info).
Arguments Next {info} s.
Arguments Break {info} s.
Arguments Raise {info} e s.
Arguments Stuck {info} s.

(** the state a pass of the loop body ends in *)
Definition flow_state {info : Type} (f : flow info) : state info :=
match f with
| Next s | Break s | Raise _ s | Stuck s => s
end.

Inductive loop_exit (info : Type) : Type :=
| CapReached (s : state info)
| Broke (s : state info)
| Raised (e : string) (s : state info)
| OutOfFuel (s : state info).
Arguments CapReached {info} s.
Arguments Broke {info} s.
Arguments Raised {info} e s.
Arguments OutOfFuel {info} s.

Definition is_next {info : Type} (f : flow info) : bool :=
match f with Next _ => true | _ => false end.

Definition is_stuck {info : Type} (f : flow info) : bool :=
match f with Stuck _ => true | _ => false end.

(** the state the loop ends in *)
Definition exit_state {info : Type} (e : loop_exit info) : state info :=
match e with
| CapReached s | Broke s | Raised _ s | OutOfFuel s => s
end.

Definition out_of_fuel {info : Type} (e : loop_exit info) : bool :=
match e with OutOfFuel _ => true | _ => false end.

Record outcome (info : Type) := mkOutcome {
  (** [None]: the model ran out of fuel *)
  returned : option (string * option string);
  final_state : state info }.
Arguments mkOutcome {info}.
Arguments returned {info} o.
Arguments final_state {info} o.

Section Run.
Context {info : Type}.
Variable W : world info.
Variable opts : options.

Definition emit (evs : list event) (s : state info) : state info :=
  mkState (task s) (search_iteration s) (history_query s)
          (history_infos s) (visited_links s) (query_result s)
          (llm_calls s) (draws s) (contexts_opened s) (trace s ++ evs)%list.

(** [await retry_for_rate_limit_per_minute(llm.invoke, messages)] *)
Definition invoke (s : state info)
  : Retry.result (option string) * state info :=
  let r := Retry.retry_for_rate_limit_per_minute
             (fun k => llm_invoke W (llm_calls s + k))
             (fun k => uniform W (draws s + k))
             Retry.defaults in
  (Retry.final r,
   mkState (task s) (search_iteration s) (history_query s)
           (history_infos s) (visited_links s) (query_result s)
           (llm_calls s + Retry.calls r)
           (draws s + List.length (Retry.sleeps r))
           (contexts_opened s)
           (trace s ++ List.map EvSleep (Retry.sleeps r))%list).

Definition query_prompt (s : state info) : string :=
  "This is search " ++ str_of_Z (search_iteration s) ++ " of "
  ++ str_of_Z (max_search_iterations opts)
  ++ " maximum searches allowed." ++ nl
  ++ "User Instruction:" ++ task s ++ " " ++ nl
  ++ " Previous Queries:" ++ nl ++ " "
  ++ Json.dumps_list (history_query s) ++ " " ++ nl
  ++ "Previous Search Results:" ++ nl ++ " "
  ++ dumps_infos W (history_infos s) ++ nl.

(** [f"{query_result}"] *)
Definition fmt_result (r : option string) : string :=
  match r with Some t => t | None => "None" end.

Definition record_prompt (s : state info) (qr : option string) : string :=
  "User Instruction:" ++ task s ++ ". " ++ nl
  ++ "Previous Recorded Information:" ++ nl ++ " "
  ++ Json.dumps_str (dumps_infos W (history_infos s)) ++ " " ++ nl
  ++ "Current Search Results: " ++ fmt_result qr ++ nl.

Definition report_prompt (s : state info) : string :=
  "User Instruction:" ++ task s ++ " " ++ nl
  ++ " Search Information:" ++ nl ++ " "
  ++ dumps_infos W (history_infos s).

(** [parsed.scheme and parsed.netloc] for [parsed = urlparse(task)];
    [false] too when [urlparse] raises *)
Definition url_shaped (task : string) : bool :=
  match UrlParse.urlparse (check_bracketed_host W) task with
  | Some parsed =>
      Str.nonempty (UrlParse.scheme parsed)
      && Str.nonempty (UrlParse.netloc parsed)
  | None => false
  end.

Definition normalize_url (url : string) : string :=
  UrlParse.normalize_url (check_bracketed_host W) url.

(** the body of [for task in query_tasks] in the filter; the pair is
    [(filtered_query_tasks, visited_links)] *)
Definition filter_step (acc : list string * gset string) (task : string)
  : list string * gset string :=
  let '(filtered, visited) := acc in
  if url_shaped task then
    let norm := normalize_url task in
    if bool_decide (norm ∈ visited) then (filtered, visited)
    else ((filtered ++ [task])%list, {[norm]} ∪ visited)
  else ((filtered ++ [task])%list, visited).

Definition filter_queries (query_tasks : list string)
                          (visited : gset string)
  : list string * gset string :=
  fold_left filter_step query_tasks ([], visited).

(** the queries with their positions, [enumerate(...)] *)
Definition enumerate {A : Type} (l : list A) : list (nat * A) :=
  combine (seq 0 (List.length l)) l.

Definition raised (r : agent_outcome) : option string :=
  match r with AgentRaises e => Some e | _ => None end.

(** the first exception among the gathered agents *)
Fixpoint first_raise (rs : list agent_outcome) : option string :=
  match rs with
  | [] => None
  | r :: rest =>
      match raised r with
      | Some e => Some e
      | None => first_raise rest
      end
  end.

(** the body of the loop that saves each query's result *)
Definition save_step (it : Z)
           (acc : option (option string) * list event)
           (item : nat * (string * agent_outcome))
  : option (option string) * list event :=
  let '(qr, evs) := acc in
  let '(i, (query, r)) := item in
  match r with
  | AgentHistory final =>
      let path :=
        path_join (path_join (save_dir opts) "query_results")
                  (str_of_Z it ++ "-" ++ str_of_Z (Z.of_nat i) ++ ".md") in
      let text :=
        "Query: " ++ query ++ nl
        ++ match final with
           | Some t => t
           | None => "No final result was returned for this query." ++ nl
           end in
      (Some final, (evs ++ [EvSaveQuery path text])%list)
  | _ => (qr, evs)
  end.

(** the visited links after the new records are scanned *)
Definition record_step (visited : gset string) (i : info) : gset string :=
  match info_url W i with
  | Some url =>
      if String.eqb url "unknown" then visited
      else {[normalize_url url]} ∪ visited
  | None => visited
  end.

(** [search_iteration += 1] *)
Definition bump (s : state info) : state info :=
mkState (task s) (search_iteration s + 1)%Z (history_query s)
        (history_infos s) (visited_links s) (query_result s)
        (llm_calls s) (draws s) (contexts_opened s) (trace s).

(** the head of the loop body: the counter, the planner prompt and the
    model call through the retry function *)
Definition ask_planner (s0 : state info)
  : Retry.result (option string) * state info :=
let s := bump s0 in
invoke (emit [EvPlanner (query_prompt s)] s).

(** from [history_query.extend(query_tasks)] to the loop that saves the
    results: the contexts, the filter, the agents, their gathering, the
    closing of the contexts and the files *)
Definition dispatch (s : state info) (query_tasks : list string)
  : flow info :=
let contexts := seq (contexts_opened s) (List.length query_tasks) in
let '(filtered, visited) := filter_queries query_tasks (visited_links s) in
let s :=
  mkState (List.last query_tasks (task s)) (search_iteration s)
          (history_query s ++ query_tasks)%list (history_infos s)
          visited (query_result s) (llm_calls s) (draws s)
          (contexts_opened s + List.length query_tasks)
          (trace s ++ List.map EvOpen contexts)%list in
match filtered with
| [] => Break s
| _ =>
    let s :=
      emit (List.map (fun '(c, q) => EvAgent c q)
                     (combine contexts filtered)) s in
    let results :=
      List.map (fun '(i, q) => agent_run W (search_iteration s) i q)
               (enumerate filtered) in
    match first_raise results with
    | Some e => Raise e s
    | None =>
        let s := emit (List.map EvClose contexts) s in
        let '(qr, saved) :=
          fold_left (save_step (search_iteration s))
                    (enumerate (combine filtered results))
                    (query_result s, []) in
        Next (mkState (task s) (search_iteration s)
                      (history_query s) (history_infos s)
                      (visited_links s) qr (llm_calls s) (draws s)
                      (contexts_opened s) (trace s ++ saved)%list)
    end
end.

(** the tail of the loop body: the record prompt, the model call and
    the new records *)
Definition record (s : state info) : flow info :=
match query_result s with
| None => Raise "UnboundLocalError" s
| Some result =>
    let s := emit [EvRecorder (record_prompt s result)] s in
    let '(r, s) := invoke s in
    match r with
    | Retry.Ok None => Break s
    | Retry.Ok (Some content) =>
        match decode_record W content with
        | RecordTypeError seen =>
            Raise "TypeError"
                  (mkState (task s) (search_iteration s) (history_query s)
                           (history_infos s)
                           (fold_left record_step seen (visited_links s))
                           (query_result s) (llm_calls s) (draws s)
                           (contexts_opened s) (trace s))
        | decoded =>
            let new_record_infos :=
              match decoded with
              | Records l => l
              | _ => []
              end in
            Next (mkState (task s) (search_iteration s) (history_query s)
                          (history_infos s ++ new_record_infos)%list
                          (fold_left record_step new_record_infos
                                     (visited_links s))
                          (query_result s) (llm_calls s) (draws s)
                          (contexts_opened s) (trace s))
        end
    | Retry.ResourceExhausted => Raise "ResourceExhausted" s
    | Retry.OtherError e => Raise e s
    | Retry.OutOfFuel => Stuck s
    end
end.

(** one pass through the body of the [while] loop *)
Definition iteration (s0 : state info) : flow info :=
let '(r, s) := ask_planner s0 in
match r with
| Retry.Ok None => Break s
| Retry.Ok (Some content) =>
    match decode_plan W content with
    | PlanDecodeError => Break s
    | PlanKeyError => Raise "KeyError" s
    | Plan _ [] => Break s
    | Plan _ query_tasks =>
        match dispatch s query_tasks with
        | Next s => record s
        | other => other
        end
    end
| Retry.ResourceExhausted => Raise "ResourceExhausted" s
| Retry.OtherError e => Raise e s
| Retry.OutOfFuel => Stuck s
end.

(** [while search_iteration < max_search_iterations]; [fuel] bounds
    the number of passes. *)
Fixpoint search_loop (fuel : nat) (s : state info) : loop_exit info :=
  if (search_iteration s <? max_search_iterations opts)%Z then
    match fuel with
    | O => OutOfFuel s
    | S fuel' =>
        match iteration s with
        | Next s' => search_loop fuel' s'
        | Break s' => Broke s'
        | Raise e s' => Raised e s'
        | Stuck s' => OutOfFuel s'
        end
    end
  else CapReached s.

(** the report generation that follows the loop inside the [try]:
    [record_infos.json] is written first, and a record that the file's
    encoding refuses raises [UnicodeEncodeError] there, before the
    report prompt (the file is then left partly written, and no
    [EvSaveRecords] stands for it) *)
Definition report (s : state info) : flow info * (string * option string) :=
  if forallb (encodable W) (history_infos s) then
    let s :=
      emit [EvSaveRecords (path_join (save_dir opts) "record_infos.json")] s in
    let s := emit [EvReport (report_prompt s)] s in
    let '(r, s) := invoke s in
    match r with
    | Retry.Ok None => (Next s, (EmptyString, None))
    | Retry.Ok (Some report_content) =>
        let report_file_path := path_join (save_dir opts) "final_report.md" in
        (Next (emit [EvSaveReport report_file_path report_content] s),
         (report_content, Some report_file_path))
    | Retry.ResourceExhausted =>
        (Raise "ResourceExhausted" s, (EmptyString, None))
    | Retry.OtherError e => (Raise e s, (EmptyString, None))
    | Retry.OutOfFuel => (Stuck s, (EmptyString, None))
    end
  else (Raise "UnicodeEncodeError" s, (EmptyString, None)).

Definition initial (task : string) : state info :=
  mkState task 0 [] [] ∅ None 0 0 0 [].

(** [deep_research(task, llm, **kwargs)] from the [try] on: the loop,
    the report, the [except Exception] handler that returns [("",
    None)], and the [finally] that closes the browser. *)
Definition deep_research (task : string) : outcome info :=
  let fuel := Z.to_nat (max_search_iterations opts) in
  let '(ret, s) :=
    match search_loop fuel (initial task) with
    | CapReached s | Broke s =>
        match report s with
        | (Next s', res) => (Some res, s')
        | (Break s', _) | (Raise _ s', _) => (Some (EmptyString, None), s')
        | (Stuck s', _) => (None, s')
        end
    | Raised _ s => (Some (EmptyString, None), s)
    | OutOfFuel s => (None, s)
    end in
  mkOutcome ret (emit [EvBrowserClose] s).

(** [n] passes of the loop body that all reach their end *)
Fixpoint passes (n : nat) (s : state info) : option (state info) :=
match n with
| O => Some s
| S n' =>
    match iteration s with
    | Next s' => passes n' s'
    | _ => None
    end
end.

End Run.

End Research.

(** ** Scripted runs

    A run is scripted by the list of what the successive calls of
    [llm.invoke] do.  The answers of the model are named; [decode_plan]
    gives the parsed JSON of each named planner answer, every recorder
    answer parses to an empty list of records, and the agent of a query
    returns the text ["result of "] followed by the query. *)

Module Scenario.
Import Research.

Definition scripted (l : list (Retry.outcome (option string))) (k : nat)
  : Retry.outcome (option string) :=
nth k l (Retry.RaisesOther "end of script").

Definition decode_plan (content : string) : plan_json :=
if String.eqb content "plan-alpha-beta" then Plan "p" ["alpha"; "beta"]
else if String.eqb content "plan-url" then Plan "p" ["http://a.com/x"]
else if String.eqb content "plan-same-url"
     then Plan "p" ["http://a.com/x/"; "http://a.com/x?y=1"]
else if String.eqb content "plan-empty" then Plan "p" []
else PlanDecodeError.

Definition world (l : list (Retry.outcome (option string))) : world string :=
mkWorld string (scripted l) (fun _ => Float.zero) decode_plan
        (fun _ => Records []) (fun i => Some i) Json.dumps_list
        (fun _ => true)
        (fun _ _ q => AgentHistory (Some ("result of " ++ q)))
        UrlParse.any_host.

Definition opts : options := mkOptions 10 "out".

Definition answers (l : list string) : list (Retry.outcome (option string)) :=
List.map (fun c => Retry.Returns (Some c)) l.

(** two plain queries, then an empty plan *)
Definition two_queries : Research.world string :=
world (answers ["plan-alpha-beta"; "records"; "plan-empty"; "REPORT"]).

(** a URL, then two spellings of the same URL *)
Definition same_url_again : Research.world string :=
world (answers ["plan-url"; "records"; "plan-same-url"; "REPORT"]).

(** the first call of the model fails with an error that is no quota
    error *)
Definition planner_fails : Research.world string :=
world [Retry.RaisesOther "ConnectionError"].

Definition task : string := "Survey the field".

End Scenario.

(** scripted runs for the cases below *)
Module Cases.
Import Research.


(** every call of the model fails on quota *)
Definition quota_only : world string :=
Scenario.world [Retry.RaisesResourceExhausted; Retry.RaisesResourceExhausted;
                Retry.RaisesResourceExhausted; Retry.RaisesResourceExhausted;
                Retry.RaisesResourceExhausted].

(** the recorder names a page, a source without a URL, and the page of
    the first query again *)
Definition with_records : world string :=
mkWorld string
        (Scenario.scripted
           (Scenario.answers ["plan-url"; "records"; "plan-same-url"; "REPORT"]))
        (fun _ => Float.zero) Scenario.decode_plan
        (fun _ => Records ["http://b.org/page/?ref=1"; "unknown"])
        (fun i => Some i) Json.dumps_list
        (fun _ => true)
        (fun _ _ q => AgentHistory (Some ("result of " ++ q)))
        UrlParse.any_host.

(** the planner's call of the second pass fails on quota once and is
    retried; the retry returns a plan with no query *)
Definition quota_before_empty_plan : world string :=
Scenario.world [Retry.Returns (Some "plan-alpha-beta");
                Retry.Returns (Some "records");
                Retry.RaisesResourceExhausted;
                Retry.Returns (Some "plan-empty");
                Retry.Returns (Some "REPORT")].

(** the recorder's answer holds the escape of a lone surrogate, which
    [json.loads] turns into a string that UTF-8 cannot encode; the
    record is written here by that escape *)
Definition lone_surrogate : world string :=
mkWorld string
        (Scenario.scripted
           (Scenario.answers ["plan-url"; "records"; "plan-empty"; "REPORT"]))
        (fun _ => Float.zero) Scenario.decode_plan
        (fun _ => Records ["http://b.org/page/"; "\ud800"])
        (fun i => Some i) Json.dumps_list
        (fun i => negb (String.eqb i "\ud800"))
        (fun _ _ q => AgentHistory (Some ("result of " ++ q)))
        UrlParse.any_host.

(** the recorder's answer parses to a list whose second element is a
    number: [["url" in info]] raises [TypeError] on it, after the first
    record was handled *)
Definition number_among_records : world string :=
mkWorld string
        (Scenario.scripted
           (Scenario.answers ["plan-url"; "records"; "plan-empty"; "REPORT"]))
        (fun _ => Float.zero) Scenario.decode_plan
        (fun _ => RecordTypeError ["http://b.org/page/"])
        (fun i => Some i) Json.dumps_list
        (fun _ => true)
        (fun _ _ q => AgentHistory (Some ("result of " ++ q)))
        UrlParse.any_host.

End Cases.

(** * The controller's actions ([src/controller/custom_controller.py]) *)

Module Controller.

(** [ActionResult(extracted_content=..., error=...)] *)
Record ActionResult := mkResult {
  extracted_content : option string;
  error : option string }.

Definition done (msg : string) : ActionResult := mkResult (Some msg) None.
Definition failed (msg : string) : ActionResult := mkResult None (Some msg).

(** [CustomController.is_linkedin_application_page] *)
Definition is_linkedin_application_page (url : string) : bool :=
  Str.occurs "linkedin.com/jobs/collections/recommended/" url
  || Str.occurs "linkedin.com/jobs/view/" url.

(** ** The click actions that try a list of selectors *)

(** what the page does with a selector: [locate] is
    [page.locator(f'css={sel}').element_handle(timeout=...)], [None]
    when it raises and [Some false] when it returns a false value;
    [scroll] is the [page.evaluate] that scrolls the element into view
    and [click] is [btn.click()], [false] when they raise. *)
Record page := mkPage {
  locate : string -> option bool;
  scroll : string -> bool;
  click : string -> bool }.

Inductive event : Type :=
| EvLocate (selector : string) (timeout : nat)
| EvScroll (selector : string)
| EvSleep
| EvClick (selector : string).

Record outcome := mkOutcome {
  result : ActionResult;
  clicked : option string;
  events : list event }.

Definition after (evs : list event) (o : outcome) : outcome :=
  mkOutcome (result o) (clicked o) (evs ++ events o)%list.

(** the [for sel in selectors] loop with its [try]/[except Exception];
    [scrolls] tells whether the body scrolls and sleeps before the
    click. *)
Fixpoint click_first (pg : page) (timeout : nat) (scrolls : bool)
                     (ok_msg err_msg : string) (selectors : list string)
  : outcome :=
  match selectors with
  | [] => mkOutcome (failed err_msg) None []
  | sel :: rest =>
      let next := click_first pg timeout scrolls ok_msg err_msg rest in
      match locate pg sel with
      | Some true =>
          if scrolls && negb (scroll pg sel)
          then after [EvLocate sel timeout; EvScroll sel] next
          else
            let before :=
              if scrolls then [EvLocate sel timeout; EvScroll sel; EvSleep]
              else [EvLocate sel timeout] in
            if click pg sel
            then mkOutcome (done ok_msg) (Some sel)
                           (before ++ [EvClick sel])%list
            else after (before ++ [EvClick sel])%list next
      | _ => after [EvLocate sel timeout] next
      end
  end.

Definition q : string := String Json.dquote EmptyString.

(** the selector that the three LinkedIn actions fall back to *)
Definition primary_button : string := "button.artdeco-button--primary".

(** the four selectors of a LinkedIn button with the given
    [aria-label] and text *)
Definition selectors_for (label text : string) : list string :=
  ["button[aria-label=" ++ q ++ label ++ q ++ "].artdeco-button--primary";
   "button[aria-label=" ++ q ++ label ++ q ++ "]";
   "button.artdeco-button--primary span:contains(" ++ q ++ text ++ q ++ ")";
   primary_button].

Definition next_selectors : list string :=
  selectors_for "Continue to next step" "Next".

Definition review_selectors : list string :=
  selectors_for "Review your application" "Review".

Definition submit_selectors : list string :=
  selectors_for "Submit application" "Submit application".

Definition click_linkedin_next_button (pg : page) : outcome :=
  click_first pg 2000 true "Clicked Next" "Could not click Next button."
              next_selectors.

Definition click_linkedin_review_button (pg : page) : outcome :=
  click_first pg 5000 true "Clicked Review" "Could not click Review button."
              review_selectors.

Definition click_linkedin_submit_button (pg : page) : outcome :=
  click_first pg 5000 true "Clicked Submit" "Could not click Submit button."
              submit_selectors.

Definition click_generic_save_button (pg : page) : outcome :=
  click_first pg 2000 false "Clicked generic save button."
              "Could not click generic save button."
              [".jobs-save-button.artdeco-button--3"; ".jobs-save-button"].

(** the selectors a run looked for, in order *)
Definition located (evs : list event) : list string :=
  omap (fun e => match e with EvLocate s _ => Some s | _ => None end) evs.

(** the clicks a run attempted, in order *)
Definition clicks (evs : list event) : list string :=
  omap (fun e => match e with EvClick s => Some s | _ => None end) evs.

(** a selector whose element is found, scrolled to when the action
    scrolls, and clicked without an exception *)
Definition works (pg : page) (scrolls : bool) (sel : string) : bool :=
  match locate pg sel with
  | Some true => (negb scrolls || scroll pg sel) && click pg sel
  | _ => false
  end.

(** ** The selector that verifies a dismissal *)

(** [s.replace(old, new)] for a non-empty [old]: the occurrences are
    replaced from the left and do not overlap; [skip] counts the
    characters of a matched occurrence still to be passed over. *)
Fixpoint replace_from (old new : string) (skip : nat) (s : string) : string :=
  match s with
  | EmptyString => EmptyString
  | String c t =>
      match skip with
      | S k => replace_from old new k t
      | O =>
          if String.prefix old s
          then new ++ replace_from old new (String.length old - 1) t
          else String c (replace_from old new 0 t)
      end
  end.

Definition replace (old new s : string) : string := replace_from old new 0 s.

(** [f'button[aria-label="Dismiss {job_name} job"]'] *)
Definition dismiss_selector (job_name : string) : string :=
  "button[aria-label=" ++ q ++ "Dismiss " ++ job_name ++ " job" ++ q ++ "]".

(** [selector.replace("Dismiss", f"{job_name} job is dismissed, undo")] *)
Definition updated_selector (job_name : string) : string :=
  replace "Dismiss" (job_name ++ " job is dismissed, undo")
          (dismiss_selector job_name).

End Controller.

(** * The cookies that [deep_research] injects *)

Module Cookies.

(** [str.upper] on one character, on ASCII text *)
Definition upper_char (c : ascii) : ascii :=
  if UrlParse.is_lower c then ascii_of_nat (UrlParse.code c - 32) else c.

(** [s.capitalize()], on ASCII text: the first character in upper case,
    the others in lower case *)
Definition capitalize (s : string) : string :=
  match s with
  | EmptyString => EmptyString
  | String c t => String (upper_char c) (UrlParse.lower t)
  end.

(** a cookie as [rookiepy] returns it *)
Record rookie := mkRookie {
  name : string;
  value : string;
  domain : string;
  path : string;
  expires : option Z;
  httponly : bool;
  secure : bool;
  samesite : option string }.

(** a cookie in the format of Playwright *)
Record injected := mkInjected {
  i_name : string;
  i_value : string;
  i_domain : string;
  i_path : string;
  i_expires : option Z;
  i_httpOnly : bool;
  i_secure : bool;
  i_sameSite : string }.

(** one element of the list comprehension *)
Definition convert (c : rookie) : injected :=
  mkInjected (name c) (value c) (domain c) (path c)
    (match expires c with
     | Some e => if (e =? -1)%Z then None else Some e
     | None => None
     end)
    (httponly c) (secure c)
    (match samesite c with
     | Some s => if Str.nonempty s then capitalize s else "Lax"
     | None => "Lax"
     end).

(** [cookies_to_inject]; [loaded] is what [rookiepy.chrome([])]
    returns, [None] when it raises. *)
Definition cookies_to_inject (use_own_cookies : bool)
                             (loaded : option (list rookie))
  : list injected :=
  if use_own_cookies then
    match loaded with
    | Some cookies => List.map convert cookies
    | None => []
    end
  else [].

(** [if cookies_to_inject: await context.context.add_cookies(...)] *)
Definition adds_cookies (l : list injected) : bool :=
  match l with [] => false | _ => true end.

End Cookies.

(** ** Facts about the string operations *)

Module StrFacts.
Import Str.

Lemma eqb_ascii_eq a c : eqb_ascii a c = true <-> a = c.
Proof. unfold eqb_ascii. apply Ascii.eqb_eq. Qed.

Lemma eqb_ascii_refl a : eqb_ascii a a = true.
Proof. apply eqb_ascii_eq. reflexivity. Qed.

Lemma app_nil_r s : s ++ "" = s.
Proof. induction s as [|a t IH]; simpl; [reflexivity | now rewrite IH]. Qed.

Lemma app_assoc s t u : (s ++ t) ++ u = s ++ t ++ u.
Proof. induction s as [|a s IH]; simpl; [reflexivity | now rewrite IH]. Qed.

Lemma length_app s t :
  String.length (s ++ t) = (String.length s + String.length t)%nat.
Proof. induction s as [|a s IH]; simpl; [reflexivity | now rewrite IH]. Qed.

Lemma nonempty_false s : nonempty s = false <-> s = "".
Proof. destruct s; simpl; split; congruence. Qed.

Lemma nonempty_length s : nonempty s = true <-> (0 < String.length s)%nat.
Proof. destruct s; simpl; split; (congruence || lia). Qed.

Lemma nonempty_app_r s t : nonempty t = true -> nonempty (s ++ t) = true.
Proof. destruct s; simpl; auto. Qed.

(** *** [forallb] *)

Lemma forallb_app p s t : forallb p (s ++ t) = forallb p s && forallb p t.
Proof.
  induction s as [|a s IH]; simpl; [reflexivity|].
  rewrite IH. now rewrite andb_assoc.
Qed.

Lemma forallb_before p c s : forallb p s = true -> forallb p (before c s) = true.
Proof.
  induction s as [|a s IH]; simpl; [reflexivity|].
  intros [Ha Hs]%andb_prop. destruct (eqb_ascii a c); simpl; [reflexivity|].
  now rewrite Ha, IH.
Qed.

Lemma forallb_after p c s : forallb p s = true -> forallb p (after c s) = true.
Proof.
  induction s as [|a s IH]; simpl; [reflexivity|].
  intros [Ha Hs]%andb_prop. destruct (eqb_ascii a c); auto.
Qed.

Lemma forallb_filter p q s : forallb q s = true -> forallb q (filter p s) = true.
Proof.
  induction s as [|a s IH]; simpl; [reflexivity|].
  intros [Ha Hs]%andb_prop. destruct (p a); simpl; auto.
  now rewrite Ha, IH.
Qed.

Lemma forallb_filter_self p s : forallb p (filter p s) = true.
Proof.
  induction s as [|a s IH]; simpl; [reflexivity|].
  destruct (p a) eqn:E; simpl; [now rewrite E | assumption].
Qed.

Lemma filter_id p s : forallb p s = true -> filter p s = s.
Proof.
  induction s as [|a s IH]; simpl; [reflexivity|].
  intros [Ha Hs]%andb_prop. rewrite Ha. now rewrite IH.
Qed.

Lemma forallb_lstrip p q s : forallb q s = true -> forallb q (lstrip p s) = true.
Proof.
  induction s as [|a s IH]; simpl; [reflexivity|].
  intros H. destruct (p a); [|exact H].
  apply andb_prop in H as [_ Hs]. auto.
Qed.

Lemma forallb_map_ext p q f s :
  (forall a, p a = true -> q (f a) = true) ->
  forallb p s = true -> forallb q (map f s) = true.
Proof.
  intros Hf. induction s as [|a s IH]; simpl; [reflexivity|].
  intros [Ha Hs]%andb_prop. now rewrite (Hf _ Ha), IH.
Qed.

Lemma forallb_impl p q s :
  (forall a, p a = true -> q a = true) ->
  forallb p s = true -> forallb q s = true.
Proof.
  intros Hf. induction s as [|a s IH]; simpl; [reflexivity|].
  intros [Ha Hs]%andb_prop. now rewrite (Hf _ Ha), IH.
Qed.

Lemma map_id_on p f s :
  (forall a, p a = true -> f a = a) -> forallb p s = true -> map f s = s.
Proof.
  intros Hf. induction s as [|a s IH]; simpl; [reflexivity|].
  intros [Ha Hs]%andb_prop. now rewrite (Hf _ Ha), IH.
Qed.

Lemma forallb_drop_last p s : forallb p s = true -> forallb p (drop_last s) = true.
Proof.
  induction s as [|a s IH]; [reflexivity|].
  intros H. change (forallb p (String a s)) with (p a && forallb p s) in H.
  apply andb_prop in H as [Ha Hs].
  destruct s as [|b s]; [reflexivity|].
  change (drop_last (String a (String b s)))
    with (String a (drop_last (String b s))).
  change (p a && forallb p (drop_last (String b s)) = true).
  now rewrite Ha, IH.
Qed.

(** *** occurrence of a character *)

Definition isnot (c : ascii) (a : ascii) : bool := negb (eqb_ascii a c).

Lemma contains_forallb c s : contains c s = negb (forallb (isnot c) s).
Proof.
  induction s as [|a s IH]; simpl; [reflexivity|].
  unfold isnot at 1. destruct (eqb_ascii a c); simpl; [reflexivity | exact IH].
Qed.

Lemma contains_false c s : contains c s = false <-> forallb (isnot c) s = true.
Proof.
  rewrite contains_forallb. destruct (forallb (isnot c) s); simpl; split; congruence.
Qed.

Lemma contains_app c s t : contains c (s ++ t) = contains c s || contains c t.
Proof.
  induction s as [|a s IH]; simpl; [reflexivity|].
  destruct (eqb_ascii a c); simpl; auto.
Qed.

Lemma contains_before c s : contains c (before c s) = false.
Proof.
  induction s as [|a s IH]; simpl; [reflexivity|].
  destruct (eqb_ascii a c) eqn:E; simpl; [reflexivity | now rewrite E].
Qed.

Lemma before_id c s : contains c s = false -> before c s = s.
Proof.
  induction s as [|a s IH]; simpl; [reflexivity|].
  destruct (eqb_ascii a c); [discriminate|]. intros H. now rewrite IH.
Qed.

Lemma after_absent c s : contains c s = false -> after c s = "".
Proof.
  induction s as [|a s IH]; simpl; [reflexivity|].
  destruct (eqb_ascii a c); [discriminate | exact IH].
Qed.

Lemma before_app c s t : contains c s = false -> before c (s ++ String c t) = s.
Proof.
  induction s as [|a s IH]; simpl.
  - now rewrite eqb_ascii_refl.
  - destruct (eqb_ascii a c); [discriminate|]. intros H. now rewrite IH.
Qed.

Lemma after_app c s t : contains c s = false -> after c (s ++ String c t) = t.
Proof.
  induction s as [|a s IH]; simpl.
  - now rewrite eqb_ascii_refl.
  - destruct (eqb_ascii a c); [discriminate | exact IH].
Qed.

Lemma before_after c s :
  contains c s = true -> s = before c s ++ String c (after c s).
Proof.
  induction s as [|a s IH]; simpl; [discriminate|].
  destruct (eqb_ascii a c) eqn:E.
  - apply eqb_ascii_eq in E. now subst.
  - intros H. simpl. now rewrite <- IH.
Qed.

(** the two branches of [if c in s: a, b = s.split(c, 1)] coincide
    with [before] and [after] *)
Lemma cut_eq c s :
  (if contains c s then (before c s, after c s) else (s, "")) =
  (before c s, after c s).
Proof.
  destruct (contains c s) eqn:E; [reflexivity|].
  now rewrite before_id, after_absent.
Qed.

Lemma length_before c s : (String.length (before c s) <= String.length s)%nat.
Proof.
  induction s as [|a s IH]; simpl; [lia|].
  destruct (eqb_ascii a c); simpl; lia.
Qed.

Lemma length_before_lt c s :
  contains c s = true -> (String.length (before c s) < String.length s)%nat.
Proof.
  induction s as [|a s IH]; simpl; [discriminate|].
  destruct (eqb_ascii a c); simpl; [lia|]. intros H. apply IH in H. lia.
Qed.

(** *** [span_until] *)

Definition starts_in (p : ascii -> bool) (s : string) : bool :=
  match s with String a _ => p a | EmptyString => true end.

Lemma span_until_spec p s h r :
  span_until p s = (h, r) ->
  s = h ++ r /\ forallb (fun a => negb (p a)) h = true /\ starts_in p r = true.
Proof.
  revert h r. induction s as [|a s IH]; simpl; intros h r.
  - intros [= <- <-]. auto.
  - destruct (p a) eqn:E.
    + intros [= <- <-]. simpl. auto.
    + destruct (span_until p s) as [h' r']. intros [= <- <-].
      destruct (IH _ _ eq_refl) as (-> & Hh & Hr). simpl. rewrite E. auto.
Qed.

Lemma span_until_app p h r :
  forallb (fun a => negb (p a)) h = true -> starts_in p r = true ->
  span_until p (h ++ r) = (h, r).
Proof.
  induction h as [|a h IH]; simpl.
  - intros _. destruct r as [|b r]; simpl; [reflexivity|]. now intros ->.
  - intros [Ha Hh]%andb_prop Hr. apply negb_true_iff in Ha. rewrite Ha.
    now rewrite IH.
Qed.

Lemma forallb_span_until q p s h r :
  span_until p s = (h, r) -> forallb q s = true ->
  forallb q h = true /\ forallb q r = true.
Proof.
  intros H Hq. apply span_until_spec in H as (-> & _ & _).
  rewrite forallb_app in Hq. now apply andb_prop in Hq.
Qed.

(** *** [rsplit] *)

Lemma rsplit_none c s : rsplit c s = None <-> contains c s = false.
Proof.
  induction s as [|a s IH]; simpl; [tauto|].
  destruct (rsplit c s) as [[h l]|].
  - destruct (eqb_ascii a c); split; try discriminate.
    intros H. apply IH in H. discriminate.
  - destruct (eqb_ascii a c); split; try discriminate; tauto.
Qed.

Lemma rsplit_spec c s h l :
  rsplit c s = Some (h, l) ->
  s = h ++ l /\ exists t, l = String c t /\ contains c t = false.
Proof.
  revert h l. induction s as [|a s IH]; simpl; intros h l; [discriminate|].
  destruct (rsplit c s) as [[h' l']|] eqn:E.
  - intros [= <- <-]. destruct (IH _ _ eq_refl) as (-> & t & -> & Ht).
    split; [reflexivity | eauto].
  - destruct (eqb_ascii a c) eqn:Ea; [|discriminate].
    intros [= <- <-]. apply eqb_ascii_eq in Ea. subst a.
    split; [reflexivity|]. exists s. split; [reflexivity|].
    now apply rsplit_none.
Qed.

Lemma rsplit_app c h t :
  contains c t = false -> rsplit c (h ++ String c t) = Some (h, String c t).
Proof.
  intros Ht. induction h as [|a h IH]; simpl.
  - apply rsplit_none in Ht. rewrite Ht. now rewrite eqb_ascii_refl.
  - now rewrite IH.
Qed.

(** *** the last character *)

Lemma endswith_app c s t : nonempty t = true -> endswith c (s ++ t) = endswith c t.
Proof.
  intros Ht. induction s as [|a s IH]; [reflexivity|].
  change (String a s ++ t) with (String a (s ++ t)).
  destruct (s ++ t) eqn:E.
  - destruct s; [simpl in E; subst t|]; discriminate.
  - exact IH.
Qed.

Lemma drop_last_app s t : nonempty t = true -> drop_last (s ++ t) = s ++ drop_last t.
Proof.
  intros Ht. induction s as [|a s IH]; [reflexivity|].
  change (String a s ++ t) with (String a (s ++ t)).
  destruct (s ++ t) eqn:E.
  - destruct s; [simpl in E; subst t|]; discriminate.
  - change (String a (drop_last (String a0 s0)) = String a s ++ drop_last t).
    now rewrite IH.
Qed.

Lemma endswith_forallb p c s :
  forallb p s = true -> p c = false -> endswith c s = false.
Proof.
  intros Hs Hc. induction s as [|a s IH]; [reflexivity|].
  change (forallb p (String a s)) with (p a && forallb p s) in Hs.
  apply andb_prop in Hs as [Ha Hs].
  destruct s as [|b s].
  - simpl. destruct (eqb_ascii a c) eqn:E; [|reflexivity].
    apply eqb_ascii_eq in E. congruence.
  - exact (IH Hs).
Qed.

Lemma endswith_drop_last c s :
  endswith c s = true -> s = drop_last s ++ String c "".
Proof.
  induction s as [|a s IH]; [discriminate|].
  destruct s as [|b s].
  - simpl. intros E. apply eqb_ascii_eq in E. now subst.
  - intros H. change (String a (String b s) =
                      String a (drop_last (String b s) ++ String c "")).
    now rewrite <- IH.
Qed.

Lemma length_drop_last s :
  nonempty s = true -> S (String.length (drop_last s)) = String.length s.
Proof.
  induction s as [|a s IH]; [discriminate|]. intros _.
  destruct s as [|b s]; [reflexivity|].
  change (S (S (String.length (drop_last (String b s)))) =
          S (String.length (String b s))).
  now rewrite IH.
Qed.

Lemma starts_in_drop_last p s :
  starts_in p s = true -> starts_in p (drop_last s) = true.
Proof. destruct s as [|a [|b s]]; simpl; auto. Qed.

(** *** substrings *)

Lemma prefix_app s t : String.prefix s (s ++ t) = true.
Proof.
  induction s as [|a s IH]; simpl; [now destruct t|].
  destruct (ascii_dec a a); [exact IH | congruence].
Qed.

Lemma occurs_here n x : String.prefix n x = true -> occurs n x = true.
Proof. intros H. destruct x; cbn [occurs]; rewrite H; reflexivity. Qed.

Lemma occurs_app a n b : occurs n (a ++ n ++ b) = true.
Proof.
  induction a as [|c a IH].
  - change (EmptyString ++ n ++ b) with (n ++ b).
    apply occurs_here, prefix_app.
  - change (String c a ++ n ++ b) with (String c (a ++ n ++ b)).
    cbn [occurs]. rewrite IH. apply orb_true_r.
Qed.

(** a substring of a part is a substring of the whole *)
Lemma occurs_inside n a p q b :
  occurs n (a ++ (p ++ n ++ q) ++ b) = true.
Proof.
  replace (a ++ (p ++ n ++ q) ++ b) with ((a ++ p) ++ n ++ (q ++ b))
    by (now rewrite !app_assoc).
  apply occurs_app.
Qed.

End StrFacts.

(** ** Facts about [urlsplit], [urlparse] and [normalize_url] *)

Module UrlFacts.
Import Str StrFacts UrlParse.

Ltac each_char c :=
  destruct c as [[] [] [] [] [] [] [] []]; vm_compute;
  intros; repeat split; congruence.

Definition safe (c : ascii) : bool := negb (unsafe_url_byte c).
Definition no_delim (c : ascii) : bool := negb (netloc_delim c).
Definition not_upper (c : ascii) : bool := negb (is_upper c).
Definition is_slash (c : ascii) : bool := eqb_ascii c "/".

Lemma scheme_char_colon c : scheme_char c = true -> isnot ":" c = true.
Proof. each_char c. Qed.

Lemma scheme_char_safe c : scheme_char c = true -> safe c = true.
Proof. each_char c. Qed.

Lemma scheme_char_lower c : scheme_char c = true -> scheme_char (lower_char c) = true.
Proof. each_char c. Qed.

Lemma scheme_char_not_upper c : scheme_char c = true -> not_upper (lower_char c) = true.
Proof. each_char c. Qed.

Lemma alpha_lower c : is_ascii_alpha c = true -> is_ascii_alpha (lower_char c) = true.
Proof. each_char c. Qed.

Lemma alpha_not_space c : is_ascii_alpha c = true -> c0_control_or_space c = false.
Proof. each_char c. Qed.

Lemma lower_char_id c : not_upper c = true -> lower_char c = c.
Proof. each_char c. Qed.

Lemma scheme_char_plain c :
  scheme_char c = true -> isnot "?" c = true /\ isnot "#" c = true /\ isnot "/" c = true.
Proof. each_char c. Qed.

Lemma no_delim_plain c :
  no_delim c = true -> isnot "?" c = true /\ isnot "#" c = true /\ isnot "/" c = true.
Proof. each_char c. Qed.

Lemma delim_cases c :
  netloc_delim c = true -> c = "/"%char \/ c = "?"%char \/ c = "#"%char.
Proof.
  unfold netloc_delim. intros H.
  apply orb_prop in H as [H|H]; [apply orb_prop in H as [H|H]|];
    apply eqb_ascii_eq in H; auto.
Qed.

(** what a scheme accepted by [urlsplit] looks like *)
Definition scheme_ok (sch : string) : Prop :=
  (exists c0 t, sch = String c0 t /\ is_ascii_alpha c0 = true)
  /\ forallb scheme_char sch = true
  /\ forallb not_upper sch = true.

Lemma split_scheme_rest q url sch rest :
  split_scheme url = (sch, rest) -> forallb q url = true -> forallb q rest = true.
Proof.
  unfold split_scheme. intros H Hq.
  destruct (contains ":" url); [|now inversion H; subst].
  destruct (before ":" url) as [|c0 t]; [now inversion H; subst|].
  destruct (is_ascii_alpha c0 && forallb scheme_char (String c0 t));
    inversion H; subst; auto using forallb_after.
Qed.

Lemma split_scheme_ok url sch rest :
  split_scheme url = (sch, rest) -> nonempty sch = true -> scheme_ok sch.
Proof.
  unfold split_scheme. intros H Hne.
  destruct (contains ":" url); [|inversion H; subst; discriminate].
  destruct (before ":" url) as [|c0 t] eqn:E; [inversion H; subst; discriminate|].
  destruct (is_ascii_alpha c0 && forallb scheme_char (String c0 t)) eqn:C;
    [|inversion H; subst; discriminate].
  apply andb_prop in C as [Ha Hs]. inversion H; subst. clear H.
  repeat split.
  - exists (lower_char c0), (lower t). split; [reflexivity | now apply alpha_lower].
  - apply (forallb_map_ext scheme_char); auto using scheme_char_lower.
  - apply (forallb_map_ext scheme_char); auto using scheme_char_not_upper.
Qed.

Lemma split_scheme_app sch rest :
  scheme_ok sch -> split_scheme (sch ++ String ":" rest) = (sch, rest).
Proof.
  intros ((c0 & t & E & Ha) & Hs & Hl). unfold split_scheme.
  assert (Hc : contains ":" sch = false).
  { apply contains_false. eapply forallb_impl; [|exact Hs].
    apply scheme_char_colon. }
  assert (Hc2 : contains ":" (sch ++ String ":" rest) = true).
  { rewrite contains_app. apply orb_true_iff. right. reflexivity. }
  rewrite Hc2, before_app, after_app by assumption.
  subst sch. cbv beta iota. rewrite Ha, Hs. cbv beta iota.
  change (true && true) with true. cbv iota.
  unfold lower. rewrite (map_id_on not_upper); auto using lower_char_id.
Qed.

Lemma take2_spec url : String.eqb (take 2 url) "//" = true -> url = "//" ++ drop 2 url.
Proof.
  intros H. apply String.eqb_eq in H.
  destruct url as [|a [|b t]]; simpl in *; try discriminate.
  now inversion H.
Qed.

Section WithBracketCheck.
Variable chk : string -> bool.

(** the shape of the three components that [normalize_url] keeps *)
Record parts_ok (sch nl pth : string) : Prop := {
  po_scheme : scheme_ok sch;
  po_netloc_delim : forallb no_delim nl = true;
  po_netloc_safe : forallb safe nl = true;
  po_netloc_brackets : netloc_brackets_ok chk nl = true;
  po_netloc_nonempty : nonempty nl = true;
  po_path_start : starts_in is_slash pth = true;
  po_path_hash : contains "#" pth = false;
  po_path_query : contains "?" pth = false;
  po_path_safe : forallb safe pth = true }.

Lemma starts_in_delim_before r :
  starts_in netloc_delim r = true ->
  starts_in is_slash (before "?" (before "#" r)) = true.
Proof.
  destruct r as [|a r]; [reflexivity|]. simpl. intros H.
  destruct (delim_cases _ H) as [-> | [-> | ->]]; reflexivity.
Qed.

Lemma urlsplit_parts url r :
  urlsplit chk url = Some r ->
  nonempty (s_scheme r) = true -> nonempty (s_netloc r) = true ->
  parts_ok (s_scheme r) (s_netloc r) (s_path r).
Proof.
  unfold urlsplit.
  set (u1 := filter _ (lstrip _ url)).
  assert (Hsafe : forallb safe u1 = true) by apply forallb_filter_self.
  destruct (split_scheme u1) as [sch u2] eqn:Es.
  pose proof (split_scheme_rest safe _ _ _ Es Hsafe) as Hsafe2.
  destruct (String.eqb (take 2 u2) "//") eqn:E2.
  - unfold splitnetloc.
    destruct (span_until netloc_delim (drop 2 u2)) as [nl u3] eqn:En.
    destruct (netloc_brackets_ok chk nl) eqn:Eb; [|discriminate].
    rewrite !cut_eq. intros [= <-]; simpl. intros Hsch Hnl.
    apply take2_spec in E2. rewrite E2 in Hsafe2.
    change ("//" ++ drop 2 u2) with (String "/" (String "/" (drop 2 u2))) in Hsafe2.
    simpl in Hsafe2.
    destruct (forallb_span_until safe _ _ _ _ En Hsafe2) as [Hs1 Hs2].
    destruct (span_until_spec _ _ _ _ En) as (_ & Hd & Hst).
    constructor; auto.
    + eapply split_scheme_ok; eauto.
    + now apply starts_in_delim_before.
    + apply contains_false, forallb_before, contains_false, contains_before.
    + apply contains_before.
    + auto using forallb_before.
  - rewrite !cut_eq. intros [= <-]; simpl. discriminate.
Qed.

Lemma splitparams_fst_forallb q url :
  forallb q url = true -> forallb q (fst (splitparams url)) = true.
Proof.
  unfold splitparams. intros Hq.
  destruct (rsplit "/" url) as [[h l]|] eqn:E.
  - apply rsplit_spec in E as (-> & _).
    rewrite forallb_app in Hq. apply andb_prop in Hq as [Hh Hl].
    destruct (contains ";" l); simpl.
    + rewrite forallb_app, Hh. simpl. now apply forallb_before.
    + now rewrite forallb_app, Hh, Hl.
  - simpl. now apply forallb_before.
Qed.

Lemma splitparams_fst_start url :
  starts_in is_slash url = true ->
  starts_in is_slash (fst (splitparams url)) = true.
Proof.
  unfold splitparams. intros Hs.
  destruct (rsplit "/" url) as [[h l]|] eqn:E.
  - apply rsplit_spec in E as (-> & t & -> & _).
    destruct (contains ";" (String "/" t)); simpl; [|exact Hs].
    destruct h as [|a h]; [reflexivity | exact Hs].
  - apply rsplit_none in E. destruct url as [|a url]; [reflexivity|].
    simpl in *. unfold is_slash in Hs. rewrite Hs in E. discriminate.
Qed.

(** the path that [urlparse] reports for a split path (the part of
    [urlparse] that follows [urlsplit]) *)
Definition reparsed (sch pth : string) : string * string :=
  if mem sch uses_params && contains ";" pth
  then splitparams pth else (pth, "").

Lemma urlparse_unfold url :
  urlparse chk url =
  match urlsplit chk url with
  | None => None
  | Some r =>
      Some (mkParse (s_scheme r) (s_netloc r)
                    (fst (reparsed (s_scheme r) (s_path r)))
                    (snd (reparsed (s_scheme r) (s_path r)))
                    (s_query r) (s_fragment r))
  end.
Proof.
  unfold urlparse, reparsed. destruct (urlsplit chk url) as [r|]; [|reflexivity].
  destruct (mem (s_scheme r) uses_params && contains ";" (s_path r));
    [destruct (splitparams (s_path r))|]; reflexivity.
Qed.

Lemma urlparse_parts url p :
  urlparse chk url = Some p ->
  nonempty (scheme p) = true -> nonempty (netloc p) = true ->
  parts_ok (scheme p) (netloc p) (path p).
Proof.
  rewrite urlparse_unfold.
  destruct (urlsplit chk url) as [r|] eqn:E; [|discriminate].
  intros [= <-]; simpl. intros Hs Hn.
  destruct (urlsplit_parts _ _ E Hs Hn).
  unfold reparsed.
  destruct (mem (s_scheme r) uses_params && contains ";" (s_path r));
    constructor; simpl; auto.
  - now apply splitparams_fst_start.
  - apply contains_false, splitparams_fst_forallb. now apply contains_false.
  - apply contains_false, splitparams_fst_forallb. now apply contains_false.
  - now apply splitparams_fst_forallb.
Qed.

(** *** rebuilding *)

Lemma urlunparse_parts sch nl pth :
  parts_ok sch nl pth ->
  urlunparse sch nl pth "" "" "" = sch ++ "://" ++ nl ++ pth.
Proof.
  intros [Hs _ _ _ Hn Hp _ _ _].
  destruct Hs as ((c0 & t & -> & _) & _).
  unfold urlunparse, urlunsplit. simpl nonempty. rewrite Hn. simpl orb.
  cbv iota.
  assert (E : nonempty pth && negb (startswith "/" pth) = false).
  { destruct pth as [|a pth]; [reflexivity|]. simpl in *.
    unfold is_slash in Hp. now rewrite Hp. }
  rewrite E. reflexivity.
Qed.

Lemma endswith_rebuilt sch nl pth :
  parts_ok sch nl pth ->
  endswith "/" (sch ++ "://" ++ nl ++ pth) = endswith "/" pth.
Proof.
  intros Hok. destruct Hok.
  destruct pth as [|a pth].
  - rewrite app_nil_r.
    rewrite endswith_app by (now apply nonempty_app_r).
    rewrite endswith_app by assumption.
    apply (endswith_forallb no_delim); [assumption | reflexivity].
  - rewrite endswith_app by (now apply nonempty_app_r, nonempty_app_r).
    rewrite endswith_app by (now apply nonempty_app_r).
    now rewrite endswith_app.
Qed.

Lemma drop_last_rebuilt sch nl pth :
  nonempty pth = true ->
  drop_last (sch ++ "://" ++ nl ++ pth) = sch ++ "://" ++ nl ++ drop_last pth.
Proof.
  intros Hp.
  rewrite drop_last_app by (now apply nonempty_app_r, nonempty_app_r).
  rewrite drop_last_app by (now apply nonempty_app_r).
  now rewrite drop_last_app.
Qed.

Lemma normalize_url_rebuild url p :
  urlparse chk url = Some p ->
  nonempty (scheme p) = true -> nonempty (netloc p) = true ->
  normalize_url chk url =
  scheme p ++ "://" ++ netloc p ++ strip_trailing (path p).
Proof.
  intros Hp Hs Hn. pose proof (urlparse_parts _ _ Hp Hs Hn) as Hok.
  unfold normalize_url. rewrite Hp, Hs, Hn. simpl orb. cbv iota.
  rewrite (urlunparse_parts _ _ _ Hok), (endswith_rebuilt _ _ _ Hok).
  unfold strip_trailing.
  destruct (endswith "/" (path p) && negb (String.eqb (path p) "/")) eqn:E;
    [|reflexivity].
  apply drop_last_rebuilt. apply andb_prop in E as [E _].
  destruct (path p); [discriminate | reflexivity].
Qed.

Lemma strip_trailing_parts sch nl pth :
  parts_ok sch nl pth -> parts_ok sch nl (strip_trailing pth).
Proof.
  intros Hok. unfold strip_trailing.
  destruct (endswith "/" pth && negb (String.eqb pth "/")); [|exact Hok].
  destruct Hok. constructor; auto.
  - now apply starts_in_drop_last.
  - apply contains_false, forallb_drop_last. now apply contains_false.
  - apply contains_false, forallb_drop_last. now apply contains_false.
  - now apply forallb_drop_last.
Qed.

(** *** parsing a rebuilt URL again *)

Lemma urlsplit_rebuilt sch nl pth :
  parts_ok sch nl pth ->
  urlsplit chk (sch ++ "://" ++ nl ++ pth) = Some (mkSplit sch nl pth "" "").
Proof.
  intros Hok. destruct Hok as [Hs Hd Hsafe Hb Hn Hp Hh Hq Hps].
  pose proof Hs as ((c0 & t & E & Ha) & Hall & Hlow).
  assert (Hwhole : forallb safe (sch ++ "://" ++ nl ++ pth) = true).
  { rewrite forallb_app.
    rewrite (forallb_impl _ _ _ scheme_char_safe Hall). simpl.
    change ("://" ++ nl ++ pth) with (String ":" (String "/" (String "/" (nl ++ pth)))).
    simpl. now rewrite forallb_app, Hsafe, Hps. }
  unfold urlsplit.
  assert (El : lstrip c0_control_or_space (sch ++ "://" ++ nl ++ pth)
               = sch ++ "://" ++ nl ++ pth).
  { rewrite E. simpl. now rewrite (alpha_not_space _ Ha). }
  rewrite El. fold safe. rewrite (filter_id _ _ Hwhole).
  change (sch ++ "://" ++ nl ++ pth) with (sch ++ String ":" ("//" ++ nl ++ pth)).
  rewrite (split_scheme_app _ _ Hs).
  change (take 2 ("//" ++ nl ++ pth)) with "//".
  change (String.eqb "//" "//") with true. cbv iota.
  unfold splitnetloc. change (drop 2 ("//" ++ nl ++ pth)) with (nl ++ pth).
  assert (Hst : starts_in netloc_delim pth = true).
  { destruct pth as [|a pth]; [reflexivity|]. simpl in *.
    unfold is_slash in Hp. unfold netloc_delim. now rewrite Hp. }
  rewrite (span_until_app _ _ _ Hd Hst). rewrite Hb.
  rewrite Hh, Hq. reflexivity.
Qed.

Lemma urlparse_rebuilt sch nl pth :
  parts_ok sch nl pth ->
  urlparse chk (sch ++ "://" ++ nl ++ pth) =
  Some (mkParse sch nl (fst (reparsed sch pth)) (snd (reparsed sch pth)) "" "").
Proof.
  intros Hok. rewrite urlparse_unfold, (urlsplit_rebuilt _ _ _ Hok). reflexivity.
Qed.

(** *** when a second normalization changes nothing *)

Lemma app_inv_head s a b : s ++ a = s ++ b -> a = b.
Proof. induction s as [|c s IH]; simpl; [auto | intros [= H]; auto]. Qed.

Lemma length_strip_trailing pth :
  (String.length (strip_trailing pth) <= String.length pth)%nat.
Proof.
  unfold strip_trailing.
  destruct (endswith "/" pth && negb (String.eqb pth "/")) eqn:E; [|lia].
  apply andb_prop in E as [E _].
  assert (nonempty pth = true) by (destruct pth; [discriminate | reflexivity]).
  pose proof (length_drop_last pth H). lia.
Qed.

Lemma strip_trailing_fixed pth :
  strip_trailing pth = pth <->
  endswith "/" pth && negb (String.eqb pth "/") = false.
Proof.
  unfold strip_trailing.
  destruct (endswith "/" pth && negb (String.eqb pth "/")) eqn:E;
    [|tauto].
  split; [|discriminate]. intros H.
  apply andb_prop in E as [E _].
  assert (Hn : nonempty pth = true) by (destruct pth; [discriminate | reflexivity]).
  pose proof (length_drop_last pth Hn) as Hl. rewrite H in Hl. lia.
Qed.

Lemma reparsed_shorter sch pth :
  mem sch uses_params = true -> contains ";" (last_segment pth) = true ->
  (String.length (fst (reparsed sch pth)) < String.length pth)%nat.
Proof.
  intros Hm Hc. unfold reparsed, splitparams. unfold last_segment in Hc.
  destruct (rsplit "/" pth) as [[h l]|] eqn:E.
  - apply rsplit_spec in E as (-> & _).
    rewrite Hm, contains_app, Hc, orb_true_r. simpl andb. cbv iota.
    simpl fst. rewrite !length_app.
    pose proof (length_before_lt _ _ Hc). lia.
  - rewrite Hm, Hc. simpl. now apply length_before_lt.
Qed.

Lemma reparsed_same sch pth :
  mem sch uses_params && contains ";" (last_segment pth) = false ->
  fst (reparsed sch pth) = pth.
Proof.
  unfold reparsed, splitparams, last_segment.
  destruct (mem sch uses_params); [|reflexivity]. simpl andb.
  destruct (rsplit "/" pth) as [[h l]|] eqn:E.
  - intros ->. now destruct (contains ";" pth).
  - now intros ->.
Qed.

Lemma path_settled sch pth :
  let p1 := strip_trailing pth in
  strip_trailing (fst (reparsed sch p1)) = p1 <-> settled sch pth = true.
Proof.
  intros p1. unfold settled. fold p1.
  destruct (mem sch uses_params && contains ";" (last_segment p1)) eqn:E.
  - rewrite andb_false_r. split; [|discriminate]. intros H.
    apply andb_prop in E as [Hm Hc].
    pose proof (reparsed_shorter _ _ Hm Hc) as Hl.
    pose proof (length_strip_trailing (fst (reparsed sch p1))) as Hl2.
    rewrite H in Hl2. lia.
  - rewrite (reparsed_same _ _ E), andb_true_r, strip_trailing_fixed.
    destruct (endswith "/" p1 && negb (String.eqb p1 "/")); simpl; split; congruence.
Qed.

Lemma normalize_url_twice url p :
  urlparse chk url = Some p ->
  nonempty (scheme p) = true -> nonempty (netloc p) = true ->
  (normalize_url chk (normalize_url chk url) = normalize_url chk url
   <-> settled (scheme p) (path p) = true).
Proof.
  intros Hp Hs Hn. pose proof (urlparse_parts _ _ Hp Hs Hn) as Hok.
  rewrite (normalize_url_rebuild _ _ Hp Hs Hn).
  apply strip_trailing_parts in Hok.
  rewrite (normalize_url_rebuild _ _ (urlparse_rebuilt _ _ _ Hok) Hs Hn).
  cbn [scheme netloc path]. rewrite <- path_settled. cbv zeta.
  split; [|now intros ->].
  intros H. now do 3 apply app_inv_head in H.
Qed.

Lemma normalize_url_opaque url :
  match urlparse chk url with
  | None => True
  | Some p => nonempty (scheme p) = false \/ nonempty (netloc p) = false
  end ->
  normalize_url chk url = url.
Proof.
  unfold normalize_url. destruct (urlparse chk url) as [p|]; [|reflexivity].
  intros [-> | ->]; [reflexivity | now rewrite orb_true_r].
Qed.

Lemma rebuilt_plain sch nl pth c :
  parts_ok sch nl pth ->
  (forall a, scheme_char a = true -> isnot c a = true) ->
  (forall a, no_delim a = true -> isnot c a = true) ->
  isnot c ":" = true -> isnot c "/" = true ->
  contains c pth = false ->
  contains c (sch ++ "://" ++ nl ++ pth) = false.
Proof.
  intros Hok Hsc Hnd Hcolon Hslash Hp. destruct Hok.
  destruct po_scheme0 as (_ & Hall & _).
  rewrite contains_app.
  change ("://" ++ nl ++ pth) with (String ":" (String "/" (String "/" (nl ++ pth)))).
  apply contains_false in Hp.
  rewrite !contains_forallb. simpl forallb.
  rewrite Hcolon, Hslash, forallb_app, Hp.
  rewrite (forallb_impl _ _ _ Hsc Hall), (forallb_impl _ _ _ Hnd po_netloc_delim0).
  reflexivity.
Qed.

End WithBracketCheck.

End UrlFacts.

(** ** Facts about [retry_for_rate_limit_per_minute] *)

Module RetryFacts.
Import Retry.

(** *** the order of the floats *)




(** *** the order of the numbers *)








(** *** the clamp *)






Section Loop.
Context {A : Type}.
Variable func : nat -> outcome A.
Variable uniform : nat -> Float.float.
Variable c : config.

Lemma length_waits retries drawn k :
  List.length (waits uniform c retries drawn k) = k.
Proof.
  revert retries drawn. induction k as [|k IH]; intros; simpl;
    [reflexivity | now rewrite IH].
Qed.

(** [k] quota failures in a row, with retries to spare, take the loop
    [k] iterations further and add [k] sleeps. *)
Lemma loop_quota k : forall fuel retries ncalls slept,
  (forall j, (j < k)%nat -> func (ncalls + j) = RaisesResourceExhausted) ->
  (retries + Z.of_nat k < max_retries c)%Z -> (k <= fuel)%nat ->
  loop func uniform c fuel retries ncalls slept =
  loop func uniform c (fuel - k) (retries + Z.of_nat k) (ncalls + k)
       (slept ++ waits uniform c retries (List.length slept) k).
Proof.
  induction k as [|k IH]; intros fuel retries ncalls slept Hq Hr Hf.
  - simpl. rewrite Nat.sub_0_r, Z.add_0_r, Nat.add_0_r, app_nil_r.
    reflexivity.
  - destruct fuel as [|fuel]; [lia|]. simpl loop.
    assert (Ht : (retries <? max_retries c)%Z = true)
      by (apply Z.ltb_lt; lia).
    rewrite Ht. pose proof (Hq 0%nat ltac:(lia)) as H0.
    rewrite Nat.add_0_r in H0. rewrite H0.
    assert (Hg : (retries + 1 >=? max_retries c)%Z = false)
      by (rewrite Z.geb_leb; apply Z.leb_gt; lia).
    rewrite Hg. rewrite IH.
    + simpl waits. rewrite length_app. simpl List.length.
      rewrite <- app_assoc. simpl app.
      replace (List.length slept + 1)%nat with (S (List.length slept)) by lia.
      replace (retries + 1 + Z.of_nat k)%Z with (retries + Z.of_nat (S k))%Z by lia.
      replace (S ncalls + k)%nat with (ncalls + S k)%nat by lia.
      reflexivity.
    + intros j Hj. replace (S ncalls + j)%nat with (ncalls + S j)%nat by lia.
      apply Hq. lia.
    + lia.
    + lia.
Qed.

Lemma loop_fuel fuel : forall retries ncalls slept,
  (Z.to_nat (max_retries c - retries) <= fuel)%nat ->
  final (loop func uniform c fuel retries ncalls slept) <> OutOfFuel.
Proof.
  induction fuel as [|fuel IH]; intros retries ncalls slept Hf; simpl.
  - destruct (retries <? max_retries c)%Z eqn:E; simpl; [|discriminate].
    apply Z.ltb_lt in E. lia.
  - destruct (retries <? max_retries c)%Z eqn:E; simpl; [|discriminate].
    apply Z.ltb_lt in E.
    destruct (func ncalls); simpl; try discriminate.
    destruct (retries + 1 >=? max_retries c)%Z; simpl; [discriminate|].
    apply IH. lia.
Qed.

(** where the run stands after [k] quota failures in a row *)
Lemma retry_after_quota k :
  (Z.of_nat k < max_retries c)%Z ->
  (forall j, (j < k)%nat -> func j = RaisesResourceExhausted) ->
  retry_for_rate_limit_per_minute func uniform c =
  loop func uniform c (Z.to_nat (max_retries c) - k) (Z.of_nat k) k
       (waits uniform c 0 0 k).
Proof.
  intros Hk Hq. unfold retry_for_rate_limit_per_minute.
  rewrite (loop_quota k); [reflexivity | | lia | lia].
  intros j Hj. now apply Hq.
Qed.

Lemma retry_returns k a :
  (Z.of_nat k < max_retries c)%Z ->
  (forall j, (j < k)%nat -> func j = RaisesResourceExhausted) ->
  func k = Returns a ->
  retry_for_rate_limit_per_minute func uniform c =
  mkRun (Ok a) (S k) (waits uniform c 0 0 k).
Proof.
  intros Hk Hq Hr. rewrite (retry_after_quota k Hk Hq).
  destruct (Z.to_nat (max_retries c) - k)%nat as [|fuel] eqn:E; [lia|].
  simpl. assert (Ht : (Z.of_nat k <? max_retries c)%Z = true)
    by (apply Z.ltb_lt; lia).
  now rewrite Ht, Hr.
Qed.

Lemma retry_other_error k e :
  (Z.of_nat k < max_retries c)%Z ->
  (forall j, (j < k)%nat -> func j = RaisesResourceExhausted) ->
  func k = RaisesOther e ->
  retry_for_rate_limit_per_minute func uniform c =
  mkRun (OtherError e) (S k) (waits uniform c 0 0 k).
Proof.
  intros Hk Hq Hr. rewrite (retry_after_quota k Hk Hq).
  destruct (Z.to_nat (max_retries c) - k)%nat as [|fuel] eqn:E; [lia|].
  simpl. assert (Ht : (Z.of_nat k <? max_retries c)%Z = true)
    by (apply Z.ltb_lt; lia).
  now rewrite Ht, Hr.
Qed.

Lemma retry_exhausted :
  (1 <= max_retries c)%Z ->
  (forall j, (Z.of_nat j < max_retries c)%Z ->
             func j = RaisesResourceExhausted) ->
  retry_for_rate_limit_per_minute func uniform c =
  mkRun ResourceExhausted (Z.to_nat (max_retries c))
        (waits uniform c 0 0 (Z.to_nat (max_retries c) - 1)).
Proof.
  intros Hm Hq.
  set (k := (Z.to_nat (max_retries c) - 1)%nat).
  rewrite (retry_after_quota k); [| lia | intros j Hj; apply Hq; lia].
  replace (Z.to_nat (max_retries c) - k)%nat with 1%nat by lia.
  simpl. assert (Ht : (Z.of_nat k <? max_retries c)%Z = true)
    by (apply Z.ltb_lt; lia).
  rewrite Ht, (Hq k) by lia.
  assert (Hg : (Z.of_nat k + 1 >=? max_retries c)%Z = true)
    by (rewrite Z.geb_leb; apply Z.leb_le; lia).
  rewrite Hg. f_equal. lia.
Qed.

Lemma retry_no_attempt :
  (max_retries c <= 0)%Z ->
  retry_for_rate_limit_per_minute func uniform c =
  mkRun ResourceExhausted 0 [].
Proof.
  intros Hm. unfold retry_for_rate_limit_per_minute.
  replace (Z.to_nat (max_retries c)) with 0%nat by lia. simpl.
  assert (Ht : (0 <? max_retries c)%Z = false) by (apply Z.ltb_ge; lia).
  now rewrite Ht.
Qed.

Lemma retry_fuel :
  final (retry_for_rate_limit_per_minute func uniform c) <> OutOfFuel.
Proof. apply loop_fuel. lia. Qed.

End Loop.

End RetryFacts.

(** ** Facts about [deep_research] *)

Module ResearchFacts.
Import Research.

(** *** projecting events *)

Inductive kind : Type :=
| KPlanner | KRecorder | KReport | KSleep | KOpen | KClose | KAgent
| KSaveQuery | KSaveRecords | KSaveReport | KBrowserClose.

Definition kind_of (e : event) : kind :=
match e with
| EvPlanner _ => KPlanner
| EvRecorder _ => KRecorder
| EvReport _ => KReport
| EvSleep _ => KSleep
| EvOpen _ => KOpen
| EvClose _ => KClose
| EvAgent _ _ => KAgent
| EvSaveQuery _ _ => KSaveQuery
| EvSaveRecords _ => KSaveRecords
| EvSaveReport _ _ => KSaveReport
| EvBrowserClose => KBrowserClose
end.

(** events of one kind contribute nothing to the projections of the
    other kinds *)
Definition silent (k0 : kind) (evs : list event) : Prop :=
  Forall (fun e => kind_of e = k0) evs.

Lemma silent_map {A : Type} k0 (f : A -> event) (l : list A) :
  (forall x, kind_of (f x) = k0) -> silent k0 (List.map f l).
Proof. intros Hf. induction l; simpl; constructor; auto. Qed.

Lemma dispatched_app a b :
  dispatched (a ++ b)%list = (dispatched a ++ dispatched b)%list.
Proof.
  induction a as [|e a IH]; simpl; [reflexivity|].
  destruct e; simpl; now rewrite ?IH.
Qed.

Lemma opened_app a b : opened (a ++ b)%list = (opened a ++ opened b)%list.
Proof.
  induction a as [|e a IH]; simpl; [reflexivity|].
  destruct e; simpl; now rewrite ?IH.
Qed.

Lemma closed_app a b : closed (a ++ b)%list = (closed a ++ closed b)%list.
Proof.
  induction a as [|e a IH]; simpl; [reflexivity|].
  destruct e; simpl; now rewrite ?IH.
Qed.

Lemma planner_prompts_app a b :
  planner_prompts (a ++ b)%list
  = (planner_prompts a ++ planner_prompts b)%list.
Proof.
  induction a as [|e a IH]; simpl; [reflexivity|].
  destruct e; simpl; now rewrite ?IH.
Qed.

Lemma recorder_prompts_app a b :
  recorder_prompts (a ++ b)%list
  = (recorder_prompts a ++ recorder_prompts b)%list.
Proof.
  induction a as [|e a IH]; simpl; [reflexivity|].
  destruct e; simpl; now rewrite ?IH.
Qed.

Lemma report_prompts_app a b :
  report_prompts (a ++ b)%list = (report_prompts a ++ report_prompts b)%list.
Proof.
  induction a as [|e a IH]; simpl; [reflexivity|].
  destruct e; simpl; now rewrite ?IH.
Qed.

Lemma silent_dispatched k0 evs :
  silent k0 evs -> k0 <> KAgent -> dispatched evs = [].
Proof.
  intros H Hk. induction H as [|e evs He _ IH]; simpl; [reflexivity|].
  destruct e; simpl in *; try exact IH. congruence.
Qed.

Lemma silent_opened k0 evs : silent k0 evs -> k0 <> KOpen -> opened evs = [].
Proof.
  intros H Hk. induction H as [|e evs He _ IH]; simpl; [reflexivity|].
  destruct e; simpl in *; try exact IH. congruence.
Qed.

Lemma silent_closed k0 evs : silent k0 evs -> k0 <> KClose -> closed evs = [].
Proof.
  intros H Hk. induction H as [|e evs He _ IH]; simpl; [reflexivity|].
  destruct e; simpl in *; try exact IH. congruence.
Qed.

Lemma silent_planner_prompts k0 evs :
  silent k0 evs -> k0 <> KPlanner -> planner_prompts evs = [].
Proof.
  intros H Hk. induction H as [|e evs He _ IH]; simpl; [reflexivity|].
  destruct e; simpl in *; try exact IH. congruence.
Qed.

Lemma silent_recorder_prompts k0 evs :
  silent k0 evs -> k0 <> KRecorder -> recorder_prompts evs = [].
Proof.
  intros H Hk. induction H as [|e evs He _ IH]; simpl; [reflexivity|].
  destruct e; simpl in *; try exact IH. congruence.
Qed.

Lemma silent_report_prompts k0 evs :
  silent k0 evs -> k0 <> KReport -> report_prompts evs = [].
Proof.
  intros H Hk. induction H as [|e evs He _ IH]; simpl; [reflexivity|].
  destruct e; simpl in *; try exact IH. congruence.
Qed.

Lemma opened_map l : opened (List.map EvOpen l) = l.
Proof. induction l; simpl; congruence. Qed.

Lemma closed_map l : closed (List.map EvClose l) = l.
Proof. induction l; simpl; congruence. Qed.

Lemma dispatched_map (l : list (nat * string)) :
  dispatched (List.map (fun '(c, q) => EvAgent c q) l) = List.map snd l.
Proof. induction l as [|[c q] l IH]; simpl; congruence. Qed.


(** *** the phases of the loop body *)

Section Run.
Context {info : Type}.
Variable W : world info.
Variable opts : options.

(** the events a phase adds are summarised by their projections *)
Definition added (s s' : state info) (pl rc rp : list string)
                 (ag : list string) (op cl : list nat) : Prop :=
  exists evs,
    trace s' = (trace s ++ evs)%list
    /\ planner_prompts evs = pl /\ recorder_prompts evs = rc
    /\ report_prompts evs = rp /\ dispatched evs = ag
    /\ opened evs = op /\ closed evs = cl.

Lemma added_trans s s1 s2 pl rc rp ag op cl pl' rc' rp' ag' op' cl' :
  added s s1 pl rc rp ag op cl -> added s1 s2 pl' rc' rp' ag' op' cl' ->
  added s s2 (pl ++ pl') (rc ++ rc') (rp ++ rp') (ag ++ ag') (op ++ op')
        (cl ++ cl').
Proof.
  intros (e1 & T1 & A1 & B1 & C1 & D1 & E1 & F1)
         (e2 & T2 & A2 & B2 & C2 & D2 & E2 & F2).
  exists (e1 ++ e2)%list.
  rewrite planner_prompts_app, recorder_prompts_app, report_prompts_app,
    dispatched_app, opened_app, closed_app.
  rewrite T2, T1, <- app_assoc. subst. repeat split.
Qed.

Lemma added_refl s : added s s [] [] [] [] [] [].
Proof. exists []. rewrite app_nil_r. repeat split. Qed.

(** an event list made of sleeps *)
Lemma added_sleeps s s' (sl : list Float.float) :
  trace s' = (trace s ++ List.map EvSleep sl)%list ->
  added s s' [] [] [] [] [] [].
Proof.
  intros T. pose proof (silent_map KSleep EvSleep sl (fun _ => eq_refl)) as H.
  exists (List.map EvSleep sl). split; [exact T|].
  rewrite (silent_planner_prompts KSleep), (silent_recorder_prompts KSleep),
    (silent_report_prompts KSleep), (silent_dispatched KSleep),
    (silent_opened KSleep), (silent_closed KSleep) by (assumption || discriminate).
  repeat split.
Qed.

(** the events of [emit] *)
Lemma added_emit s evs :
  added s (emit evs s) (planner_prompts evs) (recorder_prompts evs)
        (report_prompts evs) (dispatched evs) (opened evs) (closed evs).
Proof. exists evs. repeat split. Qed.

(** the variables that a call through the retry function leaves alone *)
Definition same_vars (s s' : state info) : Prop :=
  task s' = task s /\ search_iteration s' = search_iteration s
  /\ history_query s' = history_query s
  /\ history_infos s' = history_infos s
  /\ visited_links s' = visited_links s
  /\ query_result s' = query_result s
  /\ contexts_opened s' = contexts_opened s.

Lemma invoke_spec s :
  fst (invoke W s) <> Retry.OutOfFuel
  /\ same_vars s (snd (invoke W s))
  /\ added s (snd (invoke W s)) [] [] [] [] [] [].
Proof.
  split; [apply RetryFacts.retry_fuel|]. split.
  - repeat split.
  - eapply added_sleeps. reflexivity.
Qed.

Lemma ask_planner_spec s0 :
  let s := snd (ask_planner W opts s0) in
  fst (ask_planner W opts s0) <> Retry.OutOfFuel
  /\ task s = task s0
  /\ search_iteration s = (search_iteration s0 + 1)%Z
  /\ history_query s = history_query s0
  /\ history_infos s = history_infos s0
  /\ visited_links s = visited_links s0
  /\ query_result s = query_result s0
  /\ contexts_opened s = contexts_opened s0
  /\ added s0 s [query_prompt W opts (bump s0)] [] [] [] [] [].
Proof.
  unfold ask_planner.
  set (s1 := emit [EvPlanner (query_prompt W opts (bump s0))] (bump s0)).
  destruct (invoke_spec s1) as (Hf & Hv & Ha).
  split; [exact Hf|]. destruct Hv as (H1 & H2 & H3 & H4 & H5 & H6 & H7).
  repeat split; try assumption.
  assert (H0 : added s0 s1 [query_prompt W opts (bump s0)] [] [] [] [] []).
  { exists [EvPlanner (query_prompt W opts (bump s0))]. repeat split. }
  pose proof (added_trans _ _ _ _ _ _ _ _ _ _ _ _ _ _ _ H0 Ha) as H.
  exact H.
Qed.

(** *** the filter *)

Lemma filter_step_length acc q :
  (List.length (fst (filter_step W acc q)) <= S (List.length (fst acc)))%nat.
Proof.
  destruct acc as [f v]. unfold filter_step.
  destruct (url_shaped W q); [destruct (bool_decide _)|]; simpl;
    rewrite ?length_app; simpl; lia.
Qed.

Lemma filter_fold_length qs : forall acc,
  (List.length (fst (fold_left (filter_step W) qs acc))
   <= List.length (fst acc) + List.length qs)%nat.
Proof.
  induction qs as [|q qs IH]; intros acc; simpl; [lia|].
  pose proof (IH (filter_step W acc q)).
  pose proof (filter_step_length acc q). lia.
Qed.

Lemma filter_queries_length qs v :
  (List.length (fst (filter_queries W qs v)) <= List.length qs)%nat.
Proof. apply (filter_fold_length qs ([], v)). Qed.

Lemma map_snd_combine {A B : Type} (a : list A) (b : list B) :
  (List.length b <= List.length a)%nat -> List.map snd (combine a b) = b.
Proof.
  revert a. induction b as [|y b IH]; intros [|x a] H; simpl in *;
    try reflexivity; try lia.
  f_equal. apply IH. lia.
Qed.

(** *** the saving loop *)

Lemma save_step_adds it acc item :
  exists new,
    snd (save_step opts it acc item) = (snd acc ++ new)%list
    /\ silent KSaveQuery new.
Proof.
  destruct acc as [qr evs], item as [i [q r]]. unfold save_step.
  destruct r as [e| |final]; cbn [snd].
  - exists []. rewrite app_nil_r. split; [reflexivity | constructor].
  - exists []. rewrite app_nil_r. split; [reflexivity | constructor].
  - eexists [_]. split; [reflexivity|]. constructor; [reflexivity | constructor].
Qed.

Lemma save_fold it items : forall acc,
  exists new,
    snd (fold_left (save_step opts it) items acc) = (snd acc ++ new)%list
    /\ silent KSaveQuery new.
Proof.
  induction items as [|item items IH]; intros acc; cbn [fold_left].
  - exists []. rewrite app_nil_r. split; [reflexivity | constructor].
  - destruct (IH (save_step opts it acc item)) as (new & E & Hs).
    destruct (save_step_adds it acc item) as (new0 & E0 & Hs0).
    exists (new0 ++ new)%list. split.
    + now rewrite E, E0, <- app_assoc.
    + apply Forall_app. split; assumption.
Qed.

Lemma added_saved s s' saved :
  trace s' = (trace s ++ saved)%list -> silent KSaveQuery saved ->
  added s s' [] [] [] [] [] [].
Proof.
  intros T H. exists saved. split; [exact T|].
  rewrite (silent_planner_prompts KSaveQuery), (silent_recorder_prompts KSaveQuery),
    (silent_report_prompts KSaveQuery), (silent_dispatched KSaveQuery),
    (silent_opened KSaveQuery), (silent_closed KSaveQuery)
    by (assumption || discriminate).
  repeat split.
Qed.

Lemma added_opens s s' l :
  trace s' = (trace s ++ List.map EvOpen l)%list ->
  added s s' [] [] [] [] l [].
Proof.
  intros T. pose proof (silent_map KOpen EvOpen l (fun _ => eq_refl)) as H.
  exists (List.map EvOpen l). split; [exact T|].
  rewrite (silent_planner_prompts KOpen), (silent_recorder_prompts KOpen),
    (silent_report_prompts KOpen), (silent_dispatched KOpen),
    (silent_closed KOpen), opened_map
    by (assumption || discriminate).
  repeat split.
Qed.

Lemma added_closes s s' l :
  trace s' = (trace s ++ List.map EvClose l)%list ->
  added s s' [] [] [] [] [] l.
Proof.
  intros T. pose proof (silent_map KClose EvClose l (fun _ => eq_refl)) as H.
  exists (List.map EvClose l). split; [exact T|].
  rewrite (silent_planner_prompts KClose), (silent_recorder_prompts KClose),
    (silent_report_prompts KClose), (silent_dispatched KClose),
    (silent_opened KClose), closed_map
    by (assumption || discriminate).
  repeat split.
Qed.

Lemma added_agents s s' (l : list (nat * string)) :
  trace s' = (trace s ++ List.map (fun '(c, q) => EvAgent c q) l)%list ->
  added s s' [] [] [] (List.map snd l) [] [].
Proof.
  intros T.
  assert (H : silent KAgent (List.map (fun '(c, q) => EvAgent c q) l))
    by (apply silent_map; now intros [c q]).
  eexists. split; [exact T|].
  rewrite (silent_planner_prompts KAgent), (silent_recorder_prompts KAgent),
    (silent_report_prompts KAgent), (silent_opened KAgent),
    (silent_closed KAgent), dispatched_map
    by (assumption || discriminate).
  repeat split.
Qed.

Lemma dispatch_spec s qs :
  let fv := filter_queries W qs (visited_links s) in
  let ctxs := seq (contexts_opened s) (List.length qs) in
  let f := dispatch W opts s qs in
  let s' := flow_state f in
  task s' = List.last qs (task s)
  /\ search_iteration s' = search_iteration s
  /\ history_query s' = (history_query s ++ qs)%list
  /\ history_infos s' = history_infos s
  /\ visited_links s' = snd fv
  /\ contexts_opened s' = (contexts_opened s + List.length qs)%nat
  /\ match f with
     | Break _ =>
         fst fv = [] /\ query_result s' = query_result s
         /\ added s s' [] [] [] [] ctxs []
     | Raise _ _ => fst fv <> [] /\ added s s' [] [] [] (fst fv) ctxs []
     | Next _ => fst fv <> [] /\ added s s' [] [] [] (fst fv) ctxs ctxs
     | Stuck _ => False
     end.
Proof.
  intros fv ctxs f s'. subst fv f s'. unfold dispatch.
  fold ctxs. pose proof (filter_queries_length qs (visited_links s)) as Hlen.
  destruct (filter_queries W qs (visited_links s)) as [filtered visited].
  simpl fst in *. simpl snd.
  set (s1 := mkState (List.last qs (task s)) (search_iteration s)
                     (history_query s ++ qs)%list (history_infos s) visited
                     (query_result s) (llm_calls s) (draws s)
                     (contexts_opened s + List.length qs)
                     (trace s ++ List.map EvOpen ctxs)%list).
  assert (H1 : added s s1 [] [] [] [] ctxs []) by (now apply added_opens).
  destruct filtered as [|q0 filtered].
  - simpl. repeat split; assumption.
  - set (fl := q0 :: filtered) in *.
    set (s2 := emit (List.map (fun '(c, q) => EvAgent c q) (combine ctxs fl)) s1).
    assert (H2 : added s1 s2 [] [] [] fl [] []).
    { rewrite <- (map_snd_combine ctxs fl) at 1
        by (unfold ctxs; rewrite length_seq; exact Hlen).
      now apply added_agents. }
    pose proof (added_trans _ _ _ _ _ _ _ _ _ _ _ _ _ _ _ H1 H2) as H12.
    simpl in H12. rewrite app_nil_r in H12.
    destruct (first_raise _) as [e|].
    + simpl. repeat split; try assumption. discriminate.
    + set (s3 := emit (List.map EvClose ctxs) s2).
      assert (H3 : added s2 s3 [] [] [] [] [] ctxs) by (now apply added_closes).
      pose proof (added_trans _ _ _ _ _ _ _ _ _ _ _ _ _ _ _ H12 H3) as H123.
      simpl in H123. rewrite !app_nil_r in H123.
      match goal with
      | |- context [fold_left ?f ?items ?acc] =>
          destruct (save_fold (search_iteration s3) items acc) as (new & E & Hs);
          destruct (fold_left f items acc) as [qr saved]
      end.
      simpl in E. subst saved. simpl.
      repeat split; try discriminate.
      set (s4 := mkState _ _ _ _ _ _ _ _ _ _).
      assert (H4 : added s3 s4 [] [] [] [] [] [])
        by (now apply (added_saved s3 s4 new)).
      pose proof (added_trans _ _ _ _ _ _ _ _ _ _ _ _ _ _ _ H123 H4) as H.
      simpl in H. rewrite !app_nil_r in H. exact H.
Qed.

(** *** the recorder *)

Lemma record_step_subseteq (v : gset string) (i : info) :
  v ⊆ record_step W v i.
Proof.
  unfold record_step. destruct (info_url W i) as [url|]; [|set_solver].
  destruct (String.eqb url "unknown"); set_solver.
Qed.

Lemma record_fold_subseteq (l : list info) : forall v : gset string,
  v ⊆ fold_left (record_step W) l v.
Proof.
  induction l as [|i l IH]; intros v; simpl; [set_solver|].
  pose proof (IH (record_step W v i)). pose proof (record_step_subseteq v i).
  set_solver.
Qed.

Lemma record_spec s :
  let f := record W s in
  let s' := flow_state f in
  task s' = task s
  /\ search_iteration s' = search_iteration s
  /\ history_query s' = history_query s
  /\ contexts_opened s' = contexts_opened s
  /\ visited_links s ⊆ visited_links s'
  /\ is_stuck f = false
  /\ exists rc, added s s' [] rc [] [] [] []
       /\ (List.length rc <= 1)%nat
       /\ (is_next f = true -> List.length rc = 1%nat).
Proof.
  intros f s'. subst f s'. unfold record.
  destruct (query_result s) as [result|].
  - set (s1 := emit [EvRecorder (record_prompt W s result)] s).
    assert (H1 : added s s1 [] [record_prompt W s result] [] [] [] [])
      by (eexists; repeat split).
    destruct (invoke_spec s1) as (Hf & (V1 & V2 & V3 & V4 & V5 & V6 & V7) & Ha).
    destruct (invoke W s1) as [r s2]. cbn [fst snd] in *.
    change (task s1) with (task s) in V1.
    change (search_iteration s1) with (search_iteration s) in V2.
    change (history_query s1) with (history_query s) in V3.
    change (visited_links s1) with (visited_links s) in V5.
    change (contexts_opened s1) with (contexts_opened s) in V7.
    pose proof (added_trans _ _ _ _ _ _ _ _ _ _ _ _ _ _ _ H1 Ha) as H.
    cbn [app] in H.
    assert (Hrc : exists rc, added s s2 [] rc [] [] [] []
                   /\ (List.length rc <= 1)%nat /\ List.length rc = 1%nat).
    { exists [record_prompt W s result]. split; [exact H|]. simpl. lia. }
    destruct Hrc as (rc & Hadd & Hle & Hone).
    destruct r as [[content|]| |e|]; cbn [flow_state is_stuck is_next];
      [ | | | | congruence].
    + destruct (decode_record W content) as [|new|seen];
        cbn [flow_state is_stuck is_next task search_iteration history_query
             contexts_opened visited_links];
        (split; [exact V1|]); (split; [exact V2|]); (split; [exact V3|]);
        (split; [exact V7|]);
        (split; [rewrite <- V5; apply record_fold_subseteq|]);
        (split; [reflexivity|]);
        exists rc; (split; [|split; [exact Hle | intros _; exact Hone]]);
        destruct Hadd as (evs & T & P); exists evs;
        (split; [exact T | exact P]).
    + split; [exact V1|]. split; [exact V2|]. split; [exact V3|].
      split; [exact V7|]. split; [rewrite V5; set_solver|].
      split; [reflexivity|].
      exists rc. split; [exact Hadd|]. split; [exact Hle | discriminate].
    + split; [exact V1|]. split; [exact V2|]. split; [exact V3|].
      split; [exact V7|]. split; [rewrite V5; set_solver|].
      split; [reflexivity|].
      exists rc. split; [exact Hadd|]. split; [exact Hle | discriminate].
    + split; [exact V1|]. split; [exact V2|]. split; [exact V3|].
      split; [exact V7|]. split; [rewrite V5; set_solver|].
      split; [reflexivity|].
      exists rc. split; [exact Hadd|]. split; [exact Hle | discriminate].
  - cbn [flow_state is_stuck is_next].
    split; [reflexivity|]. split; [reflexivity|]. split; [reflexivity|].
    split; [reflexivity|]. split; [set_solver|]. split; [reflexivity|].
    exists []. split; [apply added_refl|]. split; [simpl; lia | discriminate].
Qed.

(** *** one pass of the loop body *)

Lemma iteration_spec s0 :
  let f := iteration W opts s0 in
  let s' := flow_state f in
  let qp := query_prompt W opts (bump s0) in
  search_iteration s' = (search_iteration s0 + 1)%Z
  /\ is_stuck f = false
  /\ ((history_query s' = history_query s0
       /\ visited_links s' = visited_links s0
       /\ task s' = task s0
       /\ contexts_opened s' = contexts_opened s0
       /\ added s0 s' [qp] [] [] [] [] []
       /\ is_next f = false)
      \/ exists content p qs,
           fst (ask_planner W opts s0) = Retry.Ok (Some content)
           /\ decode_plan W content = Plan p qs /\ qs <> []
           /\ let fv := filter_queries W qs (visited_links s0) in
              let ctxs := seq (contexts_opened s0) (List.length qs) in
              history_query s' = (history_query s0 ++ qs)%list
              /\ task s' = List.last qs (task s0)
              /\ snd fv ⊆ visited_links s'
              /\ contexts_opened s'
                 = (contexts_opened s0 + List.length qs)%nat
              /\ exists rc cl,
                   added s0 s' [qp] rc [] (fst fv) ctxs cl
                   /\ (List.length rc <= 1)%nat
                   /\ (cl = [] \/ cl = ctxs)
                   /\ (is_next f = true ->
                       List.length rc = 1%nat /\ cl = ctxs /\ fst fv <> [])).
Proof.
  intros f s' qp. subst f s'. unfold iteration.
  destruct (ask_planner_spec s0)
    as (Hf & A1 & A2 & A3 & A4 & A5 & A6 & A7 & Ha). fold qp in Ha.
  destruct (ask_planner W opts s0) as [r s] eqn:Ea. cbn [fst snd] in *.
  assert (Hquiet :
    forall f, flow_state f = s -> is_next f = false -> is_stuck f = false ->
      search_iteration (flow_state f) = (search_iteration s0 + 1)%Z
      /\ is_stuck f = false
      /\ ((history_query (flow_state f) = history_query s0
           /\ visited_links (flow_state f) = visited_links s0
           /\ task (flow_state f) = task s0
           /\ contexts_opened (flow_state f) = contexts_opened s0
           /\ added s0 (flow_state f) [qp] [] [] [] [] []
           /\ is_next f = false)
          \/ exists content p qs,
               r = Retry.Ok (Some content)
               /\ decode_plan W content = Plan p qs /\ qs <> []
               /\ let fv := filter_queries W qs (visited_links s0) in
                  let ctxs := seq (contexts_opened s0) (List.length qs) in
                  history_query (flow_state f) = (history_query s0 ++ qs)%list
                  /\ task (flow_state f) = List.last qs (task s0)
                  /\ snd fv ⊆ visited_links (flow_state f)
                  /\ contexts_opened (flow_state f)
                     = (contexts_opened s0 + List.length qs)%nat
                  /\ exists rc cl,
                       added s0 (flow_state f) [qp] rc [] (fst fv) ctxs cl
                       /\ (List.length rc <= 1)%nat
                       /\ (cl = [] \/ cl = ctxs)
                       /\ (is_next f = true ->
                           List.length rc = 1%nat /\ cl = ctxs /\ fst fv <> []))).
  { intros f -> Hn Hs. split; [assumption|]. split; [assumption|].
    left. repeat split; assumption. }
  destruct r as [[content|]| |e|];
    try (apply Hquiet; reflexivity); [|congruence].
  destruct (decode_plan W content) as [| |p [|q qs]] eqn:Ed;
    try (apply Hquiet; reflexivity).
  clear Hquiet.
  destruct (dispatch_spec s (q :: qs))
    as (D1 & D2 & D3 & D4 & D5 & D6 & Dm).
  rewrite A5 in D5. rewrite A5, A7 in Dm.
  rewrite A7 in D6. rewrite A1 in D1. rewrite A3 in D3.
  set (fv := filter_queries W (q :: qs) (visited_links s0)) in *.
  set (ctxs := seq (contexts_opened s0) (List.length (q :: qs))) in *.
  destruct (dispatch W opts s (q :: qs)) as [s1|s1|e s1|s1];
    cbn [flow_state is_stuck is_next] in *; [| | |contradiction].
  - (* the batch settled: the recorder runs *)
    destruct Dm as (Hne & Hd).
    pose proof (added_trans _ _ _ _ _ _ _ _ _ _ _ _ _ _ _ Ha Hd) as H1.
    cbn [app] in H1.
    destruct (record_spec s1) as (R1 & R2 & R3 & R4 & R5 & R6 & rc & Hr & Hl & Hn).
    pose proof (added_trans _ _ _ _ _ _ _ _ _ _ _ _ _ _ _ H1 Hr) as H2.
    cbn [app] in H2. rewrite !app_nil_r in H2.
    split; [rewrite R2, D2; exact A2|]. split; [exact R6|].
    right. exists content, p, (q :: qs).
    split; [reflexivity|]. split; [exact Ed|]. split; [discriminate|].
    cbv zeta. fold fv ctxs.
    split; [now rewrite R3|]. split; [now rewrite R1|].
    split; [rewrite <- D5; exact R5|]. split; [now rewrite R4|].
    exists rc, ctxs. split; [exact H2|]. split; [exact Hl|].
    split; [now right|]. intros Hnx. auto.
  - (* every query was a visited URL *)
    destruct Dm as (Hnil & _ & Hd).
    pose proof (added_trans _ _ _ _ _ _ _ _ _ _ _ _ _ _ _ Ha Hd) as H1.
    cbn [app] in H1.
    split; [rewrite D2; exact A2|]. split; [reflexivity|].
    right. exists content, p, (q :: qs).
    split; [reflexivity|]. split; [exact Ed|]. split; [discriminate|].
    cbv zeta. fold fv ctxs.
    split; [exact D3|]. split; [exact D1|].
    split; [rewrite D5; set_solver|]. split; [exact D6|].
    exists [], []. rewrite Hnil. split; [exact H1|]. split; [simpl; lia|].
    split; [now left | discriminate].
  - (* an agent raised *)
    destruct Dm as (Hne & Hd).
    pose proof (added_trans _ _ _ _ _ _ _ _ _ _ _ _ _ _ _ Ha Hd) as H1.
    cbn [app] in H1.
    split; [rewrite D2; exact A2|]. split; [reflexivity|].
    right. exists content, p, (q :: qs).
    split; [reflexivity|]. split; [exact Ed|]. split; [discriminate|].
    cbv zeta. fold fv ctxs.
    split; [exact D3|]. split; [exact D1|].
    split; [rewrite D5; set_solver|]. split; [exact D6|].
    exists [], []. split; [exact H1|]. split; [simpl; lia|].
    split; [now left | discriminate].
Qed.

Lemma iteration_added s0 :
  exists rc ag op cl,
    added s0 (flow_state (iteration W opts s0))
          [query_prompt W opts (bump s0)] rc [] ag op cl.
Proof.
  destruct (iteration_spec s0) as (_ & _ & [H | H]).
  - destruct H as (_ & _ & _ & _ & H & _). eauto.
  - destruct H as (content & p & qs & _ & _ & _ & H). cbv zeta in H.
    destruct H as (_ & _ & _ & _ & rc & cl & H & _). eauto.
Qed.

(** *** the loop *)

Lemma search_loop_spec fuel : forall s,
  let e := search_loop W opts fuel s in
  ((Z.to_nat (max_search_iterations opts - search_iteration s) <= fuel)%nat ->
   out_of_fuel e = false)
  /\ exists pl rc ag op cl, added s (exit_state e) pl rc [] ag op cl.
Proof.
  induction fuel as [|fuel IH]; intros s; simpl.
  - destruct (search_iteration s <? max_search_iterations opts)%Z eqn:E;
      cbn [exit_state out_of_fuel].
    + split; [apply Z.ltb_lt in E; lia|].
      exists [], [], [], [], []. apply added_refl.
    + split; [reflexivity|]. exists [], [], [], [], []. apply added_refl.
  - destruct (search_iteration s <? max_search_iterations opts)%Z eqn:E;
      [|split; [reflexivity|]; exists [], [], [], [], []; apply added_refl].
    apply Z.ltb_lt in E.
    destruct (iteration_spec s) as (I1 & I2 & _).
    destruct (iteration_added s) as (rc & ag & op & cl & Ha).
    destruct (iteration W opts s) as [s'|s'|e s'|s'];
      cbn [flow_state is_stuck exit_state out_of_fuel] in *;
      try (split; [reflexivity|]; eauto 10); [|discriminate].
    destruct (IH s') as (Hfuel & pl' & rc' & ag' & op' & cl' & Ha').
    split; [intros Hf; apply Hfuel; lia|].
    pose proof (added_trans _ _ _ _ _ _ _ _ _ _ _ _ _ _ _ Ha Ha') as H.
    eauto 10.
Qed.

(** *** the report *)

Lemma report_unwritable s :
  forallb (encodable W) (history_infos s) = false ->
  report W opts s = (Raise "UnicodeEncodeError" s, (EmptyString, None)).
Proof. intros H. unfold report. now rewrite H. Qed.

Lemma report_spec s :
  let f := fst (report W opts s) in
  let res := snd (report W opts s) in
  added s (flow_state f) [] []
        (if forallb (encodable W) (history_infos s)
         then [report_prompt W s] else []) [] [] []
  /\ is_stuck f = false
  /\ (is_next f = false -> res = (EmptyString, None))
  /\ (res = (EmptyString, None)
      \/ exists content,
           res = (content, Some (path_join (save_dir opts) "final_report.md"))
           /\ In (EvSaveReport (path_join (save_dir opts) "final_report.md")
                               content)
                 (trace (flow_state f))).
Proof.
  intros f res. subst f res. unfold report.
  destruct (forallb (encodable W) (history_infos s)).
  2:{ cbn [fst snd flow_state is_stuck is_next].
      split; [apply added_refl|]. split; [reflexivity|].
      split; [reflexivity | now left]. }
  set (s1 := emit [EvSaveRecords (path_join (save_dir opts) "record_infos.json")] s).
  set (s2 := emit [EvReport (report_prompt W s1)] s1).
  assert (H2 : added s s2 [] [] [report_prompt W s] [] [] []).
  { exists [EvSaveRecords (path_join (save_dir opts) "record_infos.json");
            EvReport (report_prompt W s)].
    split; [|repeat split].
    unfold s2, s1. cbn [emit trace]. now rewrite <- app_assoc. }
  destruct (invoke_spec s2) as (Hf & _ & Ha).
  destruct (invoke W s2) as [r s3]. cbn [fst snd] in *.
  pose proof (added_trans _ _ _ _ _ _ _ _ _ _ _ _ _ _ _ H2 Ha) as H.
  cbn [app] in H.
  destruct r as [[content|]| |e|]; cbn [fst snd flow_state is_stuck is_next];
    [ | | | | congruence].
  - split; [|split; [reflexivity|split; [discriminate|]]].
    + set (s4 := emit _ s3).
      assert (H4 : added s3 s4 [] [] [] [] [] []) by (eexists; repeat split).
      pose proof (added_trans _ _ _ _ _ _ _ _ _ _ _ _ _ _ _ H H4) as H'.
      exact H'.
    + right. exists content. split; [reflexivity|].
      cbn [emit trace]. apply in_or_app. right. now left.
  - split; [exact H|]. split; [reflexivity|]. split; [reflexivity | now left].
  - split; [exact H|]. split; [reflexivity|]. split; [reflexivity | now left].
  - split; [exact H|]. split; [reflexivity|]. split; [reflexivity | now left].
Qed.

(** *** what the planner's answer decides *)


Lemma iteration_empty_plan s content p :
  fst (ask_planner W opts s) = Retry.Ok (Some content) ->
  decode_plan W content = Plan p [] ->
  iteration W opts s = Break (snd (ask_planner W opts s)).
Proof.
  intros Ha Hd. unfold iteration.
  destruct (ask_planner W opts s) as [r s']. cbn [fst snd] in *.
  subst r. now rewrite Hd.
Qed.

Lemma iteration_plan s content p qs :
  fst (ask_planner W opts s) = Retry.Ok (Some content) ->
  decode_plan W content = Plan p qs -> qs <> [] ->
  iteration W opts s =
  match dispatch W opts (snd (ask_planner W opts s)) qs with
  | Next s' => record W s'
  | other => other
  end.
Proof.
  intros Ha Hd Hq. unfold iteration.
  destruct (ask_planner W opts s) as [r s']. cbn [fst snd] in *.
  subst r. rewrite Hd. destruct qs; [congruence | reflexivity].
Qed.

Lemma iteration_history s content p qs :
  fst (ask_planner W opts s) = Retry.Ok (Some content) ->
  decode_plan W content = Plan p qs ->
  history_query (flow_state (iteration W opts s))
  = (history_query s ++ qs)%list.
Proof.
  intros Ha Hd. destruct qs as [|q qs].
  - rewrite (iteration_empty_plan s content p Ha Hd). cbn [flow_state].
    destruct (ask_planner_spec s) as (_ & _ & _ & H & _).
    rewrite H. now rewrite app_nil_r.
  - rewrite (iteration_plan s content p (q :: qs) Ha Hd) by discriminate.
    destruct (ask_planner_spec s) as (_ & _ & _ & H & _).
    destruct (dispatch_spec (snd (ask_planner W opts s)) (q :: qs))
      as (_ & _ & D3 & _).
    rewrite H in D3.
    destruct (dispatch W opts (snd (ask_planner W opts s)) (q :: qs))
      as [s1|s1|e s1|s1]; cbn [flow_state] in *; try exact D3.
    destruct (record_spec s1) as (_ & _ & R3 & _). now rewrite R3.
Qed.

Lemma iteration_history_grows s :
  exists l, history_query (flow_state (iteration W opts s))
            = (history_query s ++ l)%list.
Proof.
  destruct (iteration_spec s) as (_ & _ & [H | H]).
  - destruct H as (H & _). exists []. now rewrite app_nil_r.
  - destruct H as (content & p & qs & _ & _ & _ & H). cbv zeta in H.
    destruct H as (H & _). eauto.
Qed.

(** *** the filter keeps one query for each normalized URL *)

Definition norms (l : list string) : list string :=
  List.map (normalize_url W) (List.filter (url_shaped W) l).

Definition filter_inv (v0 : gset string) (acc : list string * gset string)
  : Prop :=
  NoDup (norms (fst acc))
  /\ v0 ⊆ snd acc
  /\ forall a, In a (fst acc) -> url_shaped W a = true ->
       normalize_url W a ∈ snd acc /\ normalize_url W a ∉ v0.

Lemma norms_app a b : norms (a ++ b) = (norms a ++ norms b)%list.
Proof. unfold norms. now rewrite List.filter_app, List.map_app. Qed.

Lemma in_norms a l :
  In a (norms l) -> exists q, In q l /\ url_shaped W q = true
                              /\ normalize_url W q = a.
Proof.
  unfold norms. intros H. apply List.in_map_iff in H as (q & E & H).
  apply List.filter_In in H as (H1 & H2). eauto.
Qed.

Lemma filter_step_inv v0 acc q :
  filter_inv v0 acc -> filter_inv v0 (filter_step W acc q).
Proof.
  destruct acc as [f v]. intros (Hnd & Hsub & Hall). unfold filter_step.
  destruct (url_shaped W q) eqn:Eq.
  - destruct (bool_decide (normalize_url W q ∈ v)) eqn:Ev.
    + split; [exact Hnd | split; [exact Hsub | exact Hall]].
    + apply bool_decide_eq_false in Ev. unfold filter_inv. cbn [fst snd] in *.
      split; [|split].
      * rewrite norms_app. unfold norms at 2. cbn [List.filter].
        rewrite Eq. cbn [List.map].
        apply NoDup_app. split; [exact Hnd|]. split.
        -- intros a Ha Hin. apply list_elem_of_In in Ha.
           apply in_norms in Ha as (q' & Hq' & Hs & <-).
           apply list_elem_of_In in Hin. destruct Hin as [E|[]].
           destruct (Hall q' Hq' Hs) as (Hv & _). apply Ev.
           replace (normalize_url W q) with (normalize_url W q') by congruence.
           exact Hv.
        -- apply NoDup_singleton.
      * set_solver.
      * intros a Ha Hs. apply in_app_or in Ha as [Ha | [<- | []]].
        -- destruct (Hall a Ha Hs). split; [set_solver | assumption].
        -- split; [set_solver | set_solver].
  - unfold filter_inv. cbn [fst snd] in *. split; [|split; [assumption|]].
    + rewrite norms_app. unfold norms at 2. cbn [List.filter].
      rewrite Eq. cbn [List.map]. now rewrite app_nil_r.
    + intros a Ha Hs. apply in_app_or in Ha as [Ha | [<- | []]].
      * now apply Hall.
      * congruence.
Qed.

Lemma filter_fold_inv v0 qs : forall acc,
  filter_inv v0 acc -> filter_inv v0 (fold_left (filter_step W) qs acc).
Proof.
  induction qs as [|q qs IH]; intros acc H; simpl; [exact H|].
  apply IH. now apply filter_step_inv.
Qed.

Lemma filter_queries_inv qs v : filter_inv v (filter_queries W qs v).
Proof.
  apply filter_fold_inv. split; [constructor|]. split; [set_solver|].
  intros a [].
Qed.

(** the queries that are no URLs all pass the filter, and nothing is
    dispatched that the planner did not propose *)
Lemma filter_step_keeps acc q a :
  In a (fst acc) -> In a (fst (filter_step W acc q)).
Proof.
  destruct acc as [f v]. unfold filter_step. intros H.
  destruct (url_shaped W q); [destruct (bool_decide _)|];
    cbn [fst] in *; auto using in_or_app.
Qed.

Lemma filter_fold_keeps qs : forall acc a,
  In a (fst acc) -> In a (fst (fold_left (filter_step W) qs acc)).
Proof.
  induction qs as [|q qs IH]; intros acc a H; simpl; [exact H|].
  apply IH. now apply filter_step_keeps.
Qed.

Lemma filter_fold_plain qs : forall acc a,
  In a qs -> url_shaped W a = false ->
  In a (fst (fold_left (filter_step W) qs acc)).
Proof.
  induction qs as [|q qs IH]; intros acc a H Hs; [destruct H|].
  destruct H as [<- | H]; simpl.
  - apply filter_fold_keeps. destruct acc as [f v]. unfold filter_step.
    rewrite Hs. cbn [fst]. apply in_or_app. right. now left.
  - now apply IH.
Qed.

Lemma filter_fold_from qs : forall acc a,
  In a (fst (fold_left (filter_step W) qs acc)) -> In a (fst acc) \/ In a qs.
Proof.
  induction qs as [|q qs IH]; intros acc a H; simpl in *; [now left|].
  apply IH in H as [H | H]; [|auto].
  destruct acc as [f v]. unfold filter_step in H.
  destruct (url_shaped W q); [destruct (bool_decide _)|]; cbn [fst] in *;
    try (apply in_app_or in H as [H | [<- | []]]); auto.
Qed.

End Run.

End ResearchFacts.

(** * The URL normalizer *)

Section NormalizeUrl.
Import Str StrFacts UrlParse UrlFacts.
Variable chk : string -> bool.

Lemma normalize_url_plain url p c :
  urlparse chk url = Some p ->
  nonempty (scheme p) = true -> nonempty (netloc p) = true ->
  (forall a, scheme_char a = true -> isnot c a = true) ->
  (forall a, no_delim a = true -> isnot c a = true) ->
  isnot c ":" = true -> isnot c "/" = true ->
  contains c (path p) = false ->
  contains c (normalize_url chk url) = false.
Proof.
  intros Hp Hs Hn H1 H2 H3 H4 Hc.
  rewrite (normalize_url_rebuild chk _ _ Hp Hs Hn).
  pose proof (strip_trailing_parts chk _ _ _ (urlparse_parts chk _ _ Hp Hs Hn)) as Hok.
  apply (rebuilt_plain chk); auto.
  unfold strip_trailing.
  destruct (endswith "/" (path p) && negb (String.eqb (path p) "/")); [|exact Hc].
  apply contains_false, forallb_drop_last. now apply contains_false.
Qed.

End NormalizeUrl.

(** C4, as amended.  For every bracket check and every string [url]:
    when [url] parses with a scheme and a network location,
    [normalize_url] returns scheme, ["://"], network location and path,
    with one trailing [/] of the path removed unless the path is ["/"],
    and the result holds neither [?] nor [#]; when [url] has no scheme or
    no network location, or [urlparse] raises, it returns [url] itself;
    and normalizing twice gives the same as normalizing once exactly when
    [url] is settled: not URL-shaped, or with a path that, once its
    trailing [/] is stripped, neither ends in another [/] (the root
    apart) nor has a [;] in its last segment under a scheme that takes
    parameters. *)
Theorem normalize_url_spec (chk : string -> bool) (url : string) :
  (forall p, UrlParse.urlparse chk url = Some p ->
             Str.nonempty (UrlParse.scheme p) = true ->
             Str.nonempty (UrlParse.netloc p) = true ->
     UrlParse.normalize_url chk url =
       UrlParse.scheme p ++ "://" ++ UrlParse.netloc p
       ++ UrlParse.strip_trailing (UrlParse.path p)
     /\ Str.contains "?" (UrlParse.normalize_url chk url) = false
     /\ Str.contains "#" (UrlParse.normalize_url chk url) = false)
  /\ (UrlParse.url_shaped chk url = false ->
      UrlParse.normalize_url chk url = url)
  /\ (UrlParse.normalize_url chk (UrlParse.normalize_url chk url)
        = UrlParse.normalize_url chk url
      <-> UrlParse.url_settled chk url = true).
Proof.
  split; [|split].
  - intros p Hp Hs Hn.
    pose proof (UrlFacts.urlparse_parts chk _ _ Hp Hs Hn) as Hok.
    split; [now apply UrlFacts.normalize_url_rebuild|].
    split; apply (normalize_url_plain chk url p); auto;
      try (intros a Ha; first [apply UrlFacts.scheme_char_plain in Ha
                              | apply UrlFacts.no_delim_plain in Ha]; tauto);
      apply Hok.
  - unfold UrlParse.url_shaped. intros H.
    apply UrlFacts.normalize_url_opaque.
    destruct (UrlParse.urlparse chk url) as [p|]; [|exact I].
    destruct (Str.nonempty (UrlParse.scheme p)); [|now left].
    destruct (Str.nonempty (UrlParse.netloc p)); [discriminate | now right].
  - unfold UrlParse.url_settled.
    destruct (UrlParse.urlparse chk url) as [p|] eqn:Hp.
    + destruct (Str.nonempty (UrlParse.scheme p)) eqn:Hs;
        [destruct (Str.nonempty (UrlParse.netloc p)) eqn:Hn|]; simpl.
      * now apply UrlFacts.normalize_url_twice.
      * assert (E : UrlParse.normalize_url chk url = url).
        { apply UrlFacts.normalize_url_opaque. rewrite Hp. now right. }
        rewrite !E. tauto.
      * assert (E : UrlParse.normalize_url chk url = url).
        { apply UrlFacts.normalize_url_opaque. rewrite Hp. now left. }
        rewrite !E. tauto.
    + assert (E : UrlParse.normalize_url chk url = url).
      { apply UrlFacts.normalize_url_opaque. now rewrite Hp. }
      rewrite !E. tauto.
Qed.

Lemma normalize_url_spec_witness :
  UrlParse.normalize_url UrlParse.any_host "HTTP://Example.com/a/b/?q=1#frag"
    = "http://Example.com/a/b"
  /\ UrlParse.normalize_url UrlParse.any_host "best pizza near me"
    = "best pizza near me".
Proof.
  split.
  - destruct (normalize_url_spec UrlParse.any_host
                "HTTP://Example.com/a/b/?q=1#frag") as (H & _ & _).
    destruct (H (UrlParse.mkParse "http" "Example.com" "/a/b/" "" "q=1" "frag"))
      as (E & _); [reflexivity | reflexivity | reflexivity |].
    rewrite E. reflexivity.
  - destruct (normalize_url_spec UrlParse.any_host "best pizza near me")
      as (_ & H & _).
    apply H. reflexivity.
Defined.

(** C4 as stated fails: a path that ends in two separators loses one of
    them at each normalization, and a [;] uncovered by the stripping is
    split off by the next parse. *)
Lemma normalize_url_not_idempotent :
  UrlParse.normalize_url UrlParse.any_host
    (UrlParse.normalize_url UrlParse.any_host "http://a.com/p//")
  <> UrlParse.normalize_url UrlParse.any_host "http://a.com/p//"
  /\ UrlParse.normalize_url UrlParse.any_host
       (UrlParse.normalize_url UrlParse.any_host "http://a.com/p;x/")
     <> UrlParse.normalize_url UrlParse.any_host "http://a.com/p;x/".
Proof. split; vm_compute; discriminate. Qed.

(** * The rate-limited invoker *)

Section RetryRun.
Import Retry RetryFacts.
Context {A : Type}.
Variable func : nat -> outcome A.
Variable uniform : nat -> Float.float.
Variable c : config.


(** what the last call of a run did, by the result of the run *)
Definition decided (r : run A) : Prop :=
  match final r with
  | Ok a => exists k, calls r = S k /\ func k = Returns a
  | OtherError e => exists k, calls r = S k /\ func k = RaisesOther e
  | ResourceExhausted =>
      calls r = Z.to_nat (max_retries c)
      /\ forall k, calls r = S k -> func k = RaisesResourceExhausted
  | OutOfFuel => False
  end.

Lemma loop_accounts fuel : forall retries ncalls slept,
  retries = Z.of_nat ncalls ->
  (ncalls = 0%nat \/ retries < max_retries c)%Z ->
  (Z.to_nat (max_retries c - retries) <= fuel)%nat ->
  (forall j, (j < ncalls)%nat -> func j = RaisesResourceExhausted) ->
  let r := loop func uniform c fuel retries ncalls slept in
  (Z.of_nat (calls r) <= Z.max 0 (max_retries c))%Z
  /\ sleeps r = (slept ++ waits uniform c retries (List.length slept)
                               (pred (calls r) - ncalls))%list
  /\ ((retries < max_retries c)%Z -> (ncalls < calls r)%nat)
  /\ (forall j, (S j < calls r)%nat -> func j = RaisesResourceExhausted)
  /\ decided r.
Proof.
  induction fuel as [|fuel IH]; intros retries ncalls slept Hr Hc Hf Hq;
    cbn [loop].
  - destruct (retries <? max_retries c)%Z eqn:Et.
    + apply Z.ltb_lt in Et. lia.
    + apply Z.ltb_ge in Et. destruct Hc as [-> | Hc]; [|lia].
      cbn [calls sleeps final]. unfold decided. cbn [calls final pred Nat.sub waits].
      rewrite List.app_nil_r.
      split; [lia|]. split; [reflexivity|]. split; [lia|].
      split; [intros j Hj; lia|]. split; [lia | intros k Hk; discriminate].
  - destruct (retries <? max_retries c)%Z eqn:Et.
    2:{ apply Z.ltb_ge in Et. destruct Hc as [-> | Hc]; [|lia].
        cbn [calls sleeps final]. unfold decided.
        cbn [calls final pred Nat.sub waits]. rewrite List.app_nil_r.
        split; [lia|]. split; [reflexivity|]. split; [lia|].
        split; [intros j Hj; lia|]. split; [lia | intros k Hk; discriminate]. }
    apply Z.ltb_lt in Et.
    destruct (func ncalls) as [a| |e] eqn:Ef.
    + cbn [calls sleeps final]. unfold decided. cbn [calls final pred].
      rewrite Nat.sub_diag. cbn [waits]. rewrite List.app_nil_r.
      split; [lia|]. split; [reflexivity|]. split; [lia|].
      split; [intros j Hj; apply Hq; lia|]. eauto.
    + destruct (retries + 1 >=? max_retries c)%Z eqn:Eg.
      * rewrite Z.geb_leb in Eg. apply Z.leb_le in Eg.
        cbn [calls sleeps final]. unfold decided. cbn [calls final pred].
        rewrite Nat.sub_diag. cbn [waits]. rewrite List.app_nil_r.
        split; [lia|]. split; [reflexivity|]. split; [lia|].
        split; [intros j Hj; apply Hq; lia|].
        split; [lia|]. intros k [= <-]. exact Ef.
      * rewrite Z.geb_leb in Eg. apply Z.leb_gt in Eg.
        destruct (IH (retries + 1)%Z (S ncalls)
                     (slept ++ [jittered (wait_time c (retries + 1))
                                         (uniform (List.length slept))])%list)
          as (B1 & B2 & B3 & B4 & B5); [lia | lia | lia | |].
        { intros j Hj. destruct (Nat.eq_dec j ncalls) as [-> | Hne];
            [exact Ef | apply Hq; lia]. }
        specialize (B3 Eg).
        split; [exact B1|]. split; [|split; [lia|split; [exact B4 | exact B5]]].
        rewrite B2, <- List.app_assoc. f_equal.
        rewrite length_app. cbn [List.length].
        set (r := loop func uniform c fuel (retries + 1) (S ncalls) _) in *.
        replace (pred (calls r) - ncalls)%nat
          with (S (pred (calls r) - S ncalls)) by lia.
        cbn [waits app]. do 2 f_equal. lia.
    + cbn [calls sleeps final]. unfold decided. cbn [calls final pred].
      rewrite Nat.sub_diag. cbn [waits]. rewrite List.app_nil_r.
      split; [lia|]. split; [reflexivity|]. split; [lia|].
      split; [intros j Hj; apply Hq; lia|]. eauto.
Qed.

Lemma retry_accounts :
  let r := retry_for_rate_limit_per_minute func uniform c in
  (Z.of_nat (calls r) <= Z.max 0 (max_retries c))%Z
  /\ sleeps r = waits uniform c 0 0 (pred (calls r))
  /\ (forall j, (S j < calls r)%nat -> func j = RaisesResourceExhausted)
  /\ decided r.
Proof.
  destruct (loop_accounts (Z.to_nat (max_retries c)) 0 0 [])
    as (H1 & H2 & _ & H4 & H5); [reflexivity | now left | lia | intros j Hj; lia |].
  cbv zeta. unfold retry_for_rate_limit_per_minute.
  rewrite Nat.sub_0_r in H2. cbn [app List.length] in H2. auto.
Qed.

End RetryRun.


Definition no_jitter : nat -> Float.float := fun _ => Float.zero.





(** C7.  The wrapped operation is called again only after a quota
    failure: when its first [k] calls fail on quota and the next one
    returns or raises another error, that answer or error is the result,
    after exactly [k + 1] calls and [k] sleeps (none follows the other
    error); when [max_retries] calls in a row fail on quota the result is
    [ResourceExhausted] after exactly [max_retries] calls; and the loop
    always ends. *)
Theorem retry_error_taxonomy
  (A : Type) (func : nat -> Retry.outcome A) (uniform : nat -> Float.float)
  (c : Retry.config) :
  let r := Retry.retry_for_rate_limit_per_minute func uniform c in
  Retry.final r <> Retry.OutOfFuel
  /\ (forall k a,
        (Z.of_nat k < Retry.max_retries c)%Z ->
        (forall j, (j < k)%nat -> func j = Retry.RaisesResourceExhausted) ->
        func k = Retry.Returns a ->
        Retry.final r = Retry.Ok a /\ Retry.calls r = S k
        /\ List.length (Retry.sleeps r) = k)
  /\ (forall k e,
        (Z.of_nat k < Retry.max_retries c)%Z ->
        (forall j, (j < k)%nat -> func j = Retry.RaisesResourceExhausted) ->
        func k = Retry.RaisesOther e ->
        Retry.final r = Retry.OtherError e /\ Retry.calls r = S k
        /\ List.length (Retry.sleeps r) = k)
  /\ ((1 <= Retry.max_retries c)%Z ->
      (forall j, (Z.of_nat j < Retry.max_retries c)%Z ->
                 func j = Retry.RaisesResourceExhausted) ->
      Retry.final r = Retry.ResourceExhausted
      /\ Retry.calls r = Z.to_nat (Retry.max_retries c)).
Proof.
  intros r. subst r. split; [apply RetryFacts.retry_fuel|]. split; [|split].
  - intros k a Hk Hq Hr.
    rewrite (RetryFacts.retry_returns func uniform c k a Hk Hq Hr). simpl.
    now rewrite RetryFacts.length_waits.
  - intros k e Hk Hq Hr.
    rewrite (RetryFacts.retry_other_error func uniform c k e Hk Hq Hr). simpl.
    now rewrite RetryFacts.length_waits.
  - intros Hm Hq.
    now rewrite (RetryFacts.retry_exhausted func uniform c Hm Hq).
Qed.

(** two quota failures, then an error of another kind *)
Definition quota_twice_then_error : nat -> Retry.outcome string :=
  fun k => if (k <? 2)%nat then Retry.RaisesResourceExhausted
           else Retry.RaisesOther "ValueError".

Lemma retry_error_taxonomy_witness :
  Retry.final (Retry.retry_for_rate_limit_per_minute
                 quota_twice_then_error no_jitter Retry.defaults)
  = Retry.OtherError "ValueError"
  /\ Retry.calls (Retry.retry_for_rate_limit_per_minute
                    quota_twice_then_error no_jitter Retry.defaults) = 3%nat
  /\ List.length
       (Retry.sleeps (Retry.retry_for_rate_limit_per_minute
                        quota_twice_then_error no_jitter Retry.defaults)) = 2%nat.
Proof.
  destruct (retry_error_taxonomy string quota_twice_then_error no_jitter
              Retry.defaults) as (_ & _ & H & _).
  apply (H 2%nat "ValueError").
  - simpl. lia.
  - intros j Hj. unfold quota_twice_then_error.
    destruct (Nat.ltb_spec j 2); [reflexivity | lia].
  - reflexivity.
Defined.

(** * The research loop *)

Section Prompts.
Import Str StrFacts Research ResearchFacts.
Context {info : Type}.
Variable W : world info.
Variable opts : options.

Lemma items_holds q l :
  In q l -> exists P Q, Json.items l = P ++ Json.dumps_str q ++ Q.
Proof.
  induction l as [|x l IH]; intros H; [destruct H|].
  destruct l as [|y l].
  - destruct H as [<- | []]. exists "    ", "".
    cbn [Json.items]. now rewrite StrFacts.app_nil_r.
  - change (Json.items (x :: y :: l))
      with ("    " ++ Json.dumps_str x ++ "," ++ Json.newline
            ++ Json.items (y :: l)).
    destruct H as [<- | H].
    + exists "    ", ("," ++ Json.newline ++ Json.items (y :: l)). reflexivity.
    + destruct (IH H) as (P & Q & E). rewrite E.
      exists ("    " ++ Json.dumps_str x ++ "," ++ Json.newline ++ P), Q.
      now rewrite !StrFacts.app_assoc.
Qed.

Lemma dumps_list_holds q l :
  In q l -> exists P Q, Json.dumps_list l = P ++ Json.dumps_str q ++ Q.
Proof.
  intros H. destruct (items_holds q l H) as (P & Q & E).
  destruct l as [|x l]; [destruct H|].
  exists ("[" ++ Json.newline ++ P), (Q ++ Json.newline ++ "]").
  unfold Json.dumps_list. rewrite E. now rewrite !StrFacts.app_assoc.
Qed.

(** every query of the history is in the planner prompt, as
    [json.dumps] writes it *)
Lemma query_prompt_holds s q :
  In q (history_query s) ->
  occurs (Json.dumps_str q) (query_prompt W opts s) = true.
Proof.
  intros H. destruct (dumps_list_holds q _ H) as (P & Q & E).
  unfold query_prompt. rewrite E.
  set (a := "This is search " ++ str_of_Z (search_iteration s)).
  repeat match goal with
         | |- occurs _ (?x ++ (P ++ _ ++ Q) ++ ?y) = true =>
             apply occurs_inside
         | |- occurs ?n (?x ++ ?y ++ ?z) = true =>
             rewrite <- (StrFacts.app_assoc x y z)
         end.
Qed.

Lemma passes_history n : forall s s',
  passes W opts n s = Some s' ->
  exists l, history_query s' = (history_query s ++ l)%list.
Proof.
  induction n as [|n IH]; intros s s' H; simpl in H.
  - inversion H. exists []. now rewrite List.app_nil_r.
  - destruct (iteration_history_grows W opts s) as (l1 & E1).
    destruct (iteration W opts s) as [s1| | |]; try discriminate.
    cbn [flow_state] in E1. destruct (IH _ _ H) as (l2 & E2).
    exists (l1 ++ l2)%list. now rewrite E2, E1, <- List.app_assoc.
Qed.

End Prompts.

(** C10.  The queries of a plan go into [history_query] whole, before
    the filter runs and whatever becomes of the pass, so a query that the
    filter then excludes as an already-visited URL is recorded too; and
    after any number of further complete passes each query of the plan
    is still in [history_query] and is written, as [json.dumps] writes
    it, in the planner prompt of the next pass. *)
Theorem history_before_filter
  {info : Type} (W : Research.world info) (opts : Research.options)
  (s0 : Research.state info) (content p : string) (qs : list string) :
  fst (Research.ask_planner W opts s0) = Retry.Ok (Some content) ->
  Research.decode_plan W content = Research.Plan p qs ->
  Research.history_query (Research.flow_state (Research.iteration W opts s0))
  = (Research.history_query s0 ++ qs)%list
  /\ forall n s q,
       Research.passes W opts (S n) s0 = Some s -> In q qs ->
       In q (Research.history_query s)
       /\ Research.planner_prompts
            (Research.trace (Research.flow_state (Research.iteration W opts s)))
          = (Research.planner_prompts (Research.trace s)
             ++ [Research.query_prompt W opts (Research.bump s)])%list
       /\ Str.occurs (Json.dumps_str q)
            (Research.query_prompt W opts (Research.bump s)) = true.
Proof.
  intros Ha Hd.
  pose proof (ResearchFacts.iteration_history W opts s0 content p qs Ha Hd) as Hh.
  split; [exact Hh|].
  intros n s q Hp Hq. cbn [Research.passes] in Hp.
  destruct (Research.iteration W opts s0) as [s1| | |] eqn:Ei; try discriminate.
  cbn [Research.flow_state] in Hh.
  destruct (passes_history W opts n s1 s Hp) as (l & El).
  assert (Hin : In q (Research.history_query s)).
  { rewrite El, Hh. apply in_or_app. left. apply in_or_app. now right. }
  split; [exact Hin|]. split.
  - destruct (ResearchFacts.iteration_added W opts s)
      as (rc & ag & op & cl & evs & T & P & _).
    now rewrite T, ResearchFacts.planner_prompts_app, P.
  - now apply query_prompt_holds.
Qed.

Lemma history_before_filter_witness :
  In "http://a.com/x?y=1"
     (Research.history_query
        (Research.flow_state
           (Research.iteration Scenario.same_url_again Scenario.opts
              (Research.flow_state
                 (Research.iteration Scenario.same_url_again Scenario.opts
                    (Research.initial Scenario.task)))))).
Proof.
  destruct (history_before_filter Scenario.same_url_again Scenario.opts
              (Research.flow_state
                 (Research.iteration Scenario.same_url_again Scenario.opts
                    (Research.initial Scenario.task)))
              "plan-same-url" "p" ["http://a.com/x/"; "http://a.com/x?y=1"])
    as (H & _); [reflexivity | reflexivity |].
  rewrite H. apply in_or_app. right. right. now left.
Defined.

(** C1.  The filter dispatches no URL-shaped query whose normalized form
    is already in [visited_links], records the normalized form of every
    URL-shaped query it accepts, never removes a link, accepts nothing
    the planner did not propose, and accepts at most one query for each
    normalized URL.  In a pass of the loop the agents are constructed
    for the accepted queries and for nothing else, and the links the
    filter recorded are in [visited_links] however the pass ends, also
    when an agent raises. *)
Theorem visited_link_reservation
  {info : Type} (W : Research.world info) (opts : Research.options) :
  (forall qs visited,
     let fv := Research.filter_queries W qs visited in
     (forall q, In q (fst fv) -> Research.url_shaped W q = true ->
        Research.normalize_url W q ∉ visited
        /\ Research.normalize_url W q ∈ snd fv)
     /\ visited ⊆ snd fv
     /\ (forall q, In q (fst fv) -> In q qs)
     /\ NoDup (List.map (Research.normalize_url W)
                        (List.filter (Research.url_shaped W) (fst fv))))
  /\ (forall s0,
        let s' := Research.flow_state (Research.iteration W opts s0) in
        exists evs,
          Research.trace s' = (Research.trace s0 ++ evs)%list
          /\ (Research.dispatched evs = []
              \/ exists content p qs,
                   fst (Research.ask_planner W opts s0)
                   = Retry.Ok (Some content)
                   /\ Research.decode_plan W content = Research.Plan p qs
                   /\ Research.dispatched evs
                      = fst (Research.filter_queries W qs
                               (Research.visited_links s0))
                   /\ snd (Research.filter_queries W qs
                             (Research.visited_links s0))
                      ⊆ Research.visited_links s')).
Proof.
  split.
  - intros qs visited fv.
    destruct (ResearchFacts.filter_queries_inv W qs visited)
      as (Hnd & Hsub & Hall).
    fold fv in Hnd, Hsub, Hall.
    split; [|split; [exact Hsub | split; [|exact Hnd]]].
    + intros q Hq Hs. destruct (Hall q Hq Hs). split; assumption.
    + intros q Hq.
      destruct (ResearchFacts.filter_fold_from W qs ([], visited) q Hq)
        as [[] | H]. exact H.
  - intros s0 s'. subst s'.
    destruct (ResearchFacts.iteration_spec W opts s0) as (_ & _ & [H | H]).
    + destruct H as (_ & _ & _ & _ & (evs & T & _ & _ & _ & D & _) & _).
      exists evs. split; [exact T | now left].
    + destruct H as (content & p & qs & Ha & Hd & _ & H). cbv zeta in H.
      destruct H as (_ & _ & Hv & _ & rc & cl & (evs & T & _ & _ & _ & D & _) & _).
      exists evs. split; [exact T|]. right. exists content, p, qs. auto.
Qed.

Lemma visited_link_reservation_witness :
  Research.normalize_url Scenario.same_url_again "http://a.com/x/"
  ∈ snd (Research.filter_queries Scenario.same_url_again
           ["http://a.com/x/"; "http://a.com/x?y=1"; "news"] ∅).
Proof.
  destruct (visited_link_reservation Scenario.same_url_again Scenario.opts)
    as (H & _).
  destruct (H ["http://a.com/x/"; "http://a.com/x?y=1"; "news"] ∅)
    as (H1 & _).
  apply (H1 "http://a.com/x/"); [vm_compute; now left | reflexivity].
Defined.

(** C2, as amended.  From the [try] on, with a [finally] whose
    [browser.close()] returns, the call returns a pair.  When the loop
    ends at the iteration cap or by one of its [break]s (an empty query
    list, an answer of the planner that is absent or does not parse, an
    absent answer of the recorder, every query an already visited URL)
    and [record_infos.json] can be written, the report prompt is sent
    exactly once, built from the state the loop ended in.  When a record
    cannot be encoded for that file, the write raises before the report
    prompt: no report prompt is sent and the call returns the empty text
    and no path.  Whatever exception the report generation raises, the
    call returns the empty text and no path.  When an exception ends the
    loop, the report prompt is not sent and the call returns the empty
    text and no path.  What is returned is the empty text and no path,
    or the text of the report with the path of the file it was written
    to. *)
Theorem report_runs_unless_the_loop_raises
  {info : Type} (W : Research.world info) (opts : Research.options)
  (task : string) :
  let o := Research.deep_research W opts task in
  let tr := Research.trace (Research.final_state o) in
  let e := Research.search_loop W opts
             (Z.to_nat (Research.max_search_iterations opts))
             (Research.initial task) in
  Research.returned o <> None
  /\ Research.out_of_fuel e = false
  /\ (forall s, e = Research.CapReached s \/ e = Research.Broke s ->
        (forallb (Research.encodable W) (Research.history_infos s) = true ->
         Research.report_prompts tr = [Research.report_prompt W s])
        /\ (forallb (Research.encodable W) (Research.history_infos s) = false ->
            Research.report_prompts tr = []
            /\ Research.returned o = Some (EmptyString, None))
        /\ (forall x s', fst (Research.report W opts s) = Research.Raise x s' ->
            Research.returned o = Some (EmptyString, None)))
  /\ (forall x s, e = Research.Raised x s ->
        Research.report_prompts tr = []
        /\ Research.returned o = Some (EmptyString, None))
  /\ (Research.returned o = Some (EmptyString, None)
      \/ exists content,
           Research.returned o
           = Some (content,
                   Some (Research.path_join (Research.save_dir opts)
                                            "final_report.md"))
           /\ In (Research.EvSaveReport
                    (Research.path_join (Research.save_dir opts)
                                        "final_report.md") content) tr).
Proof.
  intros o tr e. subst o tr. unfold Research.deep_research. fold e.
  destruct (ResearchFacts.search_loop_spec W opts
              (Z.to_nat (Research.max_search_iterations opts))
              (Research.initial task))
    as (Hfuel & pl & rc & ag & op & cl & (evs & T & _ & _ & Hrp & _)).
  fold e in Hfuel, T. cbn [Research.initial Research.trace app] in T.
  assert (Hf : Research.out_of_fuel e = false).
  { apply Hfuel. cbn [Research.initial Research.search_iteration]. lia. }
  assert (Hrep : forall s, Research.exit_state e = s ->
            Research.report_prompts (Research.trace s) = []).
  { intros s <-. now rewrite T. }
  assert (Hafter : forall s,
    Research.exit_state e = s ->
    let '(ret, s') :=
      match Research.report W opts s with
      | (Research.Next s', res) => (Some res, s')
      | (Research.Break s', _) | (Research.Raise _ s', _) =>
          (Some (EmptyString, None), s')
      | (Research.Stuck s', _) => (None, s')
      end in
    ret <> None
    /\ Research.report_prompts
         (Research.trace (Research.emit [Research.EvBrowserClose] s'))
       = (if forallb (Research.encodable W) (Research.history_infos s)
          then [Research.report_prompt W s] else [])
    /\ (forallb (Research.encodable W) (Research.history_infos s) = false ->
        ret = Some (EmptyString, None))
    /\ (forall x s'', fst (Research.report W opts s) = Research.Raise x s'' ->
        ret = Some (EmptyString, None))
    /\ (ret = Some (EmptyString, None)
        \/ exists content,
             ret = Some (content,
                         Some (Research.path_join (Research.save_dir opts)
                                                  "final_report.md"))
             /\ In (Research.EvSaveReport
                      (Research.path_join (Research.save_dir opts)
                                          "final_report.md") content)
                   (Research.trace (Research.emit [Research.EvBrowserClose] s')))).
  { intros s Hs.
    destruct (ResearchFacts.report_spec W opts s)
      as ((evs' & T' & _ & _ & R' & _) & Hst & Hnn & Hres).
    pose proof (ResearchFacts.report_unwritable W opts s) as Hun.
    destruct (Research.report W opts s) as [f res]. cbn [fst snd] in *.
    assert (Hp : forall s', Research.flow_state f = s' ->
              Research.report_prompts
                (Research.trace (Research.emit [Research.EvBrowserClose] s'))
              = (if forallb (Research.encodable W) (Research.history_infos s)
                 then [Research.report_prompt W s] else [])).
    { intros s' <-. cbn [Research.emit Research.trace].
      rewrite ResearchFacts.report_prompts_app, T',
        ResearchFacts.report_prompts_app, R', (Hrep s Hs).
      cbn [Research.report_prompts app]. now rewrite app_nil_r. }
    destruct f as [s'|s'|x s'|s'];
      cbn [Research.flow_state Research.is_stuck Research.is_next] in *;
      try discriminate.
    - split; [discriminate|]. split; [now apply Hp|].
      split; [intros Hb; specialize (Hun Hb); discriminate|].
      split; [discriminate|].
      destruct Hres as [-> | (content & -> & Hin)]; [now left|].
      right. exists content. split; [reflexivity|].
      cbn [Research.emit Research.trace]. apply in_or_app. now left.
    - split; [discriminate|]. split; [now apply Hp|].
      split; [reflexivity|]. split; [reflexivity | now left].
    - split; [discriminate|]. split; [now apply Hp|].
      split; [reflexivity|]. split; [reflexivity | now left]. }
  assert (Hcases : forall s, e = Research.CapReached s \/ e = Research.Broke s ->
            Research.exit_state e = s).
  { intros s [-> | ->]; reflexivity. }
  split; [|split; [exact Hf|split; [|split]]].
  - destruct e as [s|s|x s|s]; cbn [Research.out_of_fuel] in Hf;
      try discriminate.
    + pose proof (Hafter s eq_refl) as H.
      destruct (match Research.report W opts s with
                | (Research.Next s', res) => (Some res, s')
                | (Research.Break s', _) | (Research.Raise _ s', _) =>
                    (Some (EmptyString, None), s')
                | (Research.Stuck s', _) => (None, s')
                end) as [ret s']. cbn [Research.returned]. tauto.
    + pose proof (Hafter s eq_refl) as H.
      destruct (match Research.report W opts s with
                | (Research.Next s', res) => (Some res, s')
                | (Research.Break s', _) | (Research.Raise _ s', _) =>
                    (Some (EmptyString, None), s')
                | (Research.Stuck s', _) => (None, s')
                end) as [ret s']. cbn [Research.returned]. tauto.
  - intros s He. pose proof (Hafter s (Hcases s He)) as H.
    destruct He as [-> | ->];
      destruct (match Research.report W opts s with
                | (Research.Next s', res) => (Some res, s')
                | (Research.Break s', _) | (Research.Raise _ s', _) =>
                    (Some (EmptyString, None), s')
                | (Research.Stuck s', _) => (None, s')
                end) as [ret s'];
      cbn [Research.final_state Research.returned];
      destruct H as (_ & Hp & Hb & Hx & _);
      (split; [intros Eb; now rewrite Eb in Hp|]);
      (split; [intros Eb; split; [now rewrite Eb in Hp | now apply Hb]|]);
      exact Hx.
  - intros x s ->. cbn [Research.final_state Research.returned].
    split; [|reflexivity]. cbn [Research.emit Research.trace].
    rewrite ResearchFacts.report_prompts_app, (Hrep s eq_refl). reflexivity.
  - destruct e as [s|s|x s|s]; cbn [Research.out_of_fuel] in Hf;
      try discriminate.
    + pose proof (Hafter s eq_refl) as H.
      destruct (match Research.report W opts s with
                | (Research.Next s', res) => (Some res, s')
                | (Research.Break s', _) | (Research.Raise _ s', _) =>
                    (Some (EmptyString, None), s')
                | (Research.Stuck s', _) => (None, s')
                end) as [ret s']. cbn [Research.returned Research.final_state].
      tauto.
    + pose proof (Hafter s eq_refl) as H.
      destruct (match Research.report W opts s with
                | (Research.Next s', res) => (Some res, s')
                | (Research.Break s', _) | (Research.Raise _ s', _) =>
                    (Some (EmptyString, None), s')
                | (Research.Stuck s', _) => (None, s')
                end) as [ret s']. cbn [Research.returned Research.final_state].
      tauto.
    + cbn [Research.returned]. now left.
Qed.

Lemma report_runs_unless_the_loop_raises_witness :
  (Research.report_prompts
     (Research.trace
        (Research.final_state
           (Research.deep_research Cases.lone_surrogate Scenario.opts
              Scenario.task))) = []
   /\ Research.returned
        (Research.deep_research Cases.lone_surrogate Scenario.opts
           Scenario.task) = Some (EmptyString, None))
  /\ Research.report_prompts
       (Research.trace
          (Research.final_state
             (Research.deep_research Scenario.planner_fails Scenario.opts
                Scenario.task))) = []
  /\ Research.returned
       (Research.deep_research Scenario.planner_fails Scenario.opts
          Scenario.task) = Some (EmptyString, None).
Proof.
  split.
  - destruct (report_runs_unless_the_loop_raises Cases.lone_surrogate
                Scenario.opts Scenario.task) as (_ & _ & H & _).
    destruct (H (Research.exit_state
                   (Research.search_loop Cases.lone_surrogate Scenario.opts 10
                      (Research.initial Scenario.task))))
      as (_ & H2 & _).
    + right. vm_compute. reflexivity.
    + apply H2. vm_compute. reflexivity.
  - destruct (report_runs_unless_the_loop_raises Scenario.planner_fails
                Scenario.opts Scenario.task) as (_ & _ & _ & H & _).
    eapply H. vm_compute. reflexivity.
Defined.

(** C2 as stated fails: an error that is no quota error in the first
    call of the model ends the loop by an exception, and the report
    prompt is never sent. *)
Lemma report_skipped_on_internal_error :
  Research.search_loop Scenario.planner_fails Scenario.opts 10
    (Research.initial Scenario.task)
  = Research.Raised "ConnectionError"
      (Research.flow_state
         (Research.iteration Scenario.planner_fails Scenario.opts
            (Research.initial Scenario.task)))
  /\ List.length
       (Research.report_prompts
          (Research.trace
             (Research.final_state
                (Research.deep_research Scenario.planner_fails Scenario.opts
                   Scenario.task)))) <> 1%nat.
Proof. split; [vm_compute; reflexivity | vm_compute; discriminate]. Qed.

(** C5, as amended.  When the first pass of the loop reaches its end,
    the cap allows a second pass, and the planner's answer in the second
    pass, after whatever quota retries it takes, is a plan with an empty
    list of queries, the body of the loop is entered exactly twice, so
    the planner prompt is issued twice; the agents are dispatched and
    the recorder is asked in the first pass only, since the second pass
    leaves the loop before a context is opened; every context of the run
    is closed; and the report prompt is sent once when the records of
    the first pass can be written to [record_infos.json], and not at all
    when they cannot. *)
Theorem empty_plan_ends_the_loop
  {info : Type} (W : Research.world info) (opts : Research.options)
  (task : string) (s1 : Research.state info) (content p : string) :
  (2 <= Research.max_search_iterations opts)%Z ->
  Research.iteration W opts (Research.initial task) = Research.Next s1 ->
  fst (Research.ask_planner W opts s1) = Retry.Ok (Some content) ->
  Research.decode_plan W content = Research.Plan p [] ->
  let tr := Research.trace
              (Research.final_state (Research.deep_research W opts task)) in
  List.length (Research.planner_prompts tr) = 2%nat
  /\ List.length (Research.recorder_prompts tr) = 1%nat
  /\ (forallb (Research.encodable W) (Research.history_infos s1) = true ->
      List.length (Research.report_prompts tr) = 1%nat)
  /\ (forallb (Research.encodable W) (Research.history_infos s1) = false ->
      Research.report_prompts tr = [])
  /\ Research.dispatched tr = Research.dispatched (Research.trace s1)
  /\ Research.dispatched tr <> []
  /\ Research.opened tr = Research.opened (Research.trace s1)
  /\ Research.closed tr = Research.opened tr.
Proof.
  intros Hmax H1 Ha Hd tr. subst tr.
  destruct (ResearchFacts.iteration_spec W opts (Research.initial task))
    as (I1 & _ & I).
  rewrite H1 in I1, I.
  cbn [Research.flow_state Research.is_next Research.initial
       Research.search_iteration] in I1.
  cbn [Research.flow_state Research.is_next] in I.
  destruct I as [(_ & _ & _ & _ & _ & ?) | I]; [discriminate|].
  destruct I as (c0 & p0 & qs & _ & _ & _ & I). cbv zeta in I.
  destruct I as (_ & _ & _ & _ & rc & cl & (evs1 & T1 & P1 & R1 & O1 & D1 & Op1 & Cl1)
                 & _ & _ & Hn).
  destruct (Hn eq_refl) as (Hrc & Hcl & Hne).
  cbn [Research.initial Research.trace Research.contexts_opened
       Research.visited_links app] in T1, D1, Op1, Cl1, Hcl, Hne.
  pose proof (ResearchFacts.iteration_empty_plan W opts s1 content p Ha Hd) as H2.
  destruct (ResearchFacts.ask_planner_spec W opts s1)
    as (_ & _ & _ & _ & Hh & _ & _ & _ & (evs2 & T2 & P2 & R2 & O2 & D2 & Op2 & Cl2)).
  set (s2 := snd (Research.ask_planner W opts s1)) in *.
  destruct (ResearchFacts.report_spec W opts s2)
    as ((evs3 & T3 & P3 & R3 & O3 & D3 & Op3 & Cl3) & _).
  rewrite Hh in O3.
  assert (E : Research.final_state (Research.deep_research W opts task)
              = Research.emit [Research.EvBrowserClose]
                  (Research.flow_state (fst (Research.report W opts s2)))).
  { unfold Research.deep_research.
    destruct (Z.to_nat (Research.max_search_iterations opts))
      as [|[|n]] eqn:En; [lia | lia |].
    assert (L : Research.search_loop W opts (S (S n)) (Research.initial task)
                = Research.Broke s2).
    { cbn [Research.search_loop].
      replace (Research.search_iteration (Research.initial task)
               <? Research.max_search_iterations opts)%Z with true
        by (symmetry; apply Z.ltb_lt;
            cbn [Research.initial Research.search_iteration]; lia).
      rewrite H1.
      replace (Research.search_iteration s1
               <? Research.max_search_iterations opts)%Z with true
        by (symmetry; apply Z.ltb_lt; lia).
      now rewrite H2. }
    rewrite L.
    destruct (Research.report W opts s2) as [[s'|s'|x s'|s'] res];
      reflexivity. }
  rewrite E. cbn [Research.emit Research.trace].
  rewrite T3, T2, T1.
  rewrite !ResearchFacts.planner_prompts_app, !ResearchFacts.recorder_prompts_app,
    !ResearchFacts.report_prompts_app, !ResearchFacts.dispatched_app,
    !ResearchFacts.opened_app, !ResearchFacts.closed_app.
  rewrite P1, P2, P3, R1, R2, R3, O1, O2, O3, D1, D2, D3, Op1, Op2, Op3,
    Cl1, Cl2, Cl3.
  cbn. rewrite !List.app_nil_r.
  split; [reflexivity|]. split; [exact Hrc|].
  split; [intros Eb; now rewrite Eb|].
  split; [intros Eb; now rewrite Eb|].
  split; [reflexivity|]. split; [exact Hne|]. split; [reflexivity|].
  exact Hcl.
Qed.

Lemma empty_plan_ends_the_loop_witness :
  List.length
    (Research.planner_prompts
       (Research.trace
          (Research.final_state
             (Research.deep_research Cases.quota_before_empty_plan
                Scenario.opts Scenario.task)))) = 2%nat
  /\ List.length
       (Research.recorder_prompts
          (Research.trace
             (Research.final_state
                (Research.deep_research Cases.quota_before_empty_plan
                   Scenario.opts Scenario.task)))) = 1%nat
  /\ List.length
       (Research.report_prompts
          (Research.trace
             (Research.final_state
                (Research.deep_research Cases.quota_before_empty_plan
                   Scenario.opts Scenario.task)))) = 1%nat.
Proof.
  destruct (empty_plan_ends_the_loop Cases.quota_before_empty_plan
              Scenario.opts Scenario.task
              (Research.flow_state
                 (Research.iteration Cases.quota_before_empty_plan
                    Scenario.opts (Research.initial Scenario.task)))
              "plan-empty" "p")
    as (H1 & H2 & H3 & _);
    [vm_compute; discriminate | vm_compute; reflexivity
     | vm_compute; reflexivity | vm_compute; reflexivity |].
  split; [exact H1|]. split; [exact H2|].
  apply H3. vm_compute. reflexivity.
Defined.

(** C5 as stated fails: the planner proposes two queries in the first
    pass and none in the second; the agents run in the first pass and
    the recorder is asked once, not twice. *)
Lemma one_pass_of_dispatch_and_record :
  let tr := Research.trace
              (Research.final_state
                 (Research.deep_research Scenario.two_queries Scenario.opts
                    Scenario.task)) in
  Research.dispatched tr = ["alpha"; "beta"]
  /\ List.length (Research.planner_prompts tr) = 2%nat
  /\ List.length (Research.recorder_prompts tr) <> 2%nat
  /\ List.length (Research.report_prompts tr) = 1%nat.
Proof. vm_compute. repeat split; discriminate. Qed.

(** C6.  The contexts of a pass are opened for every proposed query and
    closed only when the batch of agents settles without an exception:
    when the filter leaves no query, or when an agent raises, none of
    the contexts of the pass is closed.  In the scripted run the planner
    proposes a URL in the first pass and two spellings of that URL in
    the second; the contexts 1 and 2 of the second pass are opened and
    never closed, though the run returns its report. *)
Theorem contexts_closed_only_when_batch_settles :
  (forall {info : Type} (W : Research.world info) (opts : Research.options)
          (s : Research.state info) (qs : list string),
     let f := Research.dispatch W opts s qs in
     exists evs,
       Research.trace (Research.flow_state f)
       = (Research.trace s ++ evs)%list
       /\ Research.opened evs
          = seq (Research.contexts_opened s) (List.length qs)
       /\ Research.closed evs
          = if Research.is_next f then Research.opened evs else [])
  /\ let o := Research.deep_research Scenario.same_url_again Scenario.opts
                Scenario.task in
     let tr := Research.trace (Research.final_state o) in
     Research.opened tr = [0; 1; 2]%nat
     /\ Research.closed tr = [0%nat]
     /\ Research.returned o = Some ("REPORT", Some "out/final_report.md").
Proof.
  split.
  - intros info W opts s qs f. subst f.
    destruct (ResearchFacts.dispatch_spec W opts s qs)
      as (_ & _ & _ & _ & _ & _ & H).
    destruct (Research.dispatch W opts s qs) as [s'|s'|x s'|s'];
      cbn [Research.flow_state Research.is_next] in *.
    + destruct H as (_ & evs & T & _ & _ & _ & _ & O & C).
      exists evs. rewrite O. auto.
    + destruct H as (_ & _ & evs & T & _ & _ & _ & _ & O & C).
      exists evs. rewrite O. auto.
    + destruct H as (_ & evs & T & _ & _ & _ & _ & O & C).
      exists evs. rewrite O. auto.
    + contradiction.
  - vm_compute. repeat split.
Qed.

(** C8.  The record prompt is built from the loop variables [task] and
    [query_result] as the pass left them: [task] is the last proposed
    query and [query_result] the final result of the last agent that
    returned a history.  In the scripted run, with the queries [alpha]
    and [beta] dispatched, the one record prompt names [beta] as the
    user instruction and holds the result of [beta] only. *)
Theorem recorder_prompt_of_two_queries :
  let tr := Research.trace
              (Research.final_state
                 (Research.deep_research Scenario.two_queries Scenario.opts
                    Scenario.task)) in
  Research.dispatched tr = ["alpha"; "beta"]
  /\ Research.recorder_prompts tr
     = ["User Instruction:beta. " ++ Research.nl
        ++ "Previous Recorded Information:" ++ Research.nl ++ " "
        ++ Json.dumps_str "[]" ++ " " ++ Research.nl
        ++ "Current Search Results: result of beta" ++ Research.nl]
  /\ List.map (Str.occurs "result of beta") (Research.recorder_prompts tr)
     = [true]
  /\ List.map (Str.occurs "result of alpha") (Research.recorder_prompts tr)
     = [false]
  /\ List.map (Str.occurs Scenario.task) (Research.recorder_prompts tr)
     = [false].
Proof. vm_compute. repeat split. Qed.

(** C9.  A pass with a non-empty plan leaves the last proposed query in
    the variable [task], whether that query passed the filter or not,
    and every later prompt is built from it.  In the scripted run the
    caller's task is the user instruction of the first planner prompt
    only: the record prompt, the second planner prompt and the report
    prompt name the query [beta]. *)
Theorem task_is_rebound_by_the_filter_loop :
  (forall {info : Type} (W : Research.world info) (opts : Research.options)
          (s0 : Research.state info),
     let s' := Research.flow_state (Research.iteration W opts s0) in
     Research.task s' = Research.task s0
     \/ exists content p qs,
          fst (Research.ask_planner W opts s0) = Retry.Ok (Some content)
          /\ Research.decode_plan W content = Research.Plan p qs
          /\ qs <> []
          /\ Research.task s' = List.last qs (Research.task s0))
  /\ let tr := Research.trace
                 (Research.final_state
                    (Research.deep_research Scenario.two_queries
                       Scenario.opts Scenario.task)) in
     List.map (Str.occurs ("User Instruction:" ++ Scenario.task))
              (Research.planner_prompts tr) = [true; false]
     /\ List.map (Str.occurs "User Instruction:beta ")
                 (Research.planner_prompts tr) = [false; true]
     /\ List.map (Str.occurs ("User Instruction:" ++ Scenario.task))
                 (Research.recorder_prompts tr) = [false]
     /\ List.map (Str.occurs "User Instruction:beta.")
                 (Research.recorder_prompts tr) = [true]
     /\ Research.report_prompts tr
        = ["User Instruction:beta " ++ Research.nl
           ++ " Search Information:" ++ Research.nl ++ " []"].
Proof.
  split.
  - intros info W opts s0 s'. subst s'.
    destruct (ResearchFacts.iteration_spec W opts s0) as (_ & _ & [H | H]).
    + left. tauto.
    + right. destruct H as (content & p & qs & Ha & Hd & Hq & H).
      cbv zeta in H. destruct H as (_ & Ht & _).
      exists content, p, qs. auto.
  - vm_compute. repeat split.
Qed.

(** * The whole run *)

Section WholeRun.
Import Research ResearchFacts.
Context {info : Type}.
Variable W : world info.
Variable opts : options.

(** what one pass adds, whatever its end *)
Lemma iteration_pass s0 :
  let f := iteration W opts s0 in
  let s' := flow_state f in
  exists rc ag op cl,
    added s0 s' [query_prompt W opts (bump s0)] rc [] ag op cl
    /\ (List.length rc <= 1)%nat
    /\ (contexts_opened s0 <= contexts_opened s')%nat
    /\ op = seq (contexts_opened s0) (contexts_opened s' - contexts_opened s0)
    /\ (cl = [] \/ cl = op)
    /\ (is_next f = true -> List.length rc = 1%nat /\ cl = op)
    /\ visited_links s0 ⊆ visited_links s'
    /\ search_iteration s' = (search_iteration s0 + 1)%Z
    /\ is_stuck f = false.
Proof.
  intros f s'. subst f s'.
  destruct (iteration_spec W opts s0) as (I1 & I2 & [H | H]).
  - destruct H as (_ & Hv & _ & Hc & Ha & Hn).
    exists [], [], [], []. rewrite Hc, Hv, Nat.sub_diag, Hn.
    split; [exact Ha|]. split; [simpl; lia|]. split; [lia|].
    split; [reflexivity|]. split; [now left|]. split; [discriminate|].
    split; [set_solver|]. split; assumption.
  - destruct H as (content & p & qs & _ & _ & _ & H). cbv zeta in H.
    destruct H as (_ & _ & Hv & Hc & rc & cl & Ha & Hl & Hcl & Hn).
    exists rc, (fst (filter_queries W qs (visited_links s0))),
      (seq (contexts_opened s0) (List.length qs)), cl.
    rewrite Hc.
    replace (contexts_opened s0 + List.length qs - contexts_opened s0)%nat
      with (List.length qs) by lia.
    split; [exact Ha|]. split; [exact Hl|]. split; [lia|].
    split; [reflexivity|]. split; [exact Hcl|].
    split; [intros E; destruct (Hn E) as (? & ? & _); auto|].
    split; [|split; assumption].
    destruct (filter_queries_inv W qs (visited_links s0)) as (_ & Hs & _).
    set_solver.
Qed.

(** what the loop adds up to its exit *)
Lemma search_loop_run fuel : forall s,
  let e := search_loop W opts fuel s in
  let s' := exit_state e in
  exists pl rc ag op cl,
    added s s' pl rc [] ag op cl
    /\ Z.of_nat (List.length pl) = (search_iteration s' - search_iteration s)%Z
    /\ (List.length rc <= List.length pl <= S (List.length rc))%nat
    /\ (contexts_opened s <= contexts_opened s')%nat
    /\ op = seq (contexts_opened s) (contexts_opened s' - contexts_opened s)
    /\ cl `sublist_of` op
    /\ (forall x, e = CapReached x ->
          cl = op /\ List.length rc = List.length pl)
    /\ visited_links s ⊆ visited_links s'
    /\ (search_iteration s' <=
        Z.max (search_iteration s) (max_search_iterations opts))%Z.
Proof.
  induction fuel as [|fuel IH]; intros s; cbn [search_loop].
  - assert (H0 : exists pl rc ag op cl,
      added s s pl rc [] ag op cl
      /\ Z.of_nat (List.length pl) = (search_iteration s - search_iteration s)%Z
      /\ (List.length rc <= List.length pl <= S (List.length rc))%nat
      /\ (contexts_opened s <= contexts_opened s)%nat
      /\ op = seq (contexts_opened s) (contexts_opened s - contexts_opened s)
      /\ cl `sublist_of` op
      /\ (cl = op /\ List.length rc = List.length pl)
      /\ visited_links s ⊆ visited_links s
      /\ (search_iteration s <=
          Z.max (search_iteration s) (max_search_iterations opts))%Z).
    { exists [], [], [], [], []. rewrite Nat.sub_diag.
      split; [apply added_refl|]. split; [simpl; lia|]. split; [simpl; lia|].
      split; [lia|]. split; [reflexivity|]. split; [constructor|].
      split; [auto|]. split; [set_solver | lia]. }
    destruct H0 as (pl & rc & ag & op & cl & A & B & C & D & E & F & G & H & I).
    destruct (search_iteration s <? max_search_iterations opts)%Z;
      cbn [exit_state]; exists pl, rc, ag, op, cl; auto 12.
  - assert (H0 : exists pl rc ag op cl,
      added s s pl rc [] ag op cl
      /\ Z.of_nat (List.length pl) = (search_iteration s - search_iteration s)%Z
      /\ (List.length rc <= List.length pl <= S (List.length rc))%nat
      /\ (contexts_opened s <= contexts_opened s)%nat
      /\ op = seq (contexts_opened s) (contexts_opened s - contexts_opened s)
      /\ cl `sublist_of` op
      /\ (cl = op /\ List.length rc = List.length pl)
      /\ visited_links s ⊆ visited_links s
      /\ (search_iteration s <=
          Z.max (search_iteration s) (max_search_iterations opts))%Z).
    { exists [], [], [], [], []. rewrite Nat.sub_diag.
      split; [apply added_refl|]. split; [simpl; lia|]. split; [simpl; lia|].
      split; [lia|]. split; [reflexivity|]. split; [constructor|].
      split; [auto|]. split; [set_solver | lia]. }
    destruct (search_iteration s <? max_search_iterations opts)%Z eqn:Et.
    2:{ destruct H0 as (pl & rc & ag & op & cl & A & B & C & D & E & F & G & H & I).
        cbn [exit_state]. exists pl, rc, ag, op, cl. auto 12. }
    clear H0. apply Z.ltb_lt in Et.
    destruct (iteration_pass s)
      as (rc & ag & op & cl & A & B & C & D & E & F & G & H & I).
    assert (Hstop : forall s1, flow_state (iteration W opts s) = s1 ->
      is_next (iteration W opts s) = false ->
      exists pl rc ag op cl,
        added s s1 pl rc [] ag op cl
        /\ Z.of_nat (List.length pl)
           = (search_iteration s1 - search_iteration s)%Z
        /\ (List.length rc <= List.length pl <= S (List.length rc))%nat
        /\ (contexts_opened s <= contexts_opened s1)%nat
        /\ op = seq (contexts_opened s) (contexts_opened s1 - contexts_opened s)
        /\ cl `sublist_of` op
        /\ visited_links s ⊆ visited_links s1
        /\ (search_iteration s1 <=
            Z.max (search_iteration s) (max_search_iterations opts))%Z).
    { intros s1 <- _. exists [query_prompt W opts (bump s)], rc, ag, op, cl.
      split; [exact A|]. split; [rewrite H; simpl; lia|].
      split; [simpl; lia|]. split; [exact C|]. split; [exact D|].
      split; [destruct E as [-> | ->]; [apply sublist_nil_l | reflexivity]|].
      split; [exact G | lia]. }
    destruct (iteration W opts s) as [s1|s1|x s1|s1] eqn:Ei;
      cbn [flow_state is_next is_stuck exit_state] in *; [| | |discriminate].
    + clear Hstop. destruct (F eq_refl) as (F1 & F2).
      destruct (IH s1)
        as (pl' & rc' & ag' & op' & cl' & A' & B' & C' & D' & E' & F' & G' & H' & I').
      exists ([query_prompt W opts (bump s)] ++ pl')%list, (rc ++ rc')%list,
        (ag ++ ag')%list, (op ++ op')%list, (cl ++ cl')%list.
      split; [exact (added_trans _ _ _ _ _ _ _ _ _ _ _ _ _ _ _ A A')|].
      rewrite !length_app. cbn [List.length].
      split; [lia|]. split; [lia|]. split; [lia|].
      split.
      { rewrite D, E'.
        replace (contexts_opened
                   (exit_state (search_loop W opts fuel s1)) - contexts_opened s)%nat
          with ((contexts_opened s1 - contexts_opened s)
                + (contexts_opened (exit_state (search_loop W opts fuel s1))
                   - contexts_opened s1))%nat by lia.
        rewrite seq_app. do 2 f_equal. lia. }
      split; [apply sublist_app; [rewrite F2; reflexivity | exact F']|].
      split.
      { intros x Hx. destruct (G' x Hx) as (-> & ->). rewrite F1, F2. auto. }
      split; [set_solver | lia].
    + destruct (Hstop s1 eq_refl eq_refl)
        as (pl0 & rc0 & ag0 & op0 & cl0 & ? & ? & ? & ? & ? & ? & ? & ?).
      exists pl0, rc0, ag0, op0, cl0. repeat (split; [assumption|]).
      split; [intros y; discriminate|]. split; assumption.
    + destruct (Hstop s1 eq_refl eq_refl)
        as (pl0 & rc0 & ag0 & op0 & cl0 & ? & ? & ? & ? & ? & ? & ? & ?).
      exists pl0, rc0, ag0, op0, cl0. repeat (split; [assumption|]).
      split; [intros y; discriminate|]. split; assumption.
Qed.

(** the report and the [finally] clause add no planner prompt, no
    record prompt, no agent and no context *)
Lemma final_trace task :
  let e := search_loop W opts (Z.to_nat (max_search_iterations opts))
             (initial task) in
  let o := deep_research W opts task in
  exists evs,
    trace (final_state o) = (trace (exit_state e) ++ evs)%list
    /\ planner_prompts evs = [] /\ recorder_prompts evs = []
    /\ dispatched evs = [] /\ opened evs = [] /\ closed evs = []
    /\ (List.length (report_prompts evs) <= 1)%nat
    /\ visited_links (final_state o) = visited_links (exit_state e).
Proof.
  intros e o. subst o. unfold deep_research. fold e.
  assert (Hrep : forall s, exit_state e = s ->
    exists evs,
      trace (emit [EvBrowserClose] (flow_state (fst (report W opts s))))
      = (trace (exit_state e) ++ evs)%list
      /\ planner_prompts evs = [] /\ recorder_prompts evs = []
      /\ dispatched evs = [] /\ opened evs = [] /\ closed evs = []
      /\ (List.length (report_prompts evs) <= 1)%nat
      /\ visited_links (emit [EvBrowserClose] (flow_state (fst (report W opts s))))
         = visited_links (exit_state e)).
  { intros s ->.
    destruct (report_spec W opts s) as ((evs & T & P & R & O & D & Op & Cl) & _).
    exists (evs ++ [EvBrowserClose])%list. cbn [emit trace visited_links].
    rewrite T, planner_prompts_app, recorder_prompts_app, dispatched_app,
      opened_app, closed_app, report_prompts_app, P, R, O, D, Op, Cl.
    split; [now rewrite <- List.app_assoc|].
    do 5 (split; [reflexivity|]).
    split; [destruct (forallb (encodable W) (history_infos s)); simpl; lia|].
    unfold report.
    destruct (forallb (encodable W) (history_infos s)); [|reflexivity].
    set (s2 := emit [EvReport _] (emit _ s)).
    destruct (invoke_spec W s2) as (_ & (_ & _ & _ & _ & V & _) & _).
    destruct (invoke W s2) as [r s3]. cbn [fst snd] in V.
    change (visited_links s2) with (visited_links s) in V.
    destruct r as [[c|]| |x|]; cbn [fst flow_state emit visited_links];
      exact V. }
  assert (Hnone : forall s, exit_state e = s ->
    exists evs,
      trace (emit [EvBrowserClose] s) = (trace (exit_state e) ++ evs)%list
      /\ planner_prompts evs = [] /\ recorder_prompts evs = []
      /\ dispatched evs = [] /\ opened evs = [] /\ closed evs = []
      /\ (List.length (report_prompts evs) <= 1)%nat
      /\ visited_links (emit [EvBrowserClose] s) = visited_links (exit_state e)).
  { intros s ->. exists [EvBrowserClose]. cbn [emit trace visited_links].
    do 6 (split; [reflexivity|]). split; [simpl; lia | reflexivity]. }
  destruct e as [s|s|x s|s]; cbn [exit_state] in *.
  - destruct (Hrep s eq_refl) as (evs & H).
    destruct (report W opts s) as [[s'|s'|x s'|s'] res];
      cbn [final_state fst flow_state] in *; eauto.
  - destruct (Hrep s eq_refl) as (evs & H).
    destruct (report W opts s) as [[s'|s'|x s'|s'] res];
      cbn [final_state fst flow_state] in *; eauto.
  - cbn [final_state]. now apply Hnone.
  - cbn [final_state]. now apply Hnone.
Qed.

End WholeRun.

(** X1.  However the model, the agents and the parsers behave, the
    planner is asked at most [max_search_iterations] times in a run,
    the recorder is asked in every pass but possibly the last, so as
    often as the planner or once less, and the report prompt is sent at
    most once. *)
Theorem prompts_are_bounded_by_the_cap
  {info : Type} (W : Research.world info) (opts : Research.options)
  (task : string) :
  let tr := Research.trace
              (Research.final_state (Research.deep_research W opts task)) in
  (Z.of_nat (List.length (Research.planner_prompts tr))
   <= Z.max 0 (Research.max_search_iterations opts))%Z
  /\ (List.length (Research.recorder_prompts tr)
      <= List.length (Research.planner_prompts tr)
      <= S (List.length (Research.recorder_prompts tr)))%nat
  /\ (List.length (Research.report_prompts tr) <= 1)%nat.
Proof.
  intros tr. subst tr.
  destruct (final_trace W opts task) as (evs & T & P & R & _ & _ & _ & L & _).
  destruct (search_loop_run W opts
              (Z.to_nat (Research.max_search_iterations opts))
              (Research.initial task))
    as (pl & rc & ag & op & cl & (evs0 & T0 & P0 & R0 & O0 & _) & B & C & _ & _ & _ & _ & _ & I).
  cbn [Research.initial Research.trace Research.search_iteration app] in T0, B, I.
  rewrite T, T0.
  rewrite !ResearchFacts.planner_prompts_app, !ResearchFacts.recorder_prompts_app,
    !ResearchFacts.report_prompts_app, P, R, P0, R0, O0, !List.app_nil_r.
  cbn [app]. split; [lia|]. split; [lia | exact L].
Qed.

(** X2.  The contexts of a run are numbered in the order they are
    opened, none is opened twice, none is closed twice, and only opened
    contexts are closed; when the loop ends at the iteration cap, every
    context that was opened has been closed. *)
Theorem contexts_are_closed_at_most_once
  {info : Type} (W : Research.world info) (opts : Research.options)
  (task : string) :
  let tr := Research.trace
              (Research.final_state (Research.deep_research W opts task)) in
  Research.opened tr = seq 0 (List.length (Research.opened tr))
  /\ NoDup (Research.closed tr)
  /\ Research.closed tr `sublist_of` Research.opened tr
  /\ forall s,
       Research.search_loop W opts
         (Z.to_nat (Research.max_search_iterations opts))
         (Research.initial task) = Research.CapReached s ->
       Research.closed tr = Research.opened tr.
Proof.
  intros tr. subst tr.
  destruct (final_trace W opts task) as (evs & T & _ & _ & _ & Op & Cl & _).
  destruct (search_loop_run W opts
              (Z.to_nat (Research.max_search_iterations opts))
              (Research.initial task))
    as (pl & rc & ag & op & cl & (evs0 & T0 & _ & _ & _ & _ & Op0 & Cl0)
        & _ & _ & _ & E & F & G & _).
  cbn [Research.initial Research.trace Research.contexts_opened app] in T0, E.
  rewrite T, T0.
  rewrite !ResearchFacts.opened_app, !ResearchFacts.closed_app, Op, Cl, Op0, Cl0,
    !List.app_nil_r.
  split; [rewrite E at 1; now rewrite E, length_seq|].
  split; [apply (sublist_NoDup cl op); [rewrite E; apply NoDup_seq | exact F]|].
  split; [exact F|]. intros s Hs. now destruct (G s Hs).
Qed.

(** X3.  A loop that may not run: with [max_search_iterations] at most
    0 no pass is made, no planner prompt is sent and no context is
    opened; the report prompt is still sent, once, with the caller's
    task and the empty list of records. *)
Theorem no_pass_without_budget
  {info : Type} (W : Research.world info) (opts : Research.options)
  (task : string) :
  (Research.max_search_iterations opts <= 0)%Z ->
  let tr := Research.trace
              (Research.final_state (Research.deep_research W opts task)) in
  Research.planner_prompts tr = []
  /\ Research.recorder_prompts tr = []
  /\ Research.opened tr = []
  /\ Research.report_prompts tr
     = ["User Instruction:" ++ task ++ " " ++ Research.nl
        ++ " Search Information:" ++ Research.nl ++ " "
        ++ Research.dumps_infos W []].
Proof.
  intros Hm tr. subst tr. unfold Research.deep_research.
  replace (Z.to_nat (Research.max_search_iterations opts)) with 0%nat by lia.
  cbn [Research.search_loop].
  replace (Research.search_iteration (Research.initial task)
           <? Research.max_search_iterations opts)%Z with false
    by (symmetry; apply Z.ltb_ge;
        cbn [Research.initial Research.search_iteration]; lia).
  destruct (ResearchFacts.report_spec W opts (Research.initial task))
    as ((evs & T & P & R & O & D & Op & Cl) & _).
  assert (E : forall ret s',
    Research.flow_state (fst (Research.report W opts (Research.initial task)))
    = s' ->
    Research.trace
      (Research.final_state
         (Research.mkOutcome ret (Research.emit [Research.EvBrowserClose] s')))
    = (evs ++ [Research.EvBrowserClose])%list).
  { intros ret s' <-. cbn [Research.final_state Research.emit Research.trace].
    now rewrite T. }
  assert (G : forall tr, tr = (evs ++ [Research.EvBrowserClose])%list ->
    Research.planner_prompts tr = []
    /\ Research.recorder_prompts tr = []
    /\ Research.opened tr = []
    /\ Research.report_prompts tr
       = ["User Instruction:" ++ task ++ " " ++ Research.nl
          ++ " Search Information:" ++ Research.nl ++ " "
          ++ Research.dumps_infos W []]).
  { intros tr ->.
    rewrite ResearchFacts.planner_prompts_app, ResearchFacts.recorder_prompts_app,
      ResearchFacts.opened_app, ResearchFacts.report_prompts_app, P, R, O, Op.
    repeat split. }
  destruct (Research.report W opts (Research.initial task))
    as [[s'|s'|x s'|s'] res]; apply G, E; reflexivity.
Qed.

Lemma no_pass_without_budget_witness :
  Research.planner_prompts
    (Research.trace
       (Research.final_state
          (Research.deep_research Scenario.two_queries
             (Research.mkOptions 0 "out") Scenario.task))) = [].
Proof.
  destruct (no_pass_without_budget Scenario.two_queries
              (Research.mkOptions 0 "out") Scenario.task) as (H & _);
    [simpl; lia | exact H].
Defined.

(** ** Runs in which no agent returns a history *)

Section SilentAgents.
Import Research ResearchFacts.
Context {info : Type}.
Variable W : world info.
Variable opts : options.
Hypothesis no_history : forall it i q, agent_run W it i q = AgentNone.






End SilentAgents.





(** X5.  Five quota failures of the model in a row on the first planner
    call exhaust the retries: the exception leaves the loop, so the
    branch for an absent planner answer is not taken, no report prompt
    is sent, the model was called exactly five times, and the call
    returns the empty text and no path. *)
Theorem quota_exhaustion_ends_the_run
  {info : Type} (W : Research.world info) (opts : Research.options)
  (task : string) :
  (1 <= Research.max_search_iterations opts)%Z ->
  (forall k, (k < 5)%nat ->
             Research.llm_invoke W k = Retry.RaisesResourceExhausted) ->
  let o := Research.deep_research W opts task in
  let tr := Research.trace (Research.final_state o) in
  Research.returned o = Some (EmptyString, None)
  /\ Research.llm_calls (Research.final_state o) = 5%nat
  /\ List.length (Research.planner_prompts tr) = 1%nat
  /\ Research.report_prompts tr = []
  /\ Research.opened tr = [].
Proof.
  intros Hm Hq o tr. subst o tr.
  assert (Hr : Retry.retry_for_rate_limit_per_minute
                 (fun k => Research.llm_invoke W (0 + k))
                 (fun k => Research.uniform W (0 + k)) Retry.defaults
               = Retry.mkRun Retry.ResourceExhausted 5
                   (Retry.waits (fun k => Research.uniform W (0 + k))
                                Retry.defaults 0 0 4)).
  { apply (RetryFacts.retry_exhausted
             (fun k => Research.llm_invoke W (0 + k))
             (fun k => Research.uniform W (0 + k)) Retry.defaults).
    - simpl. lia.
    - intros j Hj. apply Hq. simpl in Hj. lia. }
  assert (Hi : exists s, Research.iteration W opts (Research.initial task)
                         = Research.Raise "ResourceExhausted" s
                         /\ Research.llm_calls s = 5%nat).
  { unfold Research.iteration, Research.ask_planner, Research.invoke.
    cbn [Research.emit Research.bump Research.initial Research.llm_calls
         Research.draws].
    rewrite Hr. cbn [Retry.final Retry.calls]. eexists. split; reflexivity. }
  destruct Hi as (s & Hi & Hc).
  destruct (ResearchFacts.iteration_added W opts (Research.initial task))
    as (rc & ag & op & cl & Hadd).
  destruct (ResearchFacts.iteration_spec W opts (Research.initial task))
    as (_ & _ & Hcase).
  rewrite Hi in Hadd, Hcase. cbn [Research.flow_state] in Hadd, Hcase.
  unfold Research.deep_research.
  destruct (Z.to_nat (Research.max_search_iterations opts)) as [|n] eqn:En;
    [lia|].
  cbn [Research.search_loop].
  replace (Research.search_iteration (Research.initial task)
           <? Research.max_search_iterations opts)%Z with true
    by (symmetry; apply Z.ltb_lt;
        cbn [Research.initial Research.search_iteration]; lia).
  rewrite Hi.
  cbn [Research.returned Research.final_state Research.emit Research.trace
       Research.llm_calls].
  split; [reflexivity|]. split; [exact Hc|].
  destruct Hcase as [H | H].
  - destruct H as (_ & _ & _ & _ & (evs & T & P & R & O & D & Op & Cl) & _).
    cbn [Research.initial Research.trace app] in T. rewrite T.
    rewrite ResearchFacts.planner_prompts_app, ResearchFacts.report_prompts_app,
      ResearchFacts.opened_app, P, O, Op. repeat split.
  - exfalso. destruct H as (content & p & qs & Ha & _).
    unfold Research.ask_planner, Research.invoke in Ha.
    cbn [Research.emit Research.bump Research.initial Research.llm_calls
         Research.draws fst] in Ha.
    rewrite Hr in Ha. discriminate.
Qed.

Lemma quota_exhaustion_ends_the_run_witness :
  Research.returned
    (Research.deep_research Cases.quota_only Scenario.opts Scenario.task)
  = Some (EmptyString, None).
Proof.
  destruct (quota_exhaustion_ends_the_run Cases.quota_only Scenario.opts
              Scenario.task) as (H & _);
    [vm_compute; discriminate
     | intros k Hk; do 5 (destruct k as [|k]; [reflexivity|]); lia
     | exact H].
Defined.

(** ** What the loop keeps *)

Section Kept.
Import Research ResearchFacts.
Context {info : Type}.
Variable W : world info.
Variable opts : options.

Lemma search_loop_history fuel : forall s,
  exists l, history_query (exit_state (search_loop W opts fuel s))
            = (history_query s ++ l)%list.
Proof.
  induction fuel as [|fuel IH]; intros s; cbn [search_loop].
  - destruct (search_iteration s <? max_search_iterations opts)%Z;
      exists []; cbn [exit_state]; now rewrite List.app_nil_r.
  - destruct (search_iteration s <? max_search_iterations opts)%Z;
      [|exists []; cbn [exit_state]; now rewrite List.app_nil_r].
    destruct (iteration_history_grows W opts s) as (l1 & E1).
    destruct (iteration W opts s) as [s1|s1|x s1|s1];
      cbn [flow_state exit_state] in *; eauto.
    destruct (IH s1) as (l2 & E2). exists (l1 ++ l2)%list.
    now rewrite E2, E1, <- List.app_assoc.
Qed.

(** [n] complete passes are the first [n] passes of the loop *)
Lemma passes_loop n : forall fuel s0 s,
  passes W opts n s0 = Some s ->
  (search_iteration s0 + Z.of_nat n <= max_search_iterations opts)%Z ->
  (n <= fuel)%nat ->
  search_loop W opts fuel s0 = search_loop W opts (fuel - n) s
  /\ search_iteration s = (search_iteration s0 + Z.of_nat n)%Z.
Proof.
  induction n as [|n IH]; intros fuel s0 s H Hm Hf.
  - cbn [passes] in H. inversion H. subst s.
    rewrite Nat.sub_0_r. split; [reflexivity | lia].
  - cbn [passes] in H. destruct fuel as [|fuel]; [lia|].
    destruct (iteration_spec W opts s0) as (I1 & _).
    destruct (iteration W opts s0) as [s1| | |] eqn:Ei; try discriminate.
    cbn [flow_state] in I1.
    destruct (IH fuel s1 s H) as (E1 & E2); [lia | lia |].
    cbn [search_loop].
    replace (search_iteration s0 <? max_search_iterations opts)%Z with true
      by (symmetry; apply Z.ltb_lt; lia).
    rewrite Ei. cbn [Nat.sub]. split; [exact E1 | lia].
Qed.

(** the report and the [finally] clause leave the variables of the
    loop alone *)
Lemma final_vars task :
  let e := search_loop W opts (Z.to_nat (max_search_iterations opts))
             (initial task) in
  same_vars (exit_state e) (final_state (deep_research W opts task)).
Proof.
  intros e. unfold deep_research. fold e.
  assert (Hrep : forall s,
    same_vars s (emit [EvBrowserClose] (flow_state (fst (report W opts s))))).
  { intros s. unfold report.
    destruct (forallb (encodable W) (history_infos s)); [|repeat split].
    set (s2 := emit [EvReport _] (emit _ s)).
    destruct (invoke_spec W s2) as (_ & V & _).
    destruct (invoke W s2) as [r s3]. cbn [fst snd] in V.
    destruct r as [[c|]| |x|]; cbn [fst flow_state]; exact V. }
  destruct e as [s|s|x s|s]; cbn [exit_state].
  - pose proof (Hrep s) as H.
    destruct (report W opts s) as [[s'|s'|x s'|s'] res];
      cbn [final_state fst flow_state] in *; exact H.
  - pose proof (Hrep s) as H.
    destruct (report W opts s) as [[s'|s'|x s'|s'] res];
      cbn [final_state fst flow_state] in *; exact H.
  - cbn [final_state]. repeat split.
  - cbn [final_state]. repeat split.
Qed.

(** the filter, query by query *)
Definition plain (q : string) : bool := negb (url_shaped W q).

Lemma filter_fold_shape qs : forall acc,
  exists kept,
    fst (fold_left (filter_step W) qs acc) = (fst acc ++ kept)%list
    /\ kept `sublist_of` qs
    /\ List.filter plain kept = List.filter plain qs
    /\ forall x, x ∈ snd (fold_left (filter_step W) qs acc)
                 <-> x ∈ snd acc
                     \/ exists q, In q qs /\ url_shaped W q = true
                                  /\ normalize_url W q = x.
Proof.
  induction qs as [|q qs IH]; intros [f v]; cbn [fold_left fst snd].
  - exists []. rewrite List.app_nil_r. split; [reflexivity|].
    split; [constructor|]. split; [reflexivity|].
    intros x. split; [auto | intros [H | (q & [] & _)]; exact H].
  - unfold filter_step at 2 4. unfold plain at 2. cbn [List.filter].
    destruct (url_shaped W q) eqn:Es; cbn [negb].
    + destruct (bool_decide (normalize_url W q ∈ v)) eqn:Ev.
      * apply bool_decide_eq_true in Ev.
        destruct (IH (f, v)) as (kept & E & Hs & Hp & Hv). cbn [fst snd] in *.
        exists kept. split; [exact E|].
        split; [now apply sublist_cons|]. split; [exact Hp|].
        intros x. rewrite Hv. split.
        -- intros [H | (q' & H1 & H2 & H3)]; [now left|].
           right. exists q'. split; [now right | auto].
        -- intros [H | (q' & [<- | H1] & H2 & H3)]; [now left | |].
           ++ left. now rewrite <- H3.
           ++ right. eauto.
      * destruct (IH ((f ++ [q])%list, {[normalize_url W q]} ∪ v))
          as (kept & E & Hs & Hp & Hv). cbn [fst snd] in *.
        exists (q :: kept). split; [now rewrite E, <- List.app_assoc|].
        split; [now apply sublist_skip|].
        split; [cbn [List.filter]; unfold plain at 1; now rewrite Es|].
        intros x. rewrite Hv. split.
        -- intros [H | (q' & H1 & H2 & H3)].
           ++ apply elem_of_union in H as [H | H]; [|now left].
              apply elem_of_singleton in H. right. exists q.
              split; [now left | auto].
           ++ right. exists q'. split; [now right | auto].
        -- intros [H | (q' & [<- | H1] & H2 & H3)].
           ++ left. set_solver.
           ++ left. set_solver.
           ++ right. eauto.
    + destruct (IH ((f ++ [q])%list, v)) as (kept & E & Hs & Hp & Hv).
      cbn [fst snd] in *.
      exists (q :: kept). split; [now rewrite E, <- List.app_assoc|].
      split; [now apply sublist_skip|].
      split; [cbn [List.filter]; unfold plain at 1; rewrite Es; cbn [negb];
              now rewrite Hp|].
      intros x. rewrite Hv. split.
      * intros [H | (q' & H1 & H2 & H3)]; [now left|].
        right. exists q'. split; [now right | auto].
      * intros [H | (q' & [<- | H1] & H2 & H3)]; [now left | congruence |].
        right. eauto.
Qed.

(** the links the records add *)
Lemma record_fold_iff (infos : list info) : forall v x,
  x ∈ fold_left (record_step W) infos v
  <-> x ∈ v
      \/ exists i u, In i infos /\ info_url W i = Some u
                     /\ u <> "unknown" /\ normalize_url W u = x.
Proof.
  induction infos as [|i infos IH]; intros v x; cbn [fold_left].
  - split; [auto | intros [H | (i & u & [] & _)]; exact H].
  - rewrite IH. unfold record_step at 1.
    destruct (info_url W i) as [u|] eqn:Eu.
    + destruct (String.eqb u "unknown") eqn:Ek.
      * apply String.eqb_eq in Ek. split.
        -- intros [H | (j & w & H1 & H2)]; [now left|].
           right. exists j, w. split; [now right | exact H2].
        -- intros [H | (j & w & [<- | H1] & H2 & H3 & H4)]; [now left | |].
           ++ congruence.
           ++ right. eauto 6.
      * apply String.eqb_neq in Ek. split.
        -- intros [H | (j & w & H1 & H2)].
           ++ apply elem_of_union in H as [H | H]; [|now left].
              apply elem_of_singleton in H. right. exists i, u.
              split; [now left | auto].
           ++ right. exists j, w. split; [now right | exact H2].
        -- intros [H | (j & w & [<- | H1] & H2 & H3 & H4)].
           ++ left. set_solver.
           ++ left. replace w with u in * by congruence. set_solver.
           ++ right. eauto 6.
    + split.
      * intros [H | (j & w & H1 & H2)]; [now left|].
        right. exists j, w. split; [now right | exact H2].
      * intros [H | (j & w & [<- | H1] & H2 & H3 & H4)]; [now left | |].
        -- congruence.
        -- right. eauto 6.
Qed.

End Kept.

(** X6.  What [n] complete passes have put into [visited_links] and
    [history_query] is still there when the call returns, provided the
    cap allows [n] passes: no link is forgotten and no query leaves the
    history, and the [n]-th pass is the pass numbered [n]. *)
Theorem a_run_forgets_nothing
  {info : Type} (W : Research.world info) (opts : Research.options)
  (task : string) (n : nat) (s : Research.state info) :
  Research.passes W opts n (Research.initial task) = Some s ->
  (Z.of_nat n <= Research.max_search_iterations opts)%Z ->
  let s' := Research.final_state (Research.deep_research W opts task) in
  Research.search_iteration s = Z.of_nat n
  /\ Research.visited_links s ⊆ Research.visited_links s'
  /\ exists l, Research.history_query s'
               = (Research.history_query s ++ l)%list.
Proof.
  intros Hp Hn s'. subst s'.
  destruct (passes_loop W opts n (Z.to_nat (Research.max_search_iterations opts))
              (Research.initial task) s Hp) as (El & Ei);
    [cbn [Research.initial Research.search_iteration]; lia | lia |].
  cbn [Research.initial Research.search_iteration] in Ei.
  destruct (final_vars W opts task) as (_ & _ & Hh & _ & Hv & _).
  rewrite Hh, Hv, El.
  split; [lia|]. split.
  - destruct (search_loop_run W opts
                (Z.to_nat (Research.max_search_iterations opts) - n) s)
      as (pl & rc & ag & op & cl & _ & _ & _ & _ & _ & _ & _ & H & _).
    exact H.
  - apply search_loop_history.
Qed.

Lemma a_run_forgets_nothing_witness :
  Research.visited_links
    (Research.flow_state
       (Research.iteration Scenario.same_url_again Scenario.opts
          (Research.initial Scenario.task)))
  ⊆ Research.visited_links
      (Research.final_state
         (Research.deep_research Scenario.same_url_again Scenario.opts
            Scenario.task)).
Proof.
  destruct (a_run_forgets_nothing Scenario.same_url_again Scenario.opts
              Scenario.task 1
              (Research.flow_state
                 (Research.iteration Scenario.same_url_again Scenario.opts
                    (Research.initial Scenario.task))))
    as (_ & H & _);
    [vm_compute; reflexivity | vm_compute; discriminate | exact H].
Defined.

(** X7.  The filter keeps the proposed queries in their order: what it
    accepts is a sublist of the proposal, every query that is not
    URL-shaped is accepted, as often as it is proposed, and afterwards
    [visited_links] holds exactly the old links and the normal forms of
    all URL-shaped proposals, the skipped ones included. *)
Theorem filter_keeps_the_plain_queries
  {info : Type} (W : Research.world info) (qs : list string)
  (visited : gset string) :
  let fv := Research.filter_queries W qs visited in
  fst fv `sublist_of` qs
  /\ List.filter (fun q => negb (Research.url_shaped W q)) (fst fv)
     = List.filter (fun q => negb (Research.url_shaped W q)) qs
  /\ forall x, x ∈ snd fv
               <-> x ∈ visited
                   \/ exists q, In q qs /\ Research.url_shaped W q = true
                                /\ Research.normalize_url W q = x.
Proof.
  intros fv. subst fv. unfold Research.filter_queries.
  destruct (filter_fold_shape W qs ([], visited)) as (kept & E & Hs & Hp & Hv).
  cbn [fst snd app] in *. rewrite E. auto.
Qed.

(** X8.  The recorder's answer decides how the pass ends.  When the
    answer, after whatever quota retries it takes, parses to a list of
    records, the pass goes on: the records are appended to
    [history_infos] and [visited_links] gains exactly the normal forms
    of the URLs of the new records, the records without a [url] key or
    with the URL [unknown] apart.  When the answer does not parse, the
    pass goes on with [history_infos] and [visited_links] as they were.
    When the answer parses to a value on which the loop over the
    records raises [TypeError], the exception ends the pass:
    [history_infos] is as it was and [visited_links] has gained the
    URLs of the records handled before the exception. *)
Theorem recorded_urls_become_visited
  {info : Type} (W : Research.world info)
  (s : Research.state info) (qr : option string) (content : string) :
  Research.query_result s = Some qr ->
  fst (Research.invoke W
         (Research.emit [Research.EvRecorder (Research.record_prompt W s qr)] s))
  = Retry.Ok (Some content) ->
  match Research.decode_record W content with
  | Research.Records new =>
      exists s',
        Research.record W s = Research.Next s'
        /\ Research.history_infos s' = (Research.history_infos s ++ new)%list
        /\ forall x, x ∈ Research.visited_links s'
                     <-> x ∈ Research.visited_links s
                         \/ exists i u,
                              In i new /\ Research.info_url W i = Some u
                              /\ u <> "unknown"
                              /\ Research.normalize_url W u = x
  | Research.RecordDecodeError =>
      exists s',
        Research.record W s = Research.Next s'
        /\ Research.history_infos s' = Research.history_infos s
        /\ Research.visited_links s' = Research.visited_links s
  | Research.RecordTypeError seen =>
      exists s',
        Research.record W s = Research.Raise "TypeError" s'
        /\ Research.history_infos s' = Research.history_infos s
        /\ forall x, x ∈ Research.visited_links s'
                     <-> x ∈ Research.visited_links s
                         \/ exists i u,
                              In i seen /\ Research.info_url W i = Some u
                              /\ u <> "unknown"
                              /\ Research.normalize_url W u = x
  end.
Proof.
  intros Hq Hr. unfold Research.record. rewrite Hq.
  set (s1 := Research.emit _ s) in *.
  destruct (ResearchFacts.invoke_spec W s1) as (_ & V & _).
  destruct V as (_ & _ & _ & Vi & Vv & _).
  destruct (Research.invoke W s1) as [r s2]. cbn [fst snd] in *.
  change (Research.history_infos s1) with (Research.history_infos s) in Vi.
  change (Research.visited_links s1) with (Research.visited_links s) in Vv.
  subst r.
  destruct (Research.decode_record W content) as [|new|seen];
    eexists; (split; [reflexivity|]);
    cbn [Research.history_infos Research.visited_links fold_left];
    rewrite Vi, Vv.
  - split; [apply List.app_nil_r | reflexivity].
  - split; [reflexivity|]. intros x. apply record_fold_iff.
  - split; [reflexivity|]. intros x. apply record_fold_iff.
Qed.

Lemma recorded_urls_become_visited_witness :
  (exists s',
     Research.record Cases.with_records
       (Research.flow_state
          (Research.dispatch Cases.with_records Scenario.opts
             (snd (Research.ask_planner Cases.with_records Scenario.opts
                     (Research.initial Scenario.task)))
             ["http://a.com/x"]))
     = Research.Next s'
     /\ Research.history_infos s' = ["http://b.org/page/?ref=1"; "unknown"]
     /\ "http://b.org/page" ∈ Research.visited_links s')
  /\ exists s',
       Research.record Cases.number_among_records
         (Research.flow_state
            (Research.dispatch Cases.number_among_records Scenario.opts
               (snd (Research.ask_planner Cases.number_among_records
                       Scenario.opts (Research.initial Scenario.task)))
               ["http://a.com/x"]))
       = Research.Raise "TypeError" s'
       /\ Research.history_infos s' = [].
Proof.
  split.
  - destruct (recorded_urls_become_visited Cases.with_records
                (Research.flow_state
                   (Research.dispatch Cases.with_records Scenario.opts
                      (snd (Research.ask_planner Cases.with_records
                              Scenario.opts (Research.initial Scenario.task)))
                      ["http://a.com/x"]))
                (Some "result of http://a.com/x") "records")
      as (s' & Hr & Hh & Hv);
      [vm_compute; reflexivity | vm_compute; reflexivity |].
    exists s'. split; [exact Hr|]. split; [exact Hh|].
    apply Hv. right.
    exists "http://b.org/page/?ref=1", "http://b.org/page/?ref=1".
    split; [now left|]. split; [reflexivity|].
    split; [discriminate | vm_compute; reflexivity].
  - destruct (recorded_urls_become_visited Cases.number_among_records
                (Research.flow_state
                   (Research.dispatch Cases.number_among_records Scenario.opts
                      (snd (Research.ask_planner Cases.number_among_records
                              Scenario.opts (Research.initial Scenario.task)))
                      ["http://a.com/x"]))
                (Some "result of http://a.com/x") "records")
      as (s' & Hr & Hh & _);
      [vm_compute; reflexivity | vm_compute; reflexivity |].
    exists s'. split; [exact Hr | exact Hh].
Defined.

(** X9.  With [max_retries] at most 0 the wrapped operation is never
    called: the loop is not entered, nothing is slept, and
    [ResourceExhausted] is raised at once. *)
Theorem retry_without_attempts
  (A : Type) (func : nat -> Retry.outcome A) (uniform : nat -> Float.float)
  (c : Retry.config) :
  (Retry.max_retries c <= 0)%Z ->
  Retry.retry_for_rate_limit_per_minute func uniform c
  = Retry.mkRun Retry.ResourceExhausted 0 [].
Proof. apply RetryFacts.retry_no_attempt. Qed.

Lemma retry_without_attempts_witness :
  Retry.calls
    (Retry.retry_for_rate_limit_per_minute
       (fun _ => Retry.Returns 7%nat) (fun _ => Float.zero)
       (Retry.mkConfig 0 (Num.Int 1) (Num.Int 59) eq_refl))
  = 0%nat.
Proof.
  rewrite (retry_without_attempts nat (fun _ => Retry.Returns 7%nat)
             (fun _ => Float.zero)
             (Retry.mkConfig 0 (Num.Int 1) (Num.Int 59) eq_refl));
    [reflexivity|].
  simpl. lia.
Defined.

(** X10.  Whatever the wrapped operation does, a run calls it at most
    [max_retries] times; every call but the last failed on quota; the
    last call decides the result: its value, its other error, or
    [ResourceExhausted] after exactly [max_retries] calls; and one sleep
    separates two calls, so there is one sleep less than there are
    calls. *)
Theorem retry_calls_and_sleeps
  (A : Type) (func : nat -> Retry.outcome A) (uniform : nat -> Float.float)
  (c : Retry.config) :
  let r := Retry.retry_for_rate_limit_per_minute func uniform c in
  (Z.of_nat (Retry.calls r) <= Z.max 0 (Retry.max_retries c))%Z
  /\ List.length (Retry.sleeps r) = pred (Retry.calls r)
  /\ (forall j, (S j < Retry.calls r)%nat ->
                func j = Retry.RaisesResourceExhausted)
  /\ match Retry.final r with
     | Retry.Ok a =>
         exists k, Retry.calls r = S k /\ func k = Retry.Returns a
     | Retry.OtherError e =>
         exists k, Retry.calls r = S k /\ func k = Retry.RaisesOther e
     | Retry.ResourceExhausted =>
         Retry.calls r = Z.to_nat (Retry.max_retries c)
         /\ forall k, Retry.calls r = S k ->
                      func k = Retry.RaisesResourceExhausted
     | Retry.OutOfFuel => False
     end.
Proof.
  destruct (retry_accounts func uniform c) as (H1 & H2 & H3 & H4).
  cbv zeta. split; [exact H1|].
  split; [rewrite H2; apply RetryFacts.length_waits|].
  split; [exact H3 | exact H4].
Qed.

(** * Spellings of one URL *)

Section Spellings.
Import Str StrFacts UrlParse UrlFacts.
Variable chk : string -> bool.

(** the characters that end the path *)
Definition is_cut (c : ascii) : bool := eqb_ascii c "?" || eqb_ascii c "#".

Lemma before_app_l c s t :
  contains c s = false -> before c (s ++ t) = s ++ before c t.
Proof.
  induction s as [|a s IH]; [reflexivity|]. simpl.
  destruct (eqb_ascii a c); [discriminate|]. intros H. now rewrite IH.
Qed.

Lemma filter_app p s t : filter p (s ++ t) = filter p s ++ filter p t.
Proof.
  induction s as [|a s IH]; [reflexivity|]. simpl.
  destruct (p a); simpl; now rewrite IH.
Qed.

Lemma path_of_tail pth tail :
  contains "#" pth = false -> contains "?" pth = false ->
  starts_in is_cut tail = true ->
  before "?" (before "#" (pth ++ tail)) = pth.
Proof.
  intros Hh Hq Ht. destruct tail as [|a t].
  - now rewrite StrFacts.app_nil_r, (before_id _ _ Hh), (before_id _ _ Hq).
  - simpl in Ht. unfold is_cut in Ht. apply orb_prop in Ht as [E | E];
      apply eqb_ascii_eq in E; subst a.
    + rewrite (before_app_l _ _ _ Hh).
      change (before "#" (String "?" t)) with (String "?" (before "#" t)).
      now apply before_app.
    + rewrite (before_app _ _ _ Hh). now apply before_id.
Qed.

(** a URL of the three kept components, followed by a query or a
    fragment, splits into those components *)
Lemma urlsplit_tail sch nl pth tail :
  parts_ok chk sch nl pth -> starts_in is_cut tail = true ->
  exists q f,
    urlsplit chk (sch ++ "://" ++ nl ++ pth ++ tail)
    = Some (mkSplit sch nl pth q f).
Proof.
  intros Hok Ht. destruct Hok as [Hs Hd Hsafe Hb Hn Hp Hh Hq Hps].
  pose proof Hs as ((c0 & t & E & Ha) & Hall & Hlow).
  set (tail' := filter safe tail).
  assert (Ht' : starts_in is_cut tail' = true).
  { destruct tail as [|a r]; [reflexivity|]. unfold tail'. simpl in *.
    assert (Hsa : safe a = true).
    { unfold is_cut in Ht. apply orb_prop in Ht as [X | X];
        apply eqb_ascii_eq in X; subst a; reflexivity. }
    rewrite Hsa. exact Ht. }
  assert (Hbase : forallb safe (sch ++ "://" ++ nl ++ pth) = true).
  { rewrite forallb_app.
    rewrite (forallb_impl _ _ _ scheme_char_safe Hall). simpl.
    change ("://" ++ nl ++ pth)
      with (String ":" (String "/" (String "/" (nl ++ pth)))).
    simpl. now rewrite forallb_app, Hsafe, Hps. }
  unfold urlsplit.
  assert (El : lstrip c0_control_or_space (sch ++ "://" ++ nl ++ pth ++ tail)
               = sch ++ "://" ++ nl ++ pth ++ tail).
  { rewrite E. simpl. now rewrite (alpha_not_space _ Ha). }
  rewrite El.
  replace (sch ++ "://" ++ nl ++ pth ++ tail)
    with ((sch ++ "://" ++ nl ++ pth) ++ tail)
    by now rewrite !StrFacts.app_assoc.
  rewrite filter_app. fold safe. rewrite (filter_id _ _ Hbase).
  change (filter safe tail) with tail'.
  replace ((sch ++ "://" ++ nl ++ pth) ++ tail')
    with (sch ++ String ":" ("//" ++ nl ++ pth ++ tail'))
    by now rewrite !StrFacts.app_assoc.
  rewrite (split_scheme_app _ _ Hs).
  change (take 2 ("//" ++ nl ++ pth ++ tail')) with "//".
  change (String.eqb "//" "//") with true. cbv iota.
  unfold splitnetloc.
  change (drop 2 ("//" ++ nl ++ pth ++ tail')) with (nl ++ pth ++ tail').
  assert (Hst : starts_in netloc_delim (pth ++ tail') = true).
  { destruct pth as [|a pth].
    - destruct tail' as [|a r]; [reflexivity|]. simpl in *.
      unfold is_cut in Ht'. unfold netloc_delim.
      apply orb_prop in Ht' as [-> | ->]; [|now rewrite !orb_true_r].
      now rewrite orb_true_r.
    - simpl in *. unfold is_slash in Hp. unfold netloc_delim. now rewrite Hp. }
  rewrite (span_until_app _ _ _ Hd Hst). rewrite Hb.
  rewrite cut_eq. cbv beta iota. rewrite cut_eq. cbv beta iota.
  rewrite (path_of_tail _ _ Hh Hq Ht'). eauto.
Qed.

Lemma normalize_url_tail sch nl pth tail :
  parts_ok chk sch nl pth -> starts_in is_cut tail = true ->
  normalize_url chk (sch ++ "://" ++ nl ++ pth ++ tail)
  = sch ++ "://" ++ nl ++ strip_trailing (fst (reparsed sch pth)).
Proof.
  intros Hok Ht. destruct (urlsplit_tail _ _ _ _ Hok Ht) as (q & f & E).
  assert (Hs : nonempty sch = true).
  { destruct Hok as [((c0 & t & -> & _) & _) _ _ _ _ _ _ _ _]. reflexivity. }
  assert (Hn : nonempty nl = true) by now destruct Hok.
  rewrite (normalize_url_rebuild chk _
             (mkParse sch nl (fst (reparsed sch pth)) (snd (reparsed sch pth))
                      q f)).
  - reflexivity.
  - rewrite urlparse_unfold, E. reflexivity.
  - exact Hs.
  - exact Hn.
Qed.

Lemma parts_ok_slash sch nl pth :
  parts_ok chk sch nl pth -> parts_ok chk sch nl (pth ++ "/").
Proof.
  intros [Hs Hd Hsafe Hb Hn Hp Hh Hq Hps]. constructor; auto.
  - destruct pth; [reflexivity | exact Hp].
  - now rewrite contains_app, Hh.
  - now rewrite contains_app, Hq.
  - now rewrite forallb_app, Hps.
Qed.

Lemma reparsed_slash sch pth : fst (reparsed sch (pth ++ "/")) = pth ++ "/".
Proof.
  apply reparsed_same. unfold last_segment.
  rewrite (rsplit_app "/" pth "") by reflexivity.
  apply andb_false_r.
Qed.

Lemma strip_trailing_slash pth :
  nonempty pth = true -> strip_trailing (pth ++ "/") = pth.
Proof.
  intros H. unfold strip_trailing.
  rewrite endswith_app by reflexivity.
  assert (E : String.eqb (pth ++ "/") "/" = false).
  { apply String.eqb_neq. destruct pth as [|a [|b r]]; discriminate. }
  rewrite E. cbn [endswith eqb_ascii negb andb].
  change (endswith "/" "/") with true. cbv iota.
  rewrite drop_last_app by reflexivity. apply StrFacts.app_nil_r.
Qed.

End Spellings.

(** X12.  A query string or a fragment appended to a normalized URL
    does not change its normal form, whatever the appended text holds:
    the spellings of a page that differ in [?...] or [#...] only are one
    visited link. *)
Theorem normalize_url_ignores_query_and_fragment
  (chk : string -> bool) (url tail : string) :
  UrlParse.url_shaped chk url = true ->
  Str.startswith "?" tail || Str.startswith "#" tail = true ->
  UrlParse.normalize_url chk (UrlParse.normalize_url chk url ++ tail)
  = UrlParse.normalize_url chk (UrlParse.normalize_url chk url).
Proof.
  unfold UrlParse.url_shaped.
  destruct (UrlParse.urlparse chk url) as [p|] eqn:Hp; [|discriminate].
  intros Hsn Ht. apply andb_prop in Hsn as [Hs Hn].
  pose proof (UrlFacts.urlparse_parts chk _ _ Hp Hs Hn) as Hok.
  apply UrlFacts.strip_trailing_parts in Hok.
  rewrite (UrlFacts.normalize_url_rebuild chk _ _ Hp Hs Hn).
  assert (Hc : StrFacts.starts_in is_cut tail = true).
  { destruct tail as [|a t]; [reflexivity|]. exact Ht. }
  replace ((UrlParse.scheme p ++ "://" ++ UrlParse.netloc p
            ++ UrlParse.strip_trailing (UrlParse.path p)) ++ tail)
    with (UrlParse.scheme p ++ "://" ++ UrlParse.netloc p
          ++ UrlParse.strip_trailing (UrlParse.path p) ++ tail)
    by now rewrite !StrFacts.app_assoc.
  rewrite (normalize_url_tail chk _ _ _ _ Hok Hc).
  pose proof (normalize_url_tail chk _ _ _ "" Hok eq_refl) as H0.
  rewrite StrFacts.app_nil_r in H0. now rewrite H0.
Qed.

Lemma normalize_url_ignores_query_and_fragment_witness :
  UrlParse.normalize_url UrlParse.any_host
    (UrlParse.normalize_url UrlParse.any_host "http://a.com/x/" ++ "?y=1#top")
  = UrlParse.normalize_url UrlParse.any_host
      (UrlParse.normalize_url UrlParse.any_host "http://a.com/x/").
Proof.
  apply (normalize_url_ignores_query_and_fragment UrlParse.any_host
           "http://a.com/x/" "?y=1#top"); reflexivity.
Defined.

(** X13.  One [/] appended to a normalized URL that has a path is
    stripped again; appended to a normalized URL without a path it
    stays, since the path [/] is never stripped: the bare host and the
    host followed by [/] are two different visited links. *)
Theorem normalize_url_root_slash
  (chk : string -> bool) (url : string) (p : UrlParse.ParseResult) :
  UrlParse.urlparse chk url = Some p ->
  Str.nonempty (UrlParse.scheme p) = true ->
  Str.nonempty (UrlParse.netloc p) = true ->
  let n := UrlParse.normalize_url chk url in
  (Str.nonempty (UrlParse.path p) = true ->
   UrlParse.normalize_url chk (n ++ "/") = n)
  /\ (UrlParse.path p = EmptyString ->
      UrlParse.normalize_url chk (n ++ "/") = n ++ "/"
      /\ UrlParse.normalize_url chk n = n
      /\ n ++ "/" <> n).
Proof.
  intros Hp Hs Hn n. subst n.
  pose proof (UrlFacts.urlparse_parts chk _ _ Hp Hs Hn) as Hok.
  apply UrlFacts.strip_trailing_parts in Hok.
  rewrite (UrlFacts.normalize_url_rebuild chk _ _ Hp Hs Hn).
  set (p1 := UrlParse.strip_trailing (UrlParse.path p)) in *.
  assert (Happ : (UrlParse.scheme p ++ "://" ++ UrlParse.netloc p ++ p1) ++ "/"
                 = UrlParse.scheme p ++ "://" ++ UrlParse.netloc p
                   ++ (p1 ++ "/") ++ "")
    by now rewrite !StrFacts.app_assoc, StrFacts.app_nil_r.
  pose proof (normalize_url_tail chk _ _ _ "" (parts_ok_slash chk _ _ _ Hok)
                eq_refl) as H1.
  rewrite reparsed_slash in H1.
  split.
  - intros Hne. rewrite Happ, H1.
    assert (Hp1 : Str.nonempty p1 = true).
    { clear - Hne. unfold p1, UrlParse.strip_trailing.
      destruct (UrlParse.path p) as [|a [|b r]]; [discriminate Hne | |].
      - cbn [Str.endswith]. destruct (Str.eqb_ascii a "/") eqn:Ea.
        + apply StrFacts.eqb_ascii_eq in Ea. subst a. reflexivity.
        + reflexivity.
      - destruct (Str.endswith "/" (String a (String b r))
                  && negb (String.eqb (String a (String b r)) "/"));
          reflexivity. }
    now rewrite (strip_trailing_slash p1 Hp1).
  - intros He. assert (Ep : p1 = "") by (unfold p1; now rewrite He).
    pose proof (normalize_url_tail chk _ _ _ "" Hok eq_refl) as H0.
    rewrite Happ, H1. rewrite Ep in *.
    unfold UrlFacts.reparsed in H0.
    change (Str.contains ";" "") with false in H0.
    rewrite andb_false_r in H0.
    cbn [String.append fst] in *.
    change (UrlParse.strip_trailing "") with "" in H0.
    change (UrlParse.strip_trailing "/") with "/".
    split; [reflexivity|]. split; [exact H0|].
    intros X. apply (f_equal String.length) in X.
    rewrite !StrFacts.length_app in X. cbn [String.length] in X.
    rewrite !StrFacts.length_app in X. simpl in X. lia.
Qed.

Lemma normalize_url_root_slash_witness :
  UrlParse.normalize_url UrlParse.any_host
    (UrlParse.normalize_url UrlParse.any_host "http://a.com" ++ "/")
  = UrlParse.normalize_url UrlParse.any_host "http://a.com" ++ "/".
Proof.
  destruct (normalize_url_root_slash UrlParse.any_host "http://a.com"
              (UrlParse.mkParse "http" "a.com" "" "" "" ""))
    as (_ & H); [reflexivity | reflexivity | reflexivity |].
  destruct (H eq_refl) as (H1 & _). exact H1.
Defined.

(** * The controller's actions *)

Section ControllerFacts.
Import Str StrFacts Controller.

Lemma prefix_inv n : forall s,
  String.prefix n s = true -> exists b, s = n ++ b.
Proof.
  induction n as [|c n IH]; intros s H; [now exists s|].
  destruct s as [|a s]; [discriminate|]. simpl in H.
  destruct (Ascii.ascii_dec c a) as [-> | Hne]; [|discriminate].
  destruct (IH s H) as (b & ->). now exists b.
Qed.

Lemma occurs_inv n : forall s,
  occurs n s = true -> exists a b, s = a ++ n ++ b.
Proof.
  induction s as [|c s IH]; cbn [occurs]; intros H.
  - apply orb_prop in H as [H | H]; [|discriminate].
    destruct (prefix_inv _ _ H) as (b & E). now exists "", b.
  - apply orb_prop in H as [H | H].
    + destruct (prefix_inv _ _ H) as (b & E). now exists "", b.
    + destruct (IH H) as (a & b & ->). now exists (String c a), b.
Qed.

Lemma occurs_iff n s : occurs n s = true <-> exists a b, s = a ++ n ++ b.
Proof.
  split; [apply occurs_inv | intros (a & b & ->); apply occurs_app].
Qed.

Lemma located_app a b : located (a ++ b) = (located a ++ located b)%list.
Proof. unfold located. apply omap_app. Qed.

Lemma clicks_app a b : clicks (a ++ b) = (clicks a ++ clicks b)%list.
Proof. unfold clicks. apply omap_app. Qed.

Section Loop.
Variable pg : page.
Variable timeout : nat.
Variable scrolls : bool.
Variables ok_msg err_msg : string.

Lemma click_first_spec sels :
  let o := click_first pg timeout scrolls ok_msg err_msg sels in
  match clicked o with
  | Some sel =>
      exists pre post cs,
        sels = (pre ++ sel :: post)%list
        /\ works pg scrolls sel = true
        /\ Forall (fun s => works pg scrolls s = false) pre
        /\ located (events o) = (pre ++ [sel])%list
        /\ clicks (events o) = (cs ++ [sel])%list
        /\ Forall (fun s => click pg s = false) cs
        /\ result o = done ok_msg
  | None =>
      Forall (fun s => works pg scrolls s = false) sels
      /\ located (events o) = sels
      /\ Forall (fun s => click pg s = false) (clicks (events o))
      /\ result o = failed err_msg
  end.
Proof.
  induction sels as [|sel rest IH]; cbn [click_first].
  - cbn. auto.
  - cbv zeta in IH.
    set (next := click_first pg timeout scrolls ok_msg err_msg rest) in *.
    assert (Hskip : forall evs,
      located evs = [sel] -> works pg scrolls sel = false ->
      Forall (fun s => click pg s = false) (clicks evs) ->
      match clicked (after evs next) with
      | Some s0 =>
          exists pre post cs,
            sel :: rest = (pre ++ s0 :: post)%list
            /\ works pg scrolls s0 = true
            /\ Forall (fun s => works pg scrolls s = false) pre
            /\ located (events (after evs next)) = (pre ++ [s0])%list
            /\ clicks (events (after evs next)) = (cs ++ [s0])%list
            /\ Forall (fun s => click pg s = false) cs
            /\ result (after evs next) = done ok_msg
      | None =>
          Forall (fun s => works pg scrolls s = false) (sel :: rest)
          /\ located (events (after evs next)) = sel :: rest
          /\ Forall (fun s => click pg s = false)
                    (clicks (events (after evs next)))
          /\ result (after evs next) = failed err_msg
      end).
    { intros evs Hl Hw Hc. cbn [after clicked events result].
      rewrite located_app, clicks_app, Hl.
      destruct (clicked next) as [s0|].
      - destruct IH as (pre & post & cs & E & W & F & L & C & Fc & R).
        exists (sel :: pre), post, (clicks evs ++ cs)%list. rewrite E, L, C.
        split; [reflexivity|]. split; [exact W|].
        split; [now constructor|]. split; [reflexivity|].
        split; [now rewrite List.app_assoc|].
        split; [apply Forall_app; auto | exact R].
      - destruct IH as (F & L & Fc & R). rewrite L.
        split; [now constructor|]. split; [reflexivity|].
        split; [apply Forall_app; auto | exact R]. }
    unfold works in Hskip.
    destruct (locate pg sel) as [[|]|] eqn:El;
      try (apply Hskip; [reflexivity | reflexivity | constructor]).
    destruct scrolls eqn:Es; cbn [andb negb orb] in *.
    + destruct (scroll pg sel) eqn:Esc; cbn [negb andb] in *.
      * destruct (click pg sel) eqn:Ec.
        -- cbn [clicked events result]. exists [], rest, [].
           unfold works. rewrite El, Esc, Ec.
           repeat split; constructor.
        -- apply Hskip; [reflexivity | reflexivity |].
           cbn. constructor; [exact Ec | constructor].
      * apply Hskip; [reflexivity | reflexivity | constructor].
    + destruct (click pg sel) eqn:Ec.
      * cbn [clicked events result]. exists [], rest, [].
        unfold works. rewrite El, Ec.
        repeat split; constructor.
      * apply Hskip; [reflexivity | reflexivity |].
        cbn. constructor; [exact Ec | constructor].
Qed.

End Loop.

Lemma replace_absent c0 old new : forall s,
  contains c0 s = false -> replace_from (String c0 old) new 0 s = s.
Proof.
  induction s as [|a t IH]; [reflexivity|]. cbn [contains replace_from].
  destruct (eqb_ascii a c0) eqn:E; [discriminate|]. intros H.
  cbn [String.prefix]. destruct (Ascii.ascii_dec c0 a) as [-> | Hne].
  - rewrite eqb_ascii_refl in E. discriminate.
  - now rewrite IH.
Qed.

Lemma replace_skip c0 old new rest : forall pre,
  contains c0 pre = false ->
  replace_from (String c0 old) new 0 (pre ++ rest)
  = pre ++ replace_from (String c0 old) new 0 rest.
Proof.
  induction pre as [|a t IH]; [reflexivity|]. cbn [contains].
  destruct (eqb_ascii a c0) eqn:E; [discriminate|]. intros H.
  change (String a t ++ rest) with (String a (t ++ rest)).
  cbn [replace_from String.prefix].
  destruct (Ascii.ascii_dec c0 a) as [-> | Hne].
  - rewrite eqb_ascii_refl in E. discriminate.
  - rewrite IH by exact H. reflexivity.
Qed.

Lemma replace_pass old new rest : forall t,
  replace_from old new (String.length t) (t ++ rest)
  = replace_from old new 0 rest.
Proof.
  induction t as [|a t IH]; [now destruct rest|].
  change (String a t ++ rest) with (String a (t ++ rest)).
  cbn [String.length replace_from]. exact IH.
Qed.

Lemma replace_hit c0 old new rest :
  replace_from (String c0 old) new 0 (String c0 old ++ rest)
  = new ++ replace_from (String c0 old) new 0 rest.
Proof.
  change (String c0 old ++ rest) with (String c0 (old ++ rest)).
  cbn [replace_from].
  change (String c0 (old ++ rest)) with (String c0 old ++ rest).
  rewrite prefix_app.
  cbn [String.length Nat.sub]. rewrite Nat.sub_0_r.
  now rewrite replace_pass.
Qed.

End ControllerFacts.

(** X14.  [is_linkedin_application_page] accepts exactly the strings
    that hold one of its two markers somewhere; it does not look at the
    host, so a URL of any site that carries a marker in its query is
    accepted too. *)
Theorem linkedin_page_test (url : string) :
  (Controller.is_linkedin_application_page url = true
   <-> exists a b,
         url = a ++ "linkedin.com/jobs/collections/recommended/" ++ b
         \/ url = a ++ "linkedin.com/jobs/view/" ++ b)
  /\ forall host,
       Controller.is_linkedin_application_page
         ("https://" ++ host ++ "/?next=linkedin.com/jobs/view/") = true.
Proof.
  assert (H : Controller.is_linkedin_application_page url = true
              <-> exists a b,
                    url = a ++ "linkedin.com/jobs/collections/recommended/" ++ b
                    \/ url = a ++ "linkedin.com/jobs/view/" ++ b).
  { unfold Controller.is_linkedin_application_page.
    rewrite orb_true_iff, !occurs_iff. split.
    - intros [(a & b & E) | (a & b & E)]; exists a, b; auto.
    - intros (a & b & [E | E]); [left | right]; eauto. }
  split; [exact H|]. intros host.
  unfold Controller.is_linkedin_application_page. apply orb_true_iff. right.
  replace ("https://" ++ host ++ "/?next=linkedin.com/jobs/view/")
    with (("https://" ++ host ++ "/?next=") ++ "linkedin.com/jobs/view/" ++ "").
  - apply StrFacts.occurs_app.
  - now rewrite !StrFacts.app_assoc.
Qed.

(** X15.  A click action tries its selectors in order and stops at the
    first one whose element is found, scrolled to and clicked without an
    exception: that selector is the last one looked for and the last
    one clicked, every click before it failed, and the result is the
    success message; when no selector works, every selector was looked
    for, every attempted click failed, and the result is the error
    message.  No exception leaves the loop. *)
Theorem click_stops_at_the_first_selector_that_works
  (pg : Controller.page) (timeout : nat) (scrolls : bool)
  (ok_msg err_msg : string) (sels : list string) :
  let o := Controller.click_first pg timeout scrolls ok_msg err_msg sels in
  match Controller.clicked o with
  | Some sel =>
      exists pre post cs,
        sels = (pre ++ sel :: post)%list
        /\ Controller.works pg scrolls sel = true
        /\ Forall (fun s => Controller.works pg scrolls s = false) pre
        /\ Controller.located (Controller.events o) = (pre ++ [sel])%list
        /\ Controller.clicks (Controller.events o) = (cs ++ [sel])%list
        /\ Forall (fun s => Controller.click pg s = false) cs
        /\ Controller.result o = Controller.done ok_msg
  | None =>
      Forall (fun s => Controller.works pg scrolls s = false) sels
      /\ Controller.located (Controller.events o) = sels
      /\ Forall (fun s => Controller.click pg s = false)
                (Controller.clicks (Controller.events o))
      /\ Controller.result o = Controller.failed err_msg
  end.
Proof. apply click_first_spec. Qed.

(** X16.  The Next, Review and Submit actions end their selector lists
    with the same selector, [button.artdeco-button--primary]: on a page
    where only that selector works, the three actions click the same
    element and each reports its own success. *)
Theorem fallback_selector_is_shared (pg : Controller.page) :
  (forall sel, sel <> Controller.primary_button ->
               Controller.works pg true sel = false) ->
  Controller.works pg true Controller.primary_button = true ->
  let n := Controller.click_linkedin_next_button pg in
  let r := Controller.click_linkedin_review_button pg in
  let s := Controller.click_linkedin_submit_button pg in
  Controller.clicked n = Some Controller.primary_button
  /\ Controller.clicked r = Some Controller.primary_button
  /\ Controller.clicked s = Some Controller.primary_button
  /\ Controller.result n = Controller.done "Clicked Next"
  /\ Controller.result r = Controller.done "Clicked Review"
  /\ Controller.result s = Controller.done "Clicked Submit".
Proof.
  intros Hother Hfb.
  assert (H : forall timeout ok_msg err_msg label text,
    let o := Controller.click_first pg timeout true ok_msg err_msg
               (Controller.selectors_for label text) in
    Controller.clicked o = Some Controller.primary_button
    /\ Controller.result o = Controller.done ok_msg).
  { intros timeout ok_msg err_msg label text o.
    pose proof (click_first_spec pg timeout true ok_msg err_msg
                  (Controller.selectors_for label text)) as Hs.
    cbv zeta in Hs. fold o in Hs.
    destruct (Controller.clicked o) as [sel|].
    - destruct Hs as (pre & post & cs & _ & W & _ & _ & _ & _ & R).
      split; [|exact R]. f_equal.
      destruct (String.string_dec sel Controller.primary_button) as [E | E];
        [exact E|]. rewrite (Hother sel E) in W. discriminate.
    - destruct Hs as (F & _). exfalso.
      rewrite Forall_forall in F.
      assert (Hin : Controller.primary_button
                    ∈ Controller.selectors_for label text).
      { unfold Controller.selectors_for. set_solver. }
      rewrite (F _ Hin) in Hfb. discriminate. }
  cbv zeta.
  destruct (H 2000%nat "Clicked Next" "Could not click Next button."
              "Continue to next step" "Next") as (A1 & A2).
  destruct (H 5000%nat "Clicked Review" "Could not click Review button."
              "Review your application" "Review") as (B1 & B2).
  destruct (H 5000%nat "Clicked Submit" "Could not click Submit button."
              "Submit application" "Submit application") as (C1 & C2).
  auto 7.
Qed.

Lemma fallback_selector_is_shared_witness :
  Controller.clicked
    (Controller.click_linkedin_next_button
       (Controller.mkPage
          (fun s => Some (String.eqb s Controller.primary_button))
          (fun _ => true) (fun _ => true)))
  = Controller.clicked
      (Controller.click_linkedin_submit_button
         (Controller.mkPage
            (fun s => Some (String.eqb s Controller.primary_button))
            (fun _ => true) (fun _ => true))).
Proof.
  destruct (fallback_selector_is_shared
              (Controller.mkPage
                 (fun s => Some (String.eqb s Controller.primary_button))
                 (fun _ => true) (fun _ => true)))
    as (H1 & _ & H3 & _).
  - intros sel Hne. unfold Controller.works. cbn [Controller.locate].
    apply String.eqb_neq in Hne. now rewrite Hne.
  - reflexivity.
  - now rewrite H1, H3.
Defined.

(** X17.  The selector that verifies a dismissal is made from the
    dismiss selector by [str.replace], which leaves the end of the
    selector in place: the verification looks for a button whose label
    is the job name, [ job is dismissed, undo], and then the job name
    and [ job] once more.  When the job name holds no [D] nothing else
    is replaced. *)
Theorem updated_selector_keeps_the_tail (job_name : string) :
  Controller.updated_selector job_name
  = "button[aria-label=" ++ Controller.q ++ job_name
    ++ " job is dismissed, undo"
    ++ Controller.replace "Dismiss" (job_name ++ " job is dismissed, undo")
         (" " ++ job_name ++ " job" ++ Controller.q ++ "]")
  /\ (Str.contains "D" job_name = false ->
      Controller.updated_selector job_name
      = "button[aria-label=" ++ Controller.q ++ job_name
        ++ " job is dismissed, undo " ++ job_name ++ " job"
        ++ Controller.q ++ "]").
Proof.
  assert (E : Controller.updated_selector job_name
    = "button[aria-label=" ++ Controller.q ++ job_name
      ++ " job is dismissed, undo"
      ++ Controller.replace "Dismiss" (job_name ++ " job is dismissed, undo")
           (" " ++ job_name ++ " job" ++ Controller.q ++ "]")).
  { unfold Controller.updated_selector, Controller.replace.
    replace (Controller.dismiss_selector job_name)
      with (("button[aria-label=" ++ Controller.q)
            ++ "Dismiss"
            ++ (" " ++ job_name ++ " job" ++ Controller.q ++ "]"))
      by (unfold Controller.dismiss_selector, Controller.q; reflexivity).
    rewrite replace_skip by reflexivity.
    rewrite replace_hit.
    now rewrite !StrFacts.app_assoc. }
  split; [exact E|]. intros Hd. rewrite E.
  unfold Controller.replace. rewrite replace_absent.
  - reflexivity.
  - rewrite StrFacts.contains_app. cbn [Str.contains String.append].
    rewrite StrFacts.contains_app, Hd. reflexivity.
Qed.

Lemma updated_selector_keeps_the_tail_witness :
  Controller.updated_selector "data engineer"
  = "button[aria-label=" ++ Controller.q ++ "data engineer"
    ++ " job is dismissed, undo " ++ "data engineer" ++ " job"
    ++ Controller.q ++ "]".
Proof.
  destruct (updated_selector_keeps_the_tail "data engineer") as (_ & H).
  apply H. reflexivity.
Defined.

(** * The injected cookies *)

Section CookieFacts.
Import Cookies.

Lemma upper_lower_char c : upper_char (UrlParse.lower_char c) = upper_char c.
Proof.
  destruct c as [[] [] [] [] [] [] [] []]; vm_compute; reflexivity.
Qed.

Lemma lower_lower_char c :
  UrlParse.lower_char (UrlParse.lower_char c) = UrlParse.lower_char c.
Proof.
  destruct c as [[] [] [] [] [] [] [] []]; vm_compute; reflexivity.
Qed.

Lemma lower_lower s : UrlParse.lower (UrlParse.lower s) = UrlParse.lower s.
Proof.
  unfold UrlParse.lower. induction s as [|c s IH]; [reflexivity|].
  cbn [Str.map]. now rewrite lower_lower_char, IH.
Qed.

Lemma capitalize_lower s : capitalize (UrlParse.lower s) = capitalize s.
Proof.
  destruct s as [|c s]; [reflexivity|].
  unfold UrlParse.lower. cbn [Str.map capitalize].
  rewrite upper_lower_char. f_equal. apply lower_lower.
Qed.

Lemma capitalize_nonempty s :
  Str.nonempty s = true -> Str.nonempty (capitalize s) = true.
Proof. destruct s; [discriminate | reflexivity]. Qed.

Lemma capitalize_twice s : capitalize (capitalize s) = capitalize s.
Proof.
  destruct s as [|c s]; [reflexivity|]. cbn [capitalize].
  f_equal; [|apply lower_lower].
  destruct c as [[] [] [] [] [] [] [] []]; vm_compute; reflexivity.
Qed.

End CookieFacts.

(** X18.  The cookies handed to Playwright are the loaded cookies in
    their order, with name, value, domain, path and flags unchanged; a
    session cookie (expiry -1) gets no expiry, and no injected cookie
    has the expiry -1; [sameSite] is never empty: it is [Lax] for an
    absent or empty value and the capitalized value otherwise, so the
    values [lax], [strict] and [none] in any letter case become [Lax],
    [Strict] and [None]; and when the caller's cookies are not asked
    for, or loading them raises, nothing is injected. *)
Theorem injected_cookies (cookies : list Cookies.rookie) :
  let l := Cookies.cookies_to_inject true (Some cookies) in
  List.map Cookies.i_name l = List.map Cookies.name cookies
  /\ List.map Cookies.i_value l = List.map Cookies.value cookies
  /\ List.map Cookies.i_domain l = List.map Cookies.domain cookies
  /\ List.map Cookies.i_path l = List.map Cookies.path cookies
  /\ List.map Cookies.i_httpOnly l = List.map Cookies.httponly cookies
  /\ List.map Cookies.i_secure l = List.map Cookies.secure cookies
  /\ Forall (fun c => Cookies.i_expires c <> Some (-1)%Z
                      /\ Str.nonempty (Cookies.i_sameSite c) = true) l
  /\ (forall c : Cookies.rookie,
        (Cookies.expires c = Some (-1)%Z \/ Cookies.expires c = None
         <-> Cookies.i_expires (Cookies.convert c) = None)
        /\ forall s canon,
             Cookies.samesite c = Some s ->
             In canon ["lax"; "strict"; "none"] ->
             UrlParse.lower s = canon ->
             Cookies.i_sameSite (Cookies.convert c)
             = Cookies.capitalize canon)
  /\ Cookies.adds_cookies (Cookies.cookies_to_inject true None) = false
  /\ forall loaded,
       Cookies.adds_cookies (Cookies.cookies_to_inject false loaded) = false.
Proof.
  cbv zeta. unfold Cookies.cookies_to_inject.
  rewrite !List.map_map. cbn [Cookies.convert Cookies.i_name Cookies.i_value
    Cookies.i_domain Cookies.i_path Cookies.i_httpOnly Cookies.i_secure].
  do 6 (split; [reflexivity|]).
  split.
  { apply Forall_forall. intros x Hx. apply list_elem_of_In in Hx.
    apply List.in_map_iff in Hx as (c & <- & _).
    cbn [Cookies.convert Cookies.i_expires Cookies.i_sameSite]. split.
    - destruct (Cookies.expires c) as [e|]; [|discriminate].
      destruct (e =? -1)%Z eqn:E; [discriminate|].
      apply Z.eqb_neq in E. congruence.
    - destruct (Cookies.samesite c) as [s|]; [|reflexivity].
      destruct (Str.nonempty s) eqn:E; [|reflexivity].
      now apply capitalize_nonempty. }
  split; [|split; [reflexivity | intros loaded; reflexivity]].
  intros c. cbn [Cookies.convert Cookies.i_expires Cookies.i_sameSite]. split.
  - destruct (Cookies.expires c) as [e|].
    + destruct (e =? -1)%Z eqn:E.
      * apply Z.eqb_eq in E. subst e. tauto.
      * apply Z.eqb_neq in E. split; [|discriminate].
        intros [H | H]; congruence.
    + tauto.
  - intros s canon -> Hin Hl.
    assert (Hne : Str.nonempty s = true).
    { destruct s; [|reflexivity]. cbn in Hl. subst canon.
      destruct Hin as [H | [H | [H | []]]]; discriminate. }
    rewrite Hne, <- Hl. symmetry. apply capitalize_lower.
Qed.

Lemma injected_cookies_witness :
  Cookies.i_sameSite
    (Cookies.convert
       (Cookies.mkRookie "sid" "1" ".a.com" "/" (Some (-1)%Z) true true
          (Some "STRICT")))
  = "Strict".
Proof.
  destruct (injected_cookies []) as (_ & _ & _ & _ & _ & _ & _ & H & _).
  destruct (H (Cookies.mkRookie "sid" "1" ".a.com" "/" (Some (-1)%Z) true true
                 (Some "STRICT"))) as (_ & H2).
  apply (H2 "STRICT" "strict"); [reflexivity | right; now left | reflexivity].
Defined.

(** * The budget of model calls *)

Section Budget.
Import Research ResearchFacts.
Context {info : Type}.
Variable W : world info.
Variable opts : options.

(** the prompts of a trace, of all three kinds *)
Definition prompts (evs : list event) : nat :=
  (List.length (planner_prompts evs) + List.length (recorder_prompts evs)
   + List.length (report_prompts evs))%nat.

Lemma prompts_app a b : prompts (a ++ b) = (prompts a + prompts b)%nat.
Proof.
  unfold prompts.
  rewrite planner_prompts_app, recorder_prompts_app, report_prompts_app,
    !length_app. lia.
Qed.

(** at most five calls of the model and four draws for each prompt
    sent so far *)
Definition within_budget (s : state info) : Prop :=
  (llm_calls s <= 5 * prompts (trace s))%nat
  /\ (draws s <= 4 * prompts (trace s))%nat.

(** the same, with a prompt sent and its call still to come *)
Definition prompt_pending (s : state info) : Prop :=
  (llm_calls s + 5 <= 5 * prompts (trace s))%nat
  /\ (draws s + 4 <= 4 * prompts (trace s))%nat.

Lemma prompts_sleeps l : prompts (List.map EvSleep l) = 0%nat.
Proof. induction l as [|x l IH]; [reflexivity | exact IH]. Qed.

Lemma invoke_budget s :
  prompt_pending s -> within_budget (snd (invoke W s)).
Proof.
  intros (Hc & Hd). unfold invoke, within_budget.
  cbn [snd llm_calls draws trace].
  rewrite prompts_app, prompts_sleeps, Nat.add_0_r.
  destruct (retry_accounts (fun k => llm_invoke W (llm_calls s + k))
              (fun k => uniform W (draws s + k)) Retry.defaults)
    as (H1 & H2 & _).
  cbv zeta in H1, H2. rewrite H2, RetryFacts.length_waits.
  cbn in H1. lia.
Qed.

Lemma budget_extends s s' evs :
  within_budget s -> llm_calls s' = llm_calls s -> draws s' = draws s ->
  trace s' = (trace s ++ evs)%list -> within_budget s'.
Proof.
  intros (Hc & Hd) E1 E2 E3. unfold within_budget.
  rewrite E1, E2, E3, prompts_app. lia.
Qed.

Lemma ask_planner_budget s0 :
  within_budget s0 -> within_budget (snd (ask_planner W opts s0)).
Proof.
  intros (Hc & Hd). unfold ask_planner. apply invoke_budget.
  unfold prompt_pending. cbn [emit bump llm_calls draws trace].
  rewrite prompts_app. cbn. lia.
Qed.

Lemma dispatch_budget s qs :
  within_budget s -> within_budget (flow_state (dispatch W opts s qs)).
Proof.
  intros H. unfold dispatch.
  destruct (filter_queries W qs (visited_links s)) as [[|q0 f] v].
  - cbn [flow_state]. eapply budget_extends; [exact H | | |]; reflexivity.
  - cbn [emit search_iteration].
    destruct (first_raise _).
    + cbn [flow_state].
      eapply budget_extends; [exact H | reflexivity | reflexivity |].
      cbn [emit trace]. rewrite <- List.app_assoc. reflexivity.
    + destruct (fold_left _ _ _) as [qr saved]. cbn [flow_state].
      eapply budget_extends; [exact H | reflexivity | reflexivity |].
      cbn [emit trace]. rewrite <- !List.app_assoc. reflexivity.
Qed.

Lemma record_budget s :
  within_budget s -> within_budget (flow_state (record W s)).
Proof.
  intros (Hc & Hd). unfold record.
  destruct (query_result s) as [qr|]; [|now split].
  set (s1 := emit _ s).
  assert (H1 : prompt_pending s1).
  { unfold prompt_pending, s1. cbn [emit llm_calls draws trace].
    rewrite prompts_app. cbn. lia. }
  pose proof (invoke_budget s1 H1) as H2.
  destruct (invoke W s1) as [r s2]. cbn [snd] in H2.
  destruct r as [[c|]| |x|]; cbn [flow_state]; try exact H2.
  destruct (decode_record W c); exact H2.
Qed.

Lemma iteration_budget s0 :
  within_budget s0 -> within_budget (flow_state (iteration W opts s0)).
Proof.
  intros H. pose proof (ask_planner_budget s0 H) as H1. unfold iteration.
  destruct (ask_planner W opts s0) as [r s]. cbn [snd] in H1.
  destruct r as [[c|]| |x|]; cbn [flow_state]; try exact H1.
  destruct (decode_plan W c) as [| |p [|q qs]]; cbn [flow_state];
    try exact H1.
  pose proof (dispatch_budget s (q :: qs) H1) as H2.
  destruct (dispatch W opts s (q :: qs)) as [s1|s1|x s1|s1];
    cbn [flow_state] in *; try exact H2.
  now apply record_budget.
Qed.

Lemma search_loop_budget fuel : forall s,
  within_budget s -> within_budget (exit_state (search_loop W opts fuel s)).
Proof.
  induction fuel as [|fuel IH]; intros s H; cbn [search_loop].
  - destruct (search_iteration s <? max_search_iterations opts)%Z; exact H.
  - destruct (search_iteration s <? max_search_iterations opts)%Z; [|exact H].
    pose proof (iteration_budget s H) as H1.
    destruct (iteration W opts s) as [s1|s1|x s1|s1];
      cbn [flow_state exit_state] in *; auto.
Qed.

Lemma report_budget s :
  within_budget s -> within_budget (flow_state (fst (report W opts s))).
Proof.
  intros (Hc & Hd). unfold report.
  destruct (forallb (encodable W) (history_infos s)); [|now split].
  set (s2 := emit [EvReport _] (emit _ s)).
  assert (H1 : prompt_pending s2).
  { unfold prompt_pending, s2. cbn [emit llm_calls draws trace].
    rewrite !prompts_app. cbn. lia. }
  pose proof (invoke_budget s2 H1) as H2.
  destruct (invoke W s2) as [r s3]. cbn [snd] in H2.
  destruct r as [[c|]| |x|]; cbn [fst flow_state]; try exact H2.
  eapply budget_extends; [exact H2 | | |]; reflexivity.
Qed.

Lemma deep_research_budget task :
  within_budget (final_state (deep_research W opts task)).
Proof.
  unfold deep_research.
  assert (H0 : within_budget (initial task)) by (split; cbn; lia).
  pose proof (search_loop_budget (Z.to_nat (max_search_iterations opts))
                (initial task) H0) as H1.
  destruct (search_loop W opts _ (initial task)) as [s|s|x s|s];
    cbn [exit_state] in H1.
  - pose proof (report_budget s H1) as H2.
    destruct (report W opts s) as [[s'|s'|x s'|s'] res];
      cbn [fst flow_state final_state] in *;
      (eapply budget_extends; [exact H2 | | |]; reflexivity).
  - pose proof (report_budget s H1) as H2.
    destruct (report W opts s) as [[s'|s'|x s'|s'] res];
      cbn [fst flow_state final_state] in *;
      (eapply budget_extends; [exact H2 | | |]; reflexivity).
  - cbn [final_state]. eapply budget_extends; [exact H1 | | |]; reflexivity.
  - cbn [final_state]. eapply budget_extends; [exact H1 | | |]; reflexivity.
Qed.

End Budget.

(** X19.  Through the retry wrapper, [deep_research] calls
    [llm.invoke] at most five times and sleeps at most four times for
    each planner, recorder or report prompt it sends; with the cap on
    the passes that makes at most [10 * max_search_iterations + 5] such
    calls in a run.  The calls that the agents make with the same model
    are not among them: [llm_calls] counts the calls of [deep_research]
    itself. *)
Theorem model_calls_are_bounded
  {info : Type} (W : Research.world info) (opts : Research.options)
  (task : string) :
  let s := Research.final_state (Research.deep_research W opts task) in
  let tr := Research.trace s in
  let sent := (List.length (Research.planner_prompts tr)
               + List.length (Research.recorder_prompts tr)
               + List.length (Research.report_prompts tr))%nat in
  (Research.llm_calls s <= 5 * sent)%nat
  /\ (Research.draws s <= 4 * sent)%nat
  /\ (Z.of_nat (Research.llm_calls s)
      <= 10 * Z.max 0 (Research.max_search_iterations opts) + 5)%Z.
Proof.
  cbv zeta.
  destruct (deep_research_budget W opts task) as (Hc & Hd).
  unfold prompts in Hc, Hd.
  split; [exact Hc|]. split; [exact Hd|].
  destruct (final_trace W opts task) as (evs & T & P & R & _ & _ & _ & L & _).
  destruct (search_loop_run W opts
              (Z.to_nat (Research.max_search_iterations opts))
              (Research.initial task))
    as (pl & rc & ag & op & cl & (evs0 & T0 & P0 & R0 & O0 & _)
        & B & C & _ & _ & _ & _ & _ & I).
  cbn [Research.initial Research.trace Research.search_iteration app]
    in T0, B, I.
  rewrite T, T0 in Hc.
  rewrite !ResearchFacts.planner_prompts_app,
    !ResearchFacts.recorder_prompts_app, !ResearchFacts.report_prompts_app,
    P, R, P0, R0, O0, !List.app_nil_r in Hc.
  cbn [app] in Hc. lia.
Qed.

(** * Two spellings in one batch *)

Lemma url_shaped_tail chk sch nl pth tail :
  UrlFacts.parts_ok chk sch nl pth ->
  StrFacts.starts_in is_cut tail = true ->
  UrlParse.url_shaped chk (sch ++ "://" ++ nl ++ pth ++ tail) = true.
Proof.
  intros Hok Ht. destruct (urlsplit_tail chk _ _ _ _ Hok Ht) as (q & f & E).
  unfold UrlParse.url_shaped. rewrite UrlFacts.urlparse_unfold, E.
  cbn [UrlParse.scheme UrlParse.netloc UrlParse.s_scheme UrlParse.s_netloc].
  destruct Hok as [((c0 & t & -> & _) & _) _ _ _ Hn _ _ _ _].
  now rewrite Hn.
Qed.

(** X20.  When the planner proposes, in one batch, a normalized URL
    and the same URL followed by a query string or a fragment, the
    filter accepts the first of the two at most: both have the same
    normal form, which the first one reserves, or which was visited
    before. *)
Theorem spellings_are_dispatched_once
  {info : Type} (W : Research.world info) (url tail : string)
  (visited : gset string) :
  Research.url_shaped W url = true ->
  Str.startswith "?" tail || Str.startswith "#" tail = true ->
  let n := Research.normalize_url W url in
  let k := Research.normalize_url W n in
  Research.normalize_url W (n ++ tail) = k
  /\ Research.filter_queries W [n; n ++ tail] visited
     = if bool_decide (k ∈ visited) then ([], visited)
       else ([n], {[k]} ∪ visited).
Proof.
  intros Hs Ht n k.
  unfold Research.url_shaped in Hs.
  destruct (UrlParse.urlparse (Research.check_bracketed_host W) url)
    as [p|] eqn:Hp; [|discriminate].
  apply andb_prop in Hs as [Hsc Hnl].
  pose proof (UrlFacts.urlparse_parts _ _ _ Hp Hsc Hnl) as Hok.
  apply UrlFacts.strip_trailing_parts in Hok.
  assert (En : n = UrlParse.scheme p ++ "://" ++ UrlParse.netloc p
                   ++ UrlParse.strip_trailing (UrlParse.path p) ++ "").
  { unfold n, Research.normalize_url.
    rewrite (UrlFacts.normalize_url_rebuild _ _ _ Hp Hsc Hnl).
    now rewrite StrFacts.app_nil_r. }
  assert (Hc : StrFacts.starts_in is_cut tail = true).
  { destruct tail as [|a t]; [reflexivity|]. exact Ht. }
  assert (Et : n ++ tail
               = UrlParse.scheme p ++ "://" ++ UrlParse.netloc p
                 ++ UrlParse.strip_trailing (UrlParse.path p) ++ tail)
    by (rewrite En, !StrFacts.app_assoc; reflexivity).
  assert (Hk : Research.normalize_url W (n ++ tail) = k).
  { unfold k, Research.normalize_url. rewrite Et. rewrite En.
    now rewrite !(normalize_url_tail _ _ _ _ _ Hok) by assumption || reflexivity. }
  split; [exact Hk|].
  assert (S1 : Research.url_shaped W n = true).
  { rewrite En. now apply url_shaped_tail. }
  assert (S2 : Research.url_shaped W (n ++ tail) = true).
  { rewrite Et. now apply url_shaped_tail. }
  unfold Research.filter_queries. cbn [fold_left].
  unfold Research.filter_step at 2. rewrite S1. fold k.
  destruct (bool_decide (k ∈ visited)) eqn:Ev.
  - unfold Research.filter_step. now rewrite S2, Hk, Ev.
  - unfold Research.filter_step. rewrite S2, Hk.
    rewrite bool_decide_eq_true_2 by set_solver. reflexivity.
Qed.

Lemma spellings_are_dispatched_once_witness :
  fst (Research.filter_queries Scenario.same_url_again
         ["http://a.com/x"; "http://a.com/x" ++ "?y=1"] ∅)
  = ["http://a.com/x"].
Proof.
  destruct (spellings_are_dispatched_once Scenario.same_url_again
              "http://a.com/x/" "?y=1" ∅) as (_ & H);
    [reflexivity | reflexivity |].
  change (Research.normalize_url Scenario.same_url_again "http://a.com/x/")
    with "http://a.com/x" in H.
  rewrite H. reflexivity.
Defined.

(** * The order of a pass *)

Section PassOrder.
Import Research ResearchFacts.
Context {info : Type}.
Variable W : world info.
Variable opts : options.

Definition saves_only (evs : list event) : Prop :=
  Forall (fun e => exists path text, e = EvSaveQuery path text) evs.

Lemma combine_seq_prefix {B : Type} (l : list B) : forall c n,
  (List.length l <= n)%nat ->
  combine (seq c n) l = combine (seq c (List.length l)) l.
Proof.
  induction l as [|x l IH]; intros c n H.
  - destruct (seq c n); reflexivity.
  - destruct n as [|n]; [cbn in H; lia|]. cbn [List.length seq combine].
    f_equal. apply IH. cbn in H. lia.
Qed.

Lemma save_fold_saves it items : forall acc,
  exists new,
    snd (fold_left (save_step opts it) items acc) = (snd acc ++ new)%list
    /\ saves_only new /\ (List.length new <= List.length items)%nat.
Proof.
  induction items as [|[i [q r]] items IH]; intros [qr evs]; cbn [fold_left].
  - exists []. rewrite List.app_nil_r. split; [reflexivity|].
    split; [constructor | cbn; lia].
  - unfold save_step at 2. destruct r as [e| |final].
    + destruct (IH (qr, evs)) as (new & E & Hs & Hl). exists new.
      split; [exact E|]. split; [exact Hs | cbn; lia].
    + destruct (IH (qr, evs)) as (new & E & Hs & Hl). exists new.
      split; [exact E|]. split; [exact Hs | cbn; lia].
    + match goal with
      | |- context [fold_left _ items (?a, (evs ++ [?ev])%list)] =>
          destruct (IH (a, (evs ++ [ev])%list)) as (new & E & Hs & Hl);
          exists (ev :: new)
      end.
      cbn [snd] in *. rewrite E, <- List.app_assoc.
      split; [reflexivity|]. split; [|cbn; lia].
      constructor; [eauto | exact Hs].
Qed.

Lemma dispatch_trace s qs :
  let fv := filter_queries W qs (visited_links s) in
  let ctxs := seq (contexts_opened s) (List.length qs) in
  let agents :=
    List.map (fun '(c, q) => EvAgent c q)
             (combine (seq (contexts_opened s) (List.length (fst fv)))
                      (fst fv)) in
  let f := dispatch W opts s qs in
  exists saved,
    saves_only saved /\ (List.length saved <= List.length (fst fv))%nat
    /\ trace (flow_state f)
       = (trace s ++ List.map EvOpen ctxs
          ++ match f with
             | Break _ => []
             | Raise _ _ => agents
             | Next _ => agents ++ List.map EvClose ctxs ++ saved
             | Stuck _ => []
             end)%list.
Proof.
  intros fv ctxs agents f. subst fv agents f. unfold dispatch. fold ctxs.
  pose proof (filter_queries_length W qs (visited_links s)) as Hlen.
  destruct (filter_queries W qs (visited_links s)) as [filtered visited].
  cbn [fst] in *.
  destruct filtered as [|q0 filtered].
  - exists []. cbn [flow_state trace]. rewrite List.app_nil_r.
    split; [constructor|]. split; [cbn; lia | reflexivity].
  - set (fl := q0 :: filtered) in *.
    rewrite <- (combine_seq_prefix fl (contexts_opened s) (List.length qs))
      by exact Hlen.
    fold ctxs. cbn [emit search_iteration].
    destruct (first_raise _).
    + exists []. cbn [flow_state emit trace].
      split; [constructor|]. split; [cbn; lia|].
      now rewrite <- List.app_assoc.
    + match goal with
      | |- context [fold_left (save_step opts ?it) ?items ?acc] =>
          destruct (save_fold_saves it items acc) as (new & E & Hs & Hl);
          destruct (fold_left (save_step opts it) items acc) as [qr saved]
      end.
      cbn [snd app] in E. subst saved. exists new.
      split; [exact Hs|]. split.
      * unfold enumerate in Hl. rewrite length_combine, length_seq in Hl.
        rewrite length_combine in Hl. lia.
      * cbn [flow_state emit trace]. now rewrite <- !List.app_assoc.
Qed.

End PassOrder.

(** X21.  In a pass the contexts are opened first, one for every
    proposed query; then the agents are constructed, the [i]-th accepted
    query on the [i]-th context, so the contexts beyond the number of
    accepted queries get no agent; then, when no agent raised, every
    context is closed, and after that the results are saved, at most one
    file for each accepted query.  When the filter accepts nothing only
    the contexts are opened. *)
Theorem a_pass_opens_runs_closes_saves
  {info : Type} (W : Research.world info) (opts : Research.options)
  (s : Research.state info) (qs : list string) :
  let fv := Research.filter_queries W qs (Research.visited_links s) in
  let ctxs := seq (Research.contexts_opened s) (List.length qs) in
  let agents :=
    List.map (fun '(c, q) => Research.EvAgent c q)
             (combine (seq (Research.contexts_opened s)
                           (List.length (fst fv)))
                      (fst fv)) in
  let f := Research.dispatch W opts s qs in
  (List.length (fst fv) <= List.length qs)%nat
  /\ exists saved,
       Forall (fun e => exists path text,
                          e = Research.EvSaveQuery path text) saved
       /\ (List.length saved <= List.length (fst fv))%nat
       /\ Research.trace (Research.flow_state f)
          = (Research.trace s ++ List.map Research.EvOpen ctxs
             ++ match f with
                | Research.Break _ => []
                | Research.Raise _ _ => agents
                | Research.Next _ =>
                    agents ++ List.map Research.EvClose ctxs ++ saved
                | Research.Stuck _ => []
                end)%list.
Proof.
  cbv zeta. split; [apply ResearchFacts.filter_queries_length|].
  apply dispatch_trace.
Qed.
